(** * demux_drumless.py: the drumless-folder demuxer, embedded and verified

    The script walks a folder tree, separates every audio file into stems,
    remixes the stems without the drums, remuxes the original metadata onto
    the mix, copies artwork, stamps tags and optionally derives normalised
    MP3 files.  Everything it does to audio goes through external tools
    (the separator, ffmpeg, rsgain, mutagen); what the script itself owns
    is path arithmetic, a gain policy, file selection and the control flow
    that decides which artefacts live and which outputs are reported.

    The embedding follows the script function by function and keeps its
    names.  Its choices:
    - Python's [str] is [string], the bytes of its UTF-8 form, so that the
      order of two strings is Python's order by code point.  In discovery,
      which compares lowered paths with each other and lowered extensions
      with a set it is given, [lower()] is [str_lower]: the ASCII mapping on
      a string of ASCII characters, and the case mapping of the interpreter's
      Unicode database, a parameter, on any other.  Elsewhere the script
      compares a lowered name with one of its own words ([drums], [.flac]
      and the other extensions it names, an answer), and there [lower()]
      maps the ASCII letters and leaves every other byte.  These comparisons
      come out as in Python: the only letters outside ASCII that lower to an
      ASCII letter are the Kelvin sign, to a [k], which none of these words
      holds, and the dotted capital I, to an [i] with a combining dot after
      it, which none holds either.
    - Python's [float] is the kernel's binary64 [float], with its rounding.
    - The host is POSIX: [os.path] is [posixpath], [glob] compares case and
      skips dot files.
    - The file system is a finite map from paths, as the script spells them,
      to nodes (case matters, and there are no links); a FLAC, MP3 or MP4
      node carries the tags and pictures mutagen reads.  A statement about a
      file that the script may spell in more than one way ([staging.flac],
      [./staging.flac]) takes the spellings to their normal form.
      [os.remove], [shutil.rmtree] and [os.makedirs], which the script calls
      behind their guards, succeed; so does mutagen's [save()] on a file it
      could open.
    - The external tools are the methods of a class: arbitrary transformers
      of the file system that return their status.  Nothing is assumed of
      them unless a statement says so.
    - The state records what the script printed and what it asked of its
      collaborators, so that statements can speak of "what was called" and
      "what was logged".
    - [main] starts where the loop of the script starts, given the model
      name, the two answers and the discovered files; [main_program] is the
      script from its first line, with the dependency checks, the questions
      (answered by the lines of the standard input, [strip()] removing the
      characters of [str.isspace] as UTF-8 writes them) and the start of the
      separator before the loop. *)

From Stdlib Require Import ZArith String Ascii List Floats Lia Permutation Sorted Bool.
From stdpp Require Import base option gmap strings.

Set Warnings "-inexact-float,-register-all".
Local Open Scope Z_scope.

(* ===================================================================== *)
(** ** Python strings *)
(* ===================================================================== *)

Module PyStr.

(** [c.lower()] on one byte: the ASCII letters A-Z move to a-z, every other
      byte stays. *)
Definition lower_ascii (c : ascii) : ascii :=
    let n := nat_of_ascii c in
    if ((65 <=? n)%nat && (n <=? 90)%nat)%bool then ascii_of_nat (n + 32) else c.

(** [s.lower()] *)
Fixpoint lower (s : string) : string :=
    match s with
    | EmptyString => EmptyString
    | String a r => String (lower_ascii a) (lower r)
    end.

(** [s.startswith(p)] *)
Definition startswith (s p : string) : bool := String.prefix p s.

(** [sub in s] *)
Fixpoint contains (sub s : string) : bool :=
    if String.prefix sub s then true
    else match s with
         | EmptyString => false
         | String _ r => contains sub r
         end.

(** [s.rfind(c)] for a one-character needle: the highest index holding [c],
      or [-1]. *)
Fixpoint rfind (c : ascii) (s : string) : Z :=
    match s with
    | EmptyString => -1
    | String a r =>
        let i := rfind c r in
        if 0 <=? i then i + 1 else if Ascii.eqb a c then 0 else -1
    end.

(** [s[:n]] and [s[n:]] for [0 <= n]. *)
Fixpoint take (n : nat) (s : string) : string :=
    match n, s with
    | S n', String a r => String a (take n' r)
    | _, _ => EmptyString
    end.

Fixpoint drop (n : nat) (s : string) : string :=
    match n, s with
    | S n', String _ r => drop n' r
    | _, _ => s
    end.

(** [s[a:b]] for [0 <= a]; empty when [b <= a]. *)
Definition slice (s : string) (a b : Z) : string :=
    take (Z.to_nat (b - a)) (drop (Z.to_nat a) s).

(** [s.endswith(p)] *)
Definition endswith (s p : string) : bool :=
    String.eqb (drop (String.length s - String.length p) s) p.

(** [s.rstrip('/')] *)
Fixpoint rstrip_slash (s : string) : string :=
    match s with
    | EmptyString => EmptyString
    | String a r =>
        match rstrip_slash r with
        | EmptyString => if Ascii.eqb a "/" then EmptyString else String a EmptyString
        | r' => String a r'
        end
    end.

(** [s.upper()], as [lower]. *)
Definition upper_ascii (c : ascii) : ascii :=
    let n := nat_of_ascii c in
    if ((97 <=? n)%nat && (n <=? 122)%nat)%bool then ascii_of_nat (n - 32) else c.

Fixpoint upper (s : string) : string :=
    match s with
    | EmptyString => EmptyString
    | String a r => String (upper_ascii a) (upper r)
    end.

(** True when every character of [s] is [c] (as in [s == c * len(s)]). *)
Fixpoint all_char (c : ascii) (s : string) : bool :=
    match s with
    | EmptyString => true
    | String a r => Ascii.eqb a c && all_char c r
    end.

(** [s.isascii()] *)
Fixpoint isascii (s : string) : bool :=
    match s with
    | EmptyString => true
    | String a r => (nat_of_ascii a <? 128)%nat && isascii r
    end.

(** [s[::-1]] *)
Fixpoint rev (s : string) : string :=
    match s with
    | EmptyString => EmptyString
    | String a r => rev r +:+ String a EmptyString
    end.

(** The characters [str.isspace] holds for, as the bytes UTF-8 writes them.
      One byte: U+0009 to U+000D, U+001C to U+001F and the space. *)
Definition space1 (a : ascii) : bool :=
    let n := nat_of_ascii a in
    (((9 <=? n) && (n <=? 13)) || ((28 <=? n) && (n <=? 32)))%nat.

(** Two bytes: U+0085 and U+00A0. *)
Definition space2 (a b : ascii) : bool :=
    ((nat_of_ascii a =? 194) && ((nat_of_ascii b =? 133) || (nat_of_ascii b =? 160)))%nat.

(** Three bytes: U+1680, U+2000 to U+200A, U+2028, U+2029, U+202F, U+205F
      and U+3000. *)
Definition space3 (a b c : ascii) : bool :=
    let x := nat_of_ascii a in
    let y := nat_of_ascii b in
    let z := nat_of_ascii c in
    (((x =? 225) && (y =? 154) && (z =? 128))
     || ((x =? 226) && (y =? 128)
         && (((128 <=? z) && (z <=? 138)) || (z =? 168) || (z =? 169) || (z =? 175)))
     || ((x =? 226) && (y =? 129) && (z =? 159))
     || ((x =? 227) && (y =? 128) && (z =? 128)))%nat.

(** Drop the whitespace characters a string starts with; [two] and [three]
      recognise the characters of two and three bytes. *)
Fixpoint skip_spaces (two : ascii -> ascii -> bool) (three : ascii -> ascii -> ascii -> bool)
      (s : string) : string :=
    match s with
    | EmptyString => EmptyString
    | String a r =>
        if space1 a then skip_spaces two three r
        else match r with
             | EmptyString => s
             | String b r2 =>
                 if two a b then skip_spaces two three r2
                 else match r2 with
                      | EmptyString => s
                      | String c r3 => if three a b c then skip_spaces two three r3 else s
                      end
             end
    end.

(** [s.lstrip()] *)
Definition lstrip (s : string) : string := skip_spaces space2 space3 s.

(** [s.rstrip()]: the same from the far end, where the bytes of a character
      come last byte first. *)
Definition rstrip (s : string) : string :=
    rev (skip_spaces (fun a b => space2 b a) (fun a b c => space3 c b a) (rev s)).

(** [s.strip()] *)
Definition strip (s : string) : string := rstrip (lstrip s).


End PyStr.

(* ===================================================================== *)
(** ** os.path on a POSIX host *)
(* ===================================================================== *)

Module OsPath.
Import PyStr.

(** [os.path.splitext(p)]: the extension starts at the last dot of the last
      path component, unless that component has nothing but dots before it. *)
Definition splitext (p : string) : string * string :=
    let sepIndex := rfind "/" p in
    let dotIndex := rfind "." p in
    if sepIndex <? dotIndex then
      (* skip all leading dots of the file name *)
      if all_char "." (slice p (sepIndex + 1) dotIndex)
      then (p, EmptyString)
      else (take (Z.to_nat dotIndex) p, drop (Z.to_nat dotIndex) p)
    else (p, EmptyString).

(** [os.path.basename(p)] *)
Definition basename (p : string) : string :=
    drop (Z.to_nat (rfind "/" p + 1)) p.

(** [os.path.dirname(p)] *)
Definition dirname (p : string) : string :=
    let head := take (Z.to_nat (rfind "/" p + 1)) p in
    if (negb (String.eqb head EmptyString) && negb (all_char "/" head))%bool
    then rstrip_slash head else head.

(** [os.path.join(a, b)] *)
Definition join (a b : string) : string :=
    if startswith b "/" then b
    else if (String.eqb a EmptyString || endswith a "/")%bool then a +:+ b
    else a +:+ "/" +:+ b.

(** [p.split("/")] *)
Fixpoint split_slash (p : string) : list string :=
    match p with
    | EmptyString => [EmptyString]
    | String a r =>
        if Ascii.eqb a "/" then EmptyString :: split_slash r
        else match split_slash r with
             | comp :: comps => String a comp :: comps
             | [] => [String a EmptyString]
             end
    end.

(** [os.path.normpath(path)]: empty components and [.] go, a [..] takes the
      component before it along unless it stands first in a relative path or
      after another [..]; one or two slashes at the start are kept, more
      become one. *)
Definition normpath (path : string) : string :=
    if String.eqb path EmptyString then "." else
    let initial_slashes :=
      if startswith path "/" then
        if (startswith path "//" && negb (startswith path "///"))%bool then 2%nat else 1%nat
      else 0%nat in
    let comps := split_slash path in
    let new_comps :=
      fold_left
        (fun new_comps comp =>
           if (String.eqb comp EmptyString || String.eqb comp ".")%bool then new_comps
           else if (negb (String.eqb comp "..")
                    || ((initial_slashes =? 0)%nat && bool_decide (new_comps = []))
                    || bool_decide (last new_comps = Some ".."))%bool
                then new_comps ++ [comp]
                else removelast new_comps)
        comps [] in
    let path := String.concat "/" new_comps in
    let path := String.concat EmptyString (repeat "/" initial_slashes) +:+ path in
    if String.eqb path EmptyString then "." else path.

End OsPath.

(** [is_flac_file] *)
Definition is_flac_file (path : string) : bool :=
  String.eqb (PyStr.lower (snd (OsPath.splitext path))) ".flac".

(** The name of a Track's final output, as [main] builds it:
    [filename = os.path.splitext(file)[0]] and
    [output_filename = f"{filename} - Drumless.flac"]. *)
Definition output_filename (file : string) : string :=
  let filename := fst (OsPath.splitext file) in
  filename +:+ " - Drumless.flac".

(** The staging file of a Track, as [main] builds it. *)
Definition staging_file_of (file : string) : string :=
  let file_dir := OsPath.dirname file in
  let staging_dir := if String.eqb file_dir EmptyString then "." else file_dir in
  OsPath.join staging_dir "staging.flac".

(** The scratch directory of the separator (constant in [main]). *)
Definition wav_dir : string := "separated".

(* ===================================================================== *)
(** ** sorted() *)
(* ===================================================================== *)

(** [sorted(l, key=key)]: Python's sort is stable and compares the keys as
    strings, byte by byte.  A stable insertion sort has the same result. *)
Fixpoint insert_by (key : string -> string) (x : string) (l : list string) : list string :=
  match l with
  | [] => [x]
  | y :: r => if String.leb (key x) (key y) then x :: y :: r else y :: insert_by key x r
  end.

Fixpoint sorted_by (key : string -> string) (l : list string) : list string :=
  match l with
  | [] => []
  | x :: r => insert_by key x (sorted_by key r)
  end.

(** [sorted(l)] *)
Definition sorted (l : list string) : list string := sorted_by (fun s => s) l.

(* ===================================================================== *)
(** ** str.lower() beyond ASCII *)
(* ===================================================================== *)

(** What the interpreter brings: the lowercase mapping of the Unicode
    database it was built with, as [str.lower()] applies it to a string
    that is not ASCII (every cased letter mapped, the capital sigma by its
    place in the word).  The database grows from one version of Python to
    the next, so the mapping is a parameter. *)
Class Interpreter : Type := {
  do_lower : string -> string
}.

(** [s.lower()], as CPython computes it: the ASCII mapping on a string of
    ASCII characters, the mapping of the database on any other. *)
Definition str_lower {I : Interpreter} (s : string) : string :=
  if PyStr.isascii s then PyStr.lower s else do_lower s.

(* ===================================================================== *)
(** ** File discovery *)
(* ===================================================================== *)

(** [SUPPORTED_INPUT_EXTENSIONS] *)
Definition SUPPORTED_INPUT_EXTENSIONS : gset string :=
  {[ ".flac"; ".wav"; ".m4a"; ".mp4"; ".mp3"; ".alac" ]}.

(** A directory as [os.walk] reports it: the sub-directories with their own
    content, and the names of the files, both in the order the host lists
    them. *)
Inductive Tree : Type :=
| Folder (dirnames : list (string * Tree)) (filenames : list string).

(** The pruning test of [find_audio_files]:
    [d.lower() != "separated" and not d.lower().startswith("normalised")]. *)
Definition keep_dir {I : Interpreter} (d : string) : bool :=
  negb (String.eqb (str_lower d) "separated")
  && negb (PyStr.startswith (str_lower d) "normalised").

(** The file test: [os.path.splitext(filename)[1].lower() in extensions]. *)
Definition has_supported_extension {I : Interpreter} (extensions : gset string)
    (filename : string) : bool :=
  bool_decide (str_lower (snd (OsPath.splitext filename)) ∈ extensions).

(** [os.path.relpath(os.path.join(dirpath, name), root_dir)] for a [dirpath]
    that [os.walk(root_dir)] produced: the components below the root joined
    by [/].  [rel] is that relative form of [dirpath], empty at the root. *)
Definition rel_join (rel name : string) : string :=
  if String.eqb rel EmptyString then name else rel +:+ "/" +:+ name.

(** The body of the [os.walk] loop, top-down: the files of this directory
    first, then the kept sub-directories in turn. *)
Fixpoint walk_audio {I : Interpreter} (extensions : gset string) (rel : string) (t : Tree)
  : list string :=
  match t with
  | Folder dirnames filenames =>
      map (rel_join rel) (filter (fun f => has_supported_extension extensions f = true) filenames)
      ++ (fix descend (ds : list (string * Tree)) : list string :=
            match ds with
            | [] => []
            | (d, sub) :: rest =>
                if keep_dir d
                then walk_audio extensions (rel_join rel d) sub ++ descend rest
                else descend rest
            end) dirnames
  end.

(** [find_audio_files(root_dir, extensions)], the tree being what is on disk
    under [root_dir]. *)
Definition find_audio_files {I : Interpreter} (root : Tree) (extensions : gset string)
  : list string :=
  sorted_by (fun p => str_lower p) (walk_audio extensions EmptyString root).

(** What the claim about discovery speaks of: a file of the tree, given by the
    directories above it and its name. *)
Inductive file_at : Tree -> list string -> string -> Prop :=
| file_here dirnames filenames f :
    In f filenames -> file_at (Folder dirnames filenames) [] f
| file_below dirnames filenames d sub ds f :
    In (d, sub) dirnames -> file_at sub ds f ->
    file_at (Folder dirnames filenames) (d :: ds) f.

(** The relative path of a file: its directories and its name, joined as
    [os.walk] joins them on the way down. *)
Definition rel_path (ds : list string) (f : string) : string :=
  rel_join (fold_left rel_join ds EmptyString) f.

(* ===================================================================== *)
(** ** Files, tags and pictures *)
(* ===================================================================== *)

(** [mutagen.flac.Picture] *)
Record Picture : Type := mkPicture {
  pic_data : string;
  pic_mime : string;
  pic_type : Z;
  pic_desc : string
}.

(** The ID3 frames the script reads or writes.  [TextFrame] stands for the
    text frames [TIT2], [TALB], [TPE1], [TPE2], [TRCK], [TCON] and [TDRC];
    all frames are written with [encoding=3]. *)
Inductive Frame : Type :=
| TextFrame (id text : string)
| COMM (lang desc text : string)
| TXXX (desc text : string)
| APIC (mime : string) (type : Z) (desc : string) (data : string).

(** [MP4Cover.imageformat], and one entry of an MP4 [covr] atom: an
    [MP4Cover] or any other value. *)
Inductive ImageFormat : Type := FORMAT_JPEG | FORMAT_PNG | FORMAT_OTHER.

Inductive Cover : Type :=
| MP4Cover (imageformat : ImageFormat) (data : string)
| RawCover (data : string).

(** What lies at a path.  A FLAC file carries its Vorbis comments (a list of
    key and value pairs, in file order) and its picture blocks; an MP3 file its
    ID3 tag, if it has one, as the list of its frames; an MP4 file its [covr]
    atom, if it has tags and the atom.  [OtherFile] is anything
    mutagen cannot open (WAV stems, a half-written output). *)
Inductive Node : Type :=
| Dir
| FlacFile (tags : list (string * string)) (pictures : list Picture)
| Mp3File (tags : option (list Frame))
| Mp4File (covr : option (list Cover))
| OtherFile.

(* ===================================================================== *)
(** ** Commands, events and messages *)
(* ===================================================================== *)

(** The shell command lines the script composes, by their template and the
    values substituted into it. *)
Inductive Cmd : Type :=
(* ffmpeg {-i f}... -filter_complex "amix=inputs={n}:duration=longest:normalize=0,volumedetect" -f null - 2>&1 *)
| FfmpegMixPeak (inputs : list string) (num_inputs : nat)
(* ffmpeg -i "{file_path}" -af "volumedetect" -f null - 2>&1 *)
| FfmpegFilePeak (file_path : string)
(* ffmpeg {-i f}... -compression_level 8 -filter_complex "amix=...[,volume={gain_db}dB]" "{output_file}" *)
| FfmpegMerge (inputs : list string) (num_inputs : nat) (gain_db : option float) (output_file : string)
(* ffmpeg -y -i "{source_file}" -i "{audio_file}" -map_metadata 0 -map 1:a -c copy ... "{output_file}" *)
| FfmpegRemux (source_file audio_file output_file : string) (is_compilation : bool)
(* ffmpeg -y -i "{source_flac}" -af "volume={gain_adjustment}dB" -c:a libmp3lame -q:a 0 "{output_mp3}" *)
| FfmpegToMp3 (source_flac : string) (gain_adjustment : float) (output_mp3 : string)
(* rsgain custom --tagmode=i --loudness=-23 --clip-mode=p --max-peak=0 --true-peak --id3v2-version=keep "{file_path}" *)
| RsgainTrack (file_path : string)
(* rsgain custom ... --album {files_str} *)
| RsgainAlbum (file_paths : list string).

(** What the script asked of its collaborators, with the status that came
    back: a call of [separator.separate] ([false] when it raised) or a shell
    command ([false] when [subprocess.run] raised [CalledProcessError]). *)
Inductive Event : Type :=
| EvSeparate (file : string) (ok : bool)
| EvRun (cmd : Cmd) (ok : bool).

(** A printed line: the f-string's text with [{}] for each substituted value,
    and the values.  The text of a caught exception is left out. *)
Inductive Arg : Type :=
| AStr (s : string)
| AFloat (f : float)
| ANat (n : nat).

Record Msg : Type := Say { msg_text : string; msg_args : list Arg }.

(* ===================================================================== *)
(** ** The state and the collaborators *)
(* ===================================================================== *)

(** The state the script acts on: the file system (paths as the script
    spells them), what it printed and what it called, oldest first. *)
Record World : Type := mkWorld {
  fs : gmap string Node;
  printed : list Msg;
  events : list Event
}.

(** The collaborators.  Each may change the file system at will.
    - [separator_separate file]: [separator.separate(file, output_names)];
      the boolean is [false] when it raises.
    - [subprocess_run cmd]: [subprocess.run(cmd, shell=True, check=True, ...)];
      the boolean is [false] when it raises [CalledProcessError], the string
      is the captured standard output.
    - [parse_max_volume output]: [re.search(r'max_volume:\s*([-\d.]+)', output)]
      followed by [float(match.group(1))]; [None] when nothing matches. *)
Class Externals : Type := {
  separator_separate : string -> gmap string Node -> bool * gmap string Node;
  subprocess_run : Cmd -> gmap string Node -> (bool * string) * gmap string Node;
  parse_max_volume : string -> option float
}.

(** A step of the script that returns a value: it takes the state and gives
    the value and the state after it.  Steps that return nothing are
    functions from [World] to [World]; a Python statement sequence is a chain
    of [let] bindings that passes the state along. *)
Definition M (A : Type) : Type := World -> A * World.

Definition set_fs (f : gmap string Node) (w : World) : World :=
  mkWorld f (printed w) (events w).

(** [print(...)] *)
Definition print (text : string) (args : list Arg) (w : World) : World :=
  mkWorld (fs w) (printed w ++ [Say text args]) (events w).

(** [os.path.exists(p)] *)
Definition os_path_exists (p : string) (w : World) : bool :=
  bool_decide (is_Some (fs w !! p)).

(** [os.remove(p)], on a path that exists. *)
Definition os_remove (p : string) (w : World) : World :=
  set_fs (delete p (fs w)) w.

(** A path is [p] itself or lies below it. *)
Definition under (p k : string) : bool :=
  String.eqb k p || PyStr.startswith k (p +:+ "/").

(** [shutil.rmtree(p)], on a directory that exists: [p] and all below it go. *)
Definition shutil_rmtree (p : string) (w : World) : World :=
  set_fs (filter (fun kv => under p kv.1 = false) (fs w)) w.

(** [os.makedirs(p, exist_ok=True)] below a directory that exists. *)
Definition os_makedirs (p : string) (w : World) : World :=
  match fs w !! p with
  | Some _ => w
  | None => set_fs (<[p := Dir]> (fs w)) w
  end.

(** The pattern [f"{d}/*.wav"] on a path [k]: [k] is [d/name] for a [name]
    without [/] that does not start with a dot and ends in [.wav]. *)
Definition matches_wav_pattern (d k : string) : bool :=
  let name := PyStr.drop (S (String.length d)) k in
  PyStr.startswith k (d +:+ "/")
  && negb (PyStr.contains "/" name)
  && negb (PyStr.startswith name ".")
  && PyStr.endswith name ".wav".

(** [glob.has_magic(s)]: the string holds one of the characters that make a
    pattern of a name. *)
Definition has_magic (s : string) : bool :=
  PyStr.contains "*" s || PyStr.contains "?" s || PyStr.contains "[" s.

(** [glob.glob(f"{d}/*.wav")] for a [d] that holds no pattern character, as
    the [separated] of [main]: the entries of directory [d] that match, in
    the order the host lists them.  Empty when [d] is no directory. *)
Definition glob_wav (d : string) (f : gmap string Node) : list string :=
  match f !! d with
  | Some Dir => filter (fun k => matches_wav_pattern d k = true) (map fst (map_to_list f))
  | _ => []
  end.

(** [separator.separate(file, output_names)] inside its [try]. *)
Definition separate {E : Externals} (file : string) : M bool :=
  fun w =>
    let (ok, f) := separator_separate file (fs w) in
    (ok, mkWorld f (printed w) (events w ++ [EvSeparate file ok])).

(** [run_command(cmd, capture_output)] *)
Definition run_command {E : Externals} (cmd : Cmd) (capture_output : bool) : M (bool * option string) :=
  fun w =>
    let '((ok, out), f) := subprocess_run cmd (fs w) in
    let w' := mkWorld f (printed w) (events w ++ [EvRun cmd ok]) in
    if ok then
      if capture_output then ((true, Some out), w') else ((true, None), w')
    else ((false, None), w').

(** Python's truth value of [success and output]. *)
Definition success_and_output (success : bool) (output : option string) : bool :=
  success && match output with
             | Some s => negb (String.eqb s EmptyString)
             | None => false
             end.

(* ===================================================================== *)
(** ** mutagen objects *)
(* ===================================================================== *)

(** A loaded [FLAC] object: the file name it was opened from and its tags and
    pictures in memory.  Nothing reaches the disk before [save()]. *)
Record FLAC : Type := mkFLAC {
  flac_filename : string;
  flac_tags : list (string * string);
  flac_pictures : list Picture
}.

(** [FLAC(path)]; [None] when mutagen raises (no file, or no FLAC). *)
Definition FLAC_open (path : string) (f : gmap string Node) : option FLAC :=
  match f !! path with
  | Some (FlacFile tags pictures) => Some (mkFLAC path tags pictures)
  | _ => None
  end.

(** [audio.save()] *)
Definition FLAC_save (audio : FLAC) (f : gmap string Node) : gmap string Node :=
  <[flac_filename audio := FlacFile (flac_tags audio) (flac_pictures audio)]> f.

(** [audio.clear_pictures()] *)
Definition clear_pictures (audio : FLAC) : FLAC :=
  mkFLAC (flac_filename audio) (flac_tags audio) [].

(** [audio.add_picture(picture)] *)
Definition add_picture (audio : FLAC) (picture : Picture) : FLAC :=
  mkFLAC (flac_filename audio) (flac_tags audio) (flac_pictures audio ++ [picture]).

(** Vorbis comment keys compare without case. *)
Definition same_key (k1 k2 : string) : bool :=
  String.eqb (PyStr.lower k1) (PyStr.lower k2).

(** mutagen's [is_valid_key]: a Vorbis comment key is not empty and holds
    printable ASCII from the space to the closing brace only, and no [=]. *)
Definition is_valid_key (key : string) : bool :=
  negb (String.eqb key EmptyString)
  && forallb (fun c => (32 <=? nat_of_ascii c)%nat && (nat_of_ascii c <=? 125)%nat
                       && negb (Ascii.eqb c "="))
             (list_ascii_of_string key).

(** [tags[key] = value] on Vorbis comments, for a key that is valid: every old
    value of the key goes, the new pair is appended. *)
Definition vc_setitem (key value : string) (tags : list (string * string)) : list (string * string) :=
  filter (fun kv => same_key kv.1 key = false) tags ++ [(key, value)].

(** [tags[key]]: the values of the key, in order; empty where Python raises
    [KeyError], so that [key in tags] is "the list is not empty". *)
Definition vc_getitem (key : string) (tags : list (string * string)) : list string :=
  map snd (filter (fun kv => same_key kv.1 key = true) tags).

(** [audio[key] = value] *)
Definition FLAC_setitem (audio : FLAC) (key value : string) : FLAC :=
  mkFLAC (flac_filename audio) (vc_setitem key value (flac_tags audio)) (flac_pictures audio).

(** A loaded [MP3] object. *)
Record MP3 : Type := mkMP3 {
  mp3_filename : string;
  mp3_tags : option (list Frame)
}.

(** [MP3(path)] *)
Definition MP3_open (path : string) (f : gmap string Node) : option MP3 :=
  match f !! path with
  | Some (Mp3File tags) => Some (mkMP3 path tags)
  | _ => None
  end.

(** [audio.save()] *)
Definition MP3_save (audio : MP3) (f : gmap string Node) : gmap string Node :=
  <[mp3_filename audio := Mp3File (mp3_tags audio)]> f.

(** [if audio.tags is None: audio.add_tags()], giving the frames. *)
Definition tags_or_new (audio : MP3) : list Frame :=
  match mp3_tags audio with
  | Some frames => frames
  | None => []
  end.

(** [frame.HashKey] *)
Definition HashKey (fr : Frame) : string :=
  match fr with
  | TextFrame id _ => id
  | COMM lang desc _ => "COMM:" +:+ desc +:+ ":" +:+ lang
  | TXXX desc _ => "TXXX:" +:+ desc
  | APIC _ _ desc _ => "APIC:" +:+ desc
  end.

(** [tags.add(frame)]: the frame takes the place of the one with its key, or
    goes last. *)
Fixpoint id3_add (fr : Frame) (frames : list Frame) : list Frame :=
  match frames with
  | [] => [fr]
  | g :: rest =>
      if String.eqb (HashKey g) (HashKey fr) then fr :: rest else g :: id3_add fr rest
  end.

(** [tags.getall('APIC')] *)
Definition getall_APIC (frames : list Frame) : list Frame :=
  filter (fun fr => (String.eqb (HashKey fr) "APIC" || PyStr.startswith (HashKey fr) "APIC:") = true)
         frames.

(** [x or default] on strings *)
Definition str_or (x default : string) : string :=
  if String.eqb x EmptyString then default else x.

(* ===================================================================== *)
(** ** The audio engine and loudness adapters *)
(* ===================================================================== *)

Section Script.
Context {E : Externals}.

(** [detect_peak_level] *)
Definition detect_peak_level (wav_dir : string) : M (option float) :=
  fun w =>
  let wav_files :=
    sorted (filter (fun f => PyStr.contains "drums" (PyStr.lower f) = false)
                   (glob_wav wav_dir (fs w))) in
  match wav_files with
  | [] => (None, w)
  | _ =>
      let num_inputs := length wav_files in
      let cmd := FfmpegMixPeak wav_files num_inputs in
      let '((success, output), w) := run_command cmd true w in
      if success_and_output success output then
        match parse_max_volume (default EmptyString output) with
        | Some v => (Some v, w)
        | None => (None, w)
        end
      else (None, w)
  end.

(** [detect_file_peak_level] *)
Definition detect_file_peak_level (file_path : string) : M (option float) :=
  fun w =>
  let cmd := FfmpegFilePeak file_path in
  let '((success, output), w) := run_command cmd true w in
  if success_and_output success output then
    match parse_max_volume (default EmptyString output) with
    | Some v => (Some v, w)
    | None => (None, w)
    end
  else (None, w).

(** [merge_audio_files] *)
Definition merge_audio_files (wav_dir output_file : string) (gain_db : option float) : M bool :=
  fun w =>
  let wav_files :=
    sorted (filter (fun f => PyStr.contains "drums" (PyStr.lower f) = false)
                   (glob_wav wav_dir (fs w))) in
  match wav_files with
  | [] => (false, w)
  | _ =>
      let num_inputs := length wav_files in
      let cmd := FfmpegMerge wav_files num_inputs gain_db output_file in
      let '((success, _), w) := run_command cmd false w in
      (success, w)
  end.

(** [copy_metadata] *)
Definition copy_metadata (source_file audio_file output_file : string) (is_compilation : bool)
  : M bool :=
  fun w =>
  let cmd :=
    if is_compilation
    then FfmpegRemux source_file audio_file output_file true
    else FfmpegRemux source_file audio_file output_file false in
  let '((success, _), w) := run_command cmd false w in
  (success, w).

(** [apply_replaygain_track] *)
Definition apply_replaygain_track (file_path : string) : M unit :=
  fun w =>
  let cmd := RsgainTrack file_path in
  let '(_, w) := run_command cmd false w in
  (tt, w).

(** [apply_replaygain_album] *)
Definition apply_replaygain_album (file_paths : list string) : M unit :=
  fun w =>
  let cmd := RsgainAlbum file_paths in
  let '(_, w) := run_command cmd false w in
  (tt, w).

(* ===================================================================== *)
(** ** The metadata propagator *)
(* ===================================================================== *)

(** [set_flac_tags].  [audio[key] = value] raises [ValueError] at the first key
    that is not valid; what the loop assigned before is in memory only, so the
    file is as it was, as when it could not be opened. *)
Definition set_flac_tags (file_path : string) (tags_dict : list (string * string)) : M bool :=
  fun w =>
  match FLAC_open file_path (fs w) with
  | Some audio =>
      if forallb (fun kv => is_valid_key kv.1) tags_dict then
        let audio := fold_left (fun a kv => FLAC_setitem a kv.1 kv.2) tags_dict audio in
        (true, set_fs (FLAC_save audio (fs w)) w)
      else
        (false, print "Error setting tags on {}: {}" [AStr file_path] w)
  | None =>
      (false, print "Error setting tags on {}: {}" [AStr file_path] w)
  end.

(** The picture the script builds from an [APIC] frame. *)
Definition picture_of_frame (fr : Frame) : list Picture :=
  match fr with
  | APIC mime type desc data =>
      [mkPicture data (str_or mime "application/octet-stream") type (str_or desc EmptyString)]
  | _ => []
  end.

(** The picture the script builds from an entry of a [covr] atom. *)
Definition picture_of_cover (cover : Cover) : Picture :=
  match cover with
  | MP4Cover imageformat data =>
      let mime :=
        match imageformat with
        | FORMAT_JPEG => "image/jpeg"
        | FORMAT_PNG => "image/png"
        | FORMAT_OTHER => "application/octet-stream"
        end in
      mkPicture data mime 3 "Cover"
  | RawCover data => mkPicture data "application/octet-stream" 3 "Cover"
  end.

(** [extract_pictures]: the pictures, and a warning printed when mutagen
    raises. *)
Definition extract_pictures (source_file : string) : M (list Picture) :=
  fun w =>
  let warn := print "Warning: Unable to extract artwork from {}: {}" [AStr source_file] in
  let ext := PyStr.lower (snd (OsPath.splitext source_file)) in
  if String.eqb ext ".flac" then
    match FLAC_open source_file (fs w) with
    | Some audio => (flac_pictures audio, w)
    | None => ([], warn w)
    end
  else if String.eqb ext ".mp3" then
    match fs w !! source_file with
    | Some (Mp3File (Some (fr :: frs))) =>
        (flat_map picture_of_frame (getall_APIC (fr :: frs)), w)
    | Some (Mp3File _) => ([], w)
    | _ => ([], warn w)
    end
  else if bool_decide (ext ∈ ({[ ".m4a"; ".mp4"; ".alac" ]} : gset string)) then
    match fs w !! source_file with
    | Some (Mp4File (Some covr)) => (map picture_of_cover covr, w)
    | Some (Mp4File None) => ([], w)
    | _ => ([], warn w)
    end
  else ([], w).

(** [copy_artwork] *)
Definition copy_artwork (source_file dest_file : string) : M bool :=
  fun w =>
  match FLAC_open dest_file (fs w) with
  | Some dest_audio =>
      (* Clear existing pictures *)
      let dest_audio := clear_pictures dest_audio in
      let '(source_pictures, w) := extract_pictures source_file w in
      (* Copy all pictures from source *)
      match source_pictures with
      | _ :: _ =>
          let dest_audio := fold_left add_picture source_pictures dest_audio in
          (true, set_fs (FLAC_save dest_audio (fs w)) w)
      | [] =>
          (false, print "No artwork found in {}" [AStr source_file] w)
      end
  | None =>
      (false, print "Error copying artwork: {}" [] w)
  end.

(** [normalize_and_convert_to_mp3] *)
Definition normalize_and_convert_to_mp3 (source_flac output_mp3 : string) (target_peak : float)
  : M bool :=
  fun w =>
  let '(peak_level, w) := detect_file_peak_level source_flac w in
  match peak_level with
  | None =>
      (false, print "Error: Could not detect peak level for {}" [AStr source_flac] w)
  | Some peak_level =>
      let gain_adjustment := (target_peak - peak_level)%float in
      let w := print "  Current peak: {:.2f}dB, Target: {:.2f}dB, Adjustment: {:.2f}dB"
                     [AFloat peak_level; AFloat target_peak; AFloat gain_adjustment] w in
      let cmd := FfmpegToMp3 source_flac gain_adjustment output_mp3 in
      let '((success, _), w) := run_command cmd false w in
      (success, w)
  end.

(** The [tag_mapping] of [copy_metadata_flac_to_mp3], and its ReplayGain
    tags. *)
Definition tag_mapping : list (string * string) :=
  [("title", "TIT2"); ("album", "TALB"); ("artist", "TPE1"); ("albumartist", "TPE2");
   ("tracknumber", "TRCK"); ("genre", "TCON"); ("date", "TDRC")].

Definition replaygain_tags : list string :=
  ["replaygain_reference_loudness"; "replaygain_track_gain"; "replaygain_track_peak";
   "replaygain_album_gain"; "replaygain_album_peak"; "replaygain_algorithm"].

(** [if key in flac_audio: frames.add(make(flac_audio[key][0]))] *)
Definition add_if_present (key : string) (make : string -> Frame)
    (flac_tags : list (string * string)) (frames : list Frame) : list Frame :=
  match vc_getitem key flac_tags with
  | value :: _ => id3_add (make value) frames
  | [] => frames
  end.

(** [copy_metadata_flac_to_mp3] *)
Definition copy_metadata_flac_to_mp3 (source_flac dest_mp3 : string) : M bool :=
  fun w =>
  let failed := print "Error copying metadata from {} to {}: {}" [AStr source_flac; AStr dest_mp3] in
  match FLAC_open source_flac (fs w) with
  | None => (false, failed w)
  | Some flac_audio =>
      match MP3_open dest_mp3 (fs w) with
      | None => (false, failed w)
      | Some mp3_audio =>
          let frames := tags_or_new mp3_audio in
          let t := flac_tags flac_audio in
          (* Copy basic tags *)
          let frames :=
            fold_left (fun fr m => add_if_present m.1 (TextFrame m.2) t fr) tag_mapping frames in
          (* Copy comment *)
          let frames := add_if_present "comment" (COMM "eng" EmptyString) t frames in
          (* Copy compilation tag *)
          let frames := add_if_present "compilation" (TXXX "COMPILATION") t frames in
          (* Copy ReplayGain tags *)
          let frames :=
            fold_left (fun fr rg_tag => add_if_present rg_tag (TXXX (PyStr.upper rg_tag)) t fr)
                      replaygain_tags frames in
          (* Copy artwork *)
          let frames :=
            fold_left (fun fr picture =>
                         id3_add (APIC (pic_mime picture) (pic_type picture)
                                       (pic_desc picture) (pic_data picture)) fr)
                      (flac_pictures flac_audio) frames in
          (true, set_fs (MP3_save (mkMP3 (mp3_filename mp3_audio) (Some frames)) (fs w)) w)
      end
  end.

(* ===================================================================== *)
(** ** The normalization sub-pipeline *)
(* ===================================================================== *)

(** One round of the [for flac_file in final_files_list] loop of
    [process_normalization]; the loop carries [mp3_files] and
    [created_normalized_dirs]. *)
Definition normalization_round (flac_file : string) (vars : list string * gset string)
  : M (list string * gset string) :=
  fun w =>
  let '(mp3_files, created_normalized_dirs) := vars in
  if negb (os_path_exists flac_file w) then
    ((mp3_files, created_normalized_dirs),
     print "Warning: {} not found, skipping..." [AStr flac_file] w)
  else
    let source_dir := str_or (OsPath.dirname flac_file) "." in
    let normalized_dir := OsPath.join source_dir "Normalised" in
    let '(created_normalized_dirs, w) :=
      if bool_decide (normalized_dir ∈ created_normalized_dirs)
      then (created_normalized_dirs, w)
      else
        let w := os_makedirs normalized_dir w in
        let w := print "Created '{}' folder" [AStr normalized_dir] w in
        (created_normalized_dirs ∪ {[normalized_dir]}, w) in
    (* Generate output filename *)
    let filename_no_ext := fst (OsPath.splitext (OsPath.basename flac_file)) in
    let mp3_filename := OsPath.join normalized_dir (filename_no_ext +:+ ".mp3") in
    let w := print "\nProcessing: {}" [AStr flac_file] w in
    (* Normalize and convert to MP3 *)
    let '(success, w) := normalize_and_convert_to_mp3 flac_file mp3_filename (-0.1)%float w in
    if negb success then
      ((mp3_files, created_normalized_dirs),
       print "Error: Failed to normalize and convert {}" [AStr flac_file] w)
    else
      (* Copy metadata from FLAC to MP3 *)
      let '(metadata_success, w) := copy_metadata_flac_to_mp3 flac_file mp3_filename w in
      let w :=
        if negb metadata_success
        then print "Warning: Failed to copy metadata for {}" [AStr mp3_filename] w
        else w in
      let mp3_files := mp3_files ++ [mp3_filename] in
      ((mp3_files, created_normalized_dirs),
       print "Successfully created: {}" [AStr mp3_filename] w).

(** The loop itself. *)
Fixpoint normalization_loop (files : list string) (vars : list string * gset string)
  : M (list string * gset string) :=
  fun w =>
  match files with
  | [] => (vars, w)
  | flac_file :: rest =>
      let '(vars, w) := normalization_round flac_file vars w in
      normalization_loop rest vars w
  end.

(** The reference tags of one MP3, inside their [try]. *)
Definition stamp_mp3_reference_tags (mp3_file : string) (w : World) : World :=
  match MP3_open mp3_file (fs w) with
  | Some mp3_audio =>
      let frames := tags_or_new mp3_audio in
      let frames := id3_add (TXXX "REPLAYGAIN_REFERENCE_LOUDNESS" "-23 LUFS") frames in
      let frames := id3_add (TXXX "REPLAYGAIN_ALGORITHM" "ITU-R BS.1770") frames in
      set_fs (MP3_save (mkMP3 (mp3_filename mp3_audio) (Some frames)) (fs w)) w
  | None =>
      print "Warning: Failed to add ReplayGain reference tags to {}: {}" [AStr mp3_file] w
  end.

(** [process_normalization]; the script returns nothing, the embedding hands
    back [mp3_files] so that statements can speak of it. *)
Definition process_normalization (final_files_list : list string) (is_compilation : bool)
  : M (list string) :=
  fun w =>
  let w := print "\n\n=== Starting Normalization Process ===" [] w in
  let '((mp3_files, _), w) := normalization_loop final_files_list ([], ∅) w in
  (* Apply ReplayGain to all MP3 files *)
  let w :=
    match mp3_files with
    | [] => w
    | _ =>
        let w :=
          if is_compilation then
            let w := print "\nApplying ReplayGain (track mode) to {} MP3 files..."
                           [ANat (length mp3_files)] w in
            fold_left (fun w mp3_file => snd (apply_replaygain_track mp3_file w)) mp3_files w
          else
            let w := print "\nApplying ReplayGain (album mode) to {} MP3 files..."
                           [ANat (length mp3_files)] w in
            snd (apply_replaygain_album mp3_files w) in
        let w := print "ReplayGain applied successfully" [] w in
        (* Add the reference tags AFTER rsgain has run *)
        fold_left (fun w mp3_file => stamp_mp3_reference_tags mp3_file w) mp3_files w
    end in
  let w := print "\n=== Normalization Process Complete ===" [] w in
  let w := print "Created {} normalized MP3 files in 'Normalised' subfolders"
                 [ANat (length mp3_files)] w in
  (mp3_files, w).

(* ===================================================================== *)
(** ** The orchestrator *)
(* ===================================================================== *)

(** The [tags_to_set] of the loop of [main]. *)
Definition tags_to_set (demucs_model : string) : list (string * string) :=
  [("COMMENT", "Drumless (Lossless)");
   ("DESCRIPTION", "Stem Separation Model = " +:+ demucs_model);
   ("REPLAYGAIN_REFERENCE_LOUDNESS", "-23 LUFS");
   ("REPLAYGAIN_ALGORITHM", "ITU-R BS.1770")].

(** The [tags_to_set] of the album pass of [main]. *)
Definition album_tags_to_set : list (string * string) :=
  [("REPLAYGAIN_REFERENCE_LOUDNESS", "-23 LUFS");
   ("REPLAYGAIN_ALGORITHM", "ITU-R BS.1770")].

(** One round of the [for file in audio_files] loop of [main].  It carries
    [final_files_list]; every [continue] is a branch that ends the round. *)
Definition main_iteration (demucs_model : string) (is_compilation : bool) (file : string)
    (final_files_list : list string) : M (list string) :=
  fun w =>
  let output_filename := output_filename file in
  let staging_file := staging_file_of file in
  (* Run separation *)
  let w := print "Processing: {}" [AStr file] w in
  let '(success, w) := separate file w in
  if negb success then
    let w := print "\n\n\nError: Failed to execute the separation command for {}: {}\n\n\n"
                   [AStr file] w in
    (* Clean up separated directory if it exists *)
    let w := if os_path_exists wav_dir w then shutil_rmtree wav_dir w else w in
    (final_files_list, w)
  else
  (* Detect peak level *)
  let '(peak_level, w) := detect_peak_level wav_dir w in
  match peak_level with
  | None =>
    let w := print "Error: Could not detect peak level for {}" [AStr file] w in
    (* Clean up separated directory *)
    let w := if os_path_exists wav_dir w then shutil_rmtree wav_dir w else w in
    (final_files_list, w)
  | Some peak_level =>
  (* Determine if gain adjustment is needed *)
  let '(gain_db, w) :=
    if (-0.1 <? peak_level)%float then
      let gain_db := (- (peak_level + 0.1))%float in
      (Some gain_db,
       print "Peak detected at {}dB. Applying {}dB reduction to prevent clipping."
             [AFloat peak_level; AFloat gain_db] w)
    else
      (None, print "Peak at {}dB - no clipping protection needed." [AFloat peak_level] w) in
  (* Merge audio files *)
  let '(merge_success, w) := merge_audio_files wav_dir staging_file gain_db w in
  if negb merge_success then
    let w := print "\n\n\nError: Failed to execute the merge files ffmpeg command for {}.\n\n\n"
                   [AStr file] w in
    (* Clean up staging file if it was partially created *)
    let w := if os_path_exists staging_file w then os_remove staging_file w else w in
    (* Clean up separated directory *)
    let w := if os_path_exists wav_dir w then shutil_rmtree wav_dir w else w in
    (final_files_list, w)
  else
  (* Copy metadata *)
  let '(metadata_success, w) := copy_metadata file staging_file output_filename is_compilation w in
  if negb metadata_success then
    let w := print "Error: Failed to copy metadata for {}" [AStr file] w in
    let w := if os_path_exists staging_file w then os_remove staging_file w else w in
    (* Clean up separated directory *)
    let w := if os_path_exists wav_dir w then shutil_rmtree wav_dir w else w in
    (final_files_list, w)
  else
  (* Apply ReplayGain for compilation tracks *)
  let w := if is_compilation then snd (apply_replaygain_track output_filename w) else w in
  let final_files_list := final_files_list ++ [output_filename] in
  (* Clean up staging file *)
  let w := if os_path_exists staging_file w then os_remove staging_file w else w in
  (* Remove separated wav files *)
  let w := if os_path_exists wav_dir w then shutil_rmtree wav_dir w else w in
  (* Copy artwork from supported sources *)
  let '(_, w) := copy_artwork file output_filename w in
  (* Set additional tags using mutagen *)
  let '(_, w) := set_flac_tags output_filename (tags_to_set demucs_model) w in
  (final_files_list, w)
  end.

(** The loop of [main]. *)
Fixpoint main_loop (demucs_model : string) (is_compilation : bool) (audio_files : list string)
    (final_files_list : list string) : M (list string) :=
  fun w =>
  match audio_files with
  | [] => (final_files_list, w)
  | file :: rest =>
      let '(final_files_list, w) :=
        main_iteration demucs_model is_compilation file final_files_list w in
      main_loop demucs_model is_compilation rest final_files_list w
  end.

(** [main] from the loop to "Main processing complete!": the loop, the album
    pass and the last clean-up of the scratch directory. *)
Definition main_processing (demucs_model : string) (is_compilation : bool)
    (audio_files : list string) : M (list string) :=
  fun w =>
  let '(final_files_list, w) := main_loop demucs_model is_compilation audio_files [] w in
  (* Apply album-mode ReplayGain for non-compilation albums *)
  let w :=
    match final_files_list with
    | _ :: _ =>
        if negb is_compilation then
          let w := snd (apply_replaygain_album final_files_list w) in
          fold_left (fun w album_file => snd (set_flac_tags album_file album_tags_to_set w))
                    final_files_list w
        else w
    | [] => w
    end in
  (* Clean up separated folder *)
  let w := if os_path_exists "separated" w then shutil_rmtree "separated" w else w in
  let w := print "\n\nMain processing complete!" [] w in
  (final_files_list, w).

(** [main], once the dependencies are checked, the model is loaded, the
    questions are answered and [audio_files] is what [find_audio_files] gave.
    It hands back [final_files_list] and the MP3 list. *)
Definition main (demucs_model : string) (is_compilation create_normalized : bool)
    (audio_files : list string) : M (list string * list string) :=
  fun w =>
  match audio_files with
  | [] =>
      (([], []),
       print "No supported audio files found in current directory or subdirectories." [] w)
  | _ =>
      let '(final_files_list, w) := main_processing demucs_model is_compilation audio_files w in
      (* Process normalization if requested *)
      let '(mp3_files, w) :=
        match create_normalized, final_files_list with
        | true, _ :: _ => process_normalization final_files_list is_compilation w
        | _, _ => ([], w)
        end in
      ((final_files_list, mp3_files), print "\n\nAll processing complete!" [] w)
  end.

End Script.

(* ===================================================================== *)
(** ** The questions *)
(* ===================================================================== *)

(** [input(prompt)] shows the prompt on the standard output, where the
    printed lines go, and takes the next line of the standard input; the
    functions below pass on the lines still to come.  At the end of the input
    it raises [EOFError], which the script does not catch: the function then
    gives [None]. *)

(** [response in ['y', 'Y', 'n', 'N']] and [response in ['y', 'Y']] *)
Definition is_yes_or_no (response : string) : bool :=
  bool_decide (response ∈ ["y"; "Y"; "n"; "N"]).

Definition is_yes (response : string) : bool :=
  bool_decide (response ∈ ["y"; "Y"]).

(** The [while True] loop of [get_compilation_input] and of
    [get_normalization_input], which differ in their prompt only. *)
Fixpoint ask_yes_or_no (prompt : string) (stdin : list string) (w : World)
  : option (bool * list string) * World :=
  let w := print prompt [] w in
  match stdin with
  | [] => (None, w)
  | line :: stdin =>
      let response := PyStr.strip line in
      if is_yes_or_no response then (Some (is_yes response, stdin), w)
      else ask_yes_or_no prompt stdin (print "Invalid input. Please enter y/Y or n/N." [] w)
  end.

(** [get_compilation_input] *)
Definition get_compilation_input (stdin : list string) (w : World)
  : option (bool * list string) * World :=
  ask_yes_or_no "Is this a compilation rather than one artist? y/n or Y/N: " stdin w.

(** [get_normalization_input] *)
Definition get_normalization_input (stdin : list string) (w : World)
  : option (bool * list string) * World :=
  ask_yes_or_no
    "\nWould you like a normalised (-0.1dB) version of the output files to a sub folder as MP3s ready for the Roland V71? y/n or Y/N: "
    stdin w.

(** The [while True] loop of [get_model_selection]. *)
Fixpoint model_selection_loop (stdin : list string) (w : World)
  : option (string * list string) * World :=
  let w := print "Enter your choice (1/2/3) or press Enter for default [2]: " [] w in
  match stdin with
  | [] => (None, w)
  | line :: stdin =>
      let response := PyStr.strip line in
      (* Default to option 2 if user just presses Enter *)
      if String.eqb response EmptyString then
        (Some ("BS-Roformer-SW.ckpt", stdin),
         print "Selected: BS-Roformer-SW.ckpt (Default)" [] w)
      else if String.eqb response "1" then
        (Some ("htdemucs_ft.yaml", stdin), print "Selected: htdemucs_ft.yaml" [] w)
      else if String.eqb response "2" then
        (Some ("BS-Roformer-SW.ckpt", stdin), print "Selected: BS-Roformer-SW.ckpt" [] w)
      else if String.eqb response "3" then
        let w := print "Enter custom model name: " [] w in
        match stdin with
        | [] => (None, w)
        | line :: stdin =>
            let custom_model := PyStr.strip line in
            if negb (String.eqb custom_model EmptyString) then
              (Some (custom_model, stdin), print "Selected: {}" [AStr custom_model] w)
            else
              model_selection_loop stdin
                (print "Error: Model name cannot be empty. Please try again." [] w)
        end
      else
        model_selection_loop stdin
          (print "Invalid input. Please enter 1, 2, 3, or press Enter for default." [] w)
  end.

(** [get_model_selection] *)
Definition get_model_selection (stdin : list string) (w : World)
  : option (string * list string) * World :=
  let w := print "\nPlease select stem separation model:" [] w in
  let w := print "  1. htdemucs_ft.yaml" [] w in
  let w := print "  2. BS-Roformer-SW.ckpt (Default)" [] w in
  let w := print "  3. Other (enter custom model name)" [] w in
  let w := print EmptyString [] w in
  model_selection_loop stdin w.

(* ===================================================================== *)
(** ** The script from its first line *)
(* ===================================================================== *)

(** How a call ends: it returns, it leaves the interpreter through
    [sys.exit(code)], or an exception nobody catches ends the run. *)
Inductive Exception : Type := EOFError | SeparatorError.

Inductive Outcome (A : Type) : Type :=
| Returned (a : A)
| Exited (code : Z)
| Raised (e : Exception).

Arguments Returned {A} a.
Arguments Exited {A} code.
Arguments Raised {A} e.

(** What the script finds on the machine it runs on.
    - [shutil_which command]: the truth value of [shutil.which(command)].
    - [import_module name]: [__import__(name)] does not raise [ImportError].
    - [MUTAGEN_AVAILABLE], [AUDIO_SEPARATOR_AVAILABLE]: the two flags the
      imports at the top of the script set.
    - [Separator_init]: [Separator(output_format='WAV', output_dir='./separated')];
      [load_model model]: [separator.load_model(model_filename=model)].  Both
      may change the file system at will; the boolean is [false] when the call
      raises. *)
Record Host : Type := {
  shutil_which : string -> bool;
  import_module : string -> bool;
  MUTAGEN_AVAILABLE : bool;
  AUDIO_SEPARATOR_AVAILABLE : bool;
  Separator_init : gmap string Node -> bool * gmap string Node;
  load_model : string -> gmap string Node -> bool * gmap string Node
}.

(** [os.path.isfile(p)] *)
Definition os_path_isfile (p : string) (w : World) : bool :=
  match fs w !! p with
  | Some Dir => false
  | Some _ => true
  | None => false
  end.

(** [check_dependency] *)
Definition check_dependency (H : Host) (command check_type : string) (w : World)
  : Outcome unit * World :=
  if String.eqb check_type "command" then
    if negb (shutil_which H command)
    then (Exited 1, print "Error: '{}' not found in PATH." [AStr command] w)
    else (Returned tt, w)
  else if String.eqb check_type "file" then
    if negb (os_path_isfile command w)
    then (Exited 1, print "Error: File '{}' does not exist." [AStr command] w)
    else (Returned tt, w)
  else if String.eqb check_type "python_module" then
    if negb (import_module H command)
    then (Exited 1, print "Error: Python module '{}' is not installed." [AStr command] w)
    else (Returned tt, w)
  else (Returned tt, w).

(** [main] from its first line: the dependency checks, the three questions,
    the separator and its model, the discovery, and then the loop and what
    follows it.  [root] is the current directory as [os.walk] lists it when
    the script gets there.  Besides the outcome and the state the function
    gives the lines of the standard input it has not read. *)
Definition main_program {E : Externals} {I : Interpreter} (H : Host) (root : Tree)
    (stdin : list string) (w : World) : Outcome (list string * list string) * list string * World :=
  let w := print "\n\nWelcome to the automated Drumless folder Demuxer extraordinaire!" [] w in
  let w := print "----------------------------------------------------------------\n" [] w in
  (* Check dependencies *)
  let w := print "Checking dependencies..." [] w in
  match check_dependency H "ffmpeg" "command" w with
  | (Exited code, w) => (Exited code, stdin, w)
  | (Raised e, w) => (Raised e, stdin, w)
  | (Returned _, w) =>
  match check_dependency H "rsgain" "command" w with
  | (Exited code, w) => (Exited code, stdin, w)
  | (Raised e, w) => (Raised e, stdin, w)
  | (Returned _, w) =>
  (* Check Python modules with better error messages *)
  if negb (MUTAGEN_AVAILABLE H) then
    let w := print "Error: Python module 'mutagen' is not installed." [] w in
    let w := print "Install it with: pip install mutagen" [] w in
    (Exited 1, stdin, w)
  else if negb (AUDIO_SEPARATOR_AVAILABLE H) then
    let w := print "Error: Python module 'audio-separator' is not installed." [] w in
    let w := print "Install it with: pip install audio-separator" [] w in
    (Exited 1, stdin, w)
  else
  let w := print "All dependencies found!\n" [] w in
  (* Get user's model selection *)
  match get_model_selection stdin w with
  | (None, w) => (Raised EOFError, [], w)
  | (Some (demucs_model, stdin), w) =>
  (* Initialize audio separator *)
  let '(ok, f) := Separator_init H (fs w) in
  let w := set_fs f w in
  if negb ok then (Raised SeparatorError, stdin, w) else
  let '(ok, f) := load_model H demucs_model (fs w) in
  let w := set_fs f w in
  if negb ok then (Raised SeparatorError, stdin, w) else
  (* Ask if compilation *)
  match get_compilation_input stdin w with
  | (None, w) => (Raised EOFError, [], w)
  | (Some (is_compilation, stdin), w) =>
  (* Ask if user wants normalized MP3 versions *)
  match get_normalization_input stdin w with
  | (None, w) => (Raised EOFError, [], w)
  | (Some (create_normalized, stdin), w) =>
  (* Process each supported audio file *)
  let audio_files := find_audio_files root SUPPORTED_INPUT_EXTENSIONS in
  let '(lists, w) := main demucs_model is_compilation create_normalized audio_files w in
  (Returned lists, stdin, w)
  end end end end end.


(* ===================================================================== *)
(** * The vocabulary of the statements *)
(* ===================================================================== *)

(** What happened between two states: the events of the later one past those
    of the earlier one. *)
Definition events_since (w w' : World) : list Event :=
  List.skipn (length (events w)) (events w').

(** What was printed between two states. *)
Definition printed_since (w w' : World) : list Msg :=
  List.skipn (length (printed w)) (printed w').

(** The order [sorted(..., key=key)] sorts by. *)
Definition key_le (key : string -> string) (a b : string) : Prop :=
  String.leb (key a) (key b) = true.

(** The selection in the words of the claim: the [*.wav] entries of the stem
    directory whose names, lowered, do not contain [drums], sorted. *)
Definition qualifying_stems (wav_dir : string) (f : gmap string Node) : list string :=
  sorted (filter (fun name => PyStr.contains "drums" (PyStr.lower name) = false)
                 (glob_wav wav_dir f)).

(** The gain policy in the words of the claim: above -0.1 dB the gain is
    [-(peak + 0.1)], otherwise there is none. *)
Definition clipping_gain (peak_level : float) : option float :=
  if (-0.1 <? peak_level)%float then Some (- (peak_level + 0.1))%float else None.

(** A peak reading of [k] tenths of a decibel, as [float] reads it from the
    one-decimal text ffmpeg prints. *)
Definition tenth (k : nat) : float :=
  (PrimFloat.of_uint63 (Uint63.of_Z (Z.of_nat k)) / 10)%float.

(** How far [p + gain] lies from [-0.1]; the subtraction is exact, the two
    being within a factor of two of each other. *)
Definition gain_error (p : float) : float :=
  match clipping_gain p with
  | Some gain => PrimFloat.abs ((p + gain) + 0.1)%float
  | None => 0%float
  end.

(** An event that is no merge command. *)
Definition not_a_merge (e : Event) : Prop :=
  match e with
  | EvRun (FfmpegMerge _ _ _ _) _ => False
  | _ => True
  end.

(** The keys of the tag block, compared as Vorbis comments compare keys. *)
Definition is_stamped_key (key : string) : bool :=
  existsb (same_key key)
          ["COMMENT"; "DESCRIPTION"; "REPLAYGAIN_REFERENCE_LOUDNESS"; "REPLAYGAIN_ALGORITHM"].

(** The MP3 path [process_normalization] derives from a final output. *)
Definition mp3_filename_of (flac_file : string) : string :=
  OsPath.join (OsPath.join (str_or (OsPath.dirname flac_file) ".") "Normalised")
              (fst (OsPath.splitext (OsPath.basename flac_file)) +:+ ".mp3").

(** The line that reports a failed metadata copy. *)
Definition metadata_warning (mp3_filename : string) : Msg :=
  Say "Warning: Failed to copy metadata for {}" [AStr mp3_filename].

(** The commands of the loudness adapter. *)
Definition is_rsgain (cmd : Cmd) : bool :=
  match cmd with
  | RsgainTrack _ | RsgainAlbum _ => true
  | _ => false
  end.

(** The same collaborators, except that every rsgain command reports the
    status [status] chooses; what rsgain does to the files is unchanged. *)
Definition with_rsgain_status (status : Cmd -> gmap string Node -> bool) (E : Externals)
  : Externals := {|
  separator_separate := separator_separate;
  subprocess_run cmd f :=
    match cmd with
    | RsgainTrack _ | RsgainAlbum _ =>
        let '((_, out), f') := subprocess_run cmd f in ((status cmd f, out), f')
    | _ => subprocess_run cmd f
    end;
  parse_max_volume := parse_max_volume
|}.

(** An event without the status of an rsgain command. *)
Definition forget_rsgain_status (e : Event) : Event :=
  match e with
  | EvRun (RsgainTrack p) _ => EvRun (RsgainTrack p) true
  | EvRun (RsgainAlbum ps) _ => EvRun (RsgainAlbum ps) true
  | _ => e
  end.

(** Two states with the same files, the same printed lines and the same
    calls, up to the status of the rsgain commands. *)
Definition alike (w1 w2 : World) : Prop :=
  fs w1 = fs w2 /\ printed w1 = printed w2
  /\ map forget_rsgain_status (events w1) = map forget_rsgain_status (events w2).

(** Two steps that give the same value and lead to states alike, from states
    alike. *)
Definition in_step {A : Type} (c1 c2 : M A) : Prop :=
  forall w1 w2, alike w1 w2 -> fst (c1 w1) = fst (c2 w2) /\ alike (snd (c1 w1)) (snd (c2 w2)).

(** The same for steps that return nothing. *)
Definition in_step_quiet (c1 c2 : World -> World) : Prop :=
  forall w1 w2, alike w1 w2 -> alike (c1 w1) (c2 w2).

(** The folder [process_normalization] puts the MP3 of a final output in. *)
Definition normalized_dir_of (flac_file : string) : string :=
  OsPath.join (str_or (OsPath.dirname flac_file) ".") "Normalised".

(** The log of calls grew from one state to the other, by events that all
    satisfy [P]. *)
Definition log_grows (P : Event -> Prop) (w w' : World) : Prop :=
  exists new, events w' = events w ++ new /\ Forall P new.

(** What a run in compilation mode, or in album mode, may ask of rsgain:
    track commands in the one, album commands in the other. *)
Definition mode_allows (is_compilation : bool) (e : Event) : Prop :=
  match e with
  | EvRun (RsgainTrack _) _ => is_compilation = true
  | EvRun (RsgainAlbum _) _ => is_compilation = false
  | _ => True
  end.

(** An event of the MP3 pass: measuring one file or transcoding it. *)
Definition is_mp3_work (e : Event) : Prop :=
  match e with
  | EvRun (FfmpegFilePeak _) _ | EvRun (FfmpegToMp3 _ _ _) _ => True
  | _ => False
  end.

(** What a run may ask of its collaborators, given the two answers: rsgain in
    the mode of the run, and the MP3 pass only when it was asked for. *)
Definition run_allows (is_compilation create_normalized : bool) (e : Event) : Prop :=
  mode_allows is_compilation e /\ (is_mp3_work e -> create_normalized = true).

(** The paths the script itself writes or removes for a track, as it spells
    them: the scratch directory and what is below it, the staging file, the
    output, and the folder and the file of the MP3. *)
Definition script_spells (file q : string) : Prop :=
  under wav_dir q = true
  \/ q = staging_file_of file
  \/ q = output_filename file
  \/ q = normalized_dir_of (output_filename file)
  \/ q = mp3_filename_of (output_filename file).

(** A path written the one way a file below the current directory is written
    when [os.path.relpath] names it from there, as discovery does: relative,
    normalised, and not climbing out of the directory.  Two such paths that
    differ name different files. *)
Definition canonical (p : string) : bool :=
  String.eqb (OsPath.normpath p) p
  && negb (PyStr.startswith p "/")
  && negb (String.eqb p "..")
  && negb (PyStr.startswith p "../").

(** The same paths as files: [q], in its canonical spelling, is what one of
    the spellings of the script names ([./staging.flac] names
    [staging.flac]). *)
Definition script_target (file q : string) : Prop :=
  under wav_dir q = true
  \/ q = OsPath.normpath (staging_file_of file)
  \/ q = OsPath.normpath (output_filename file)
  \/ q = OsPath.normpath (normalized_dir_of (output_filename file))
  \/ q = OsPath.normpath (mp3_filename_of (output_filename file)).

(** The collaborators leave a path alone: whatever they are asked, what lies
    at the path after the call is what lay there before. *)
Definition leaves_alone (E : Externals) (q : string) : Prop :=
  (forall file f, snd (separator_separate file f) !! q = f !! q)
  /\ (forall cmd f, snd (subprocess_run cmd f) !! q = f !! q).

(** A value that an ID3 text frame holds as it is given: not empty, and
    without the NUL character, which separates the values of a frame. *)
Definition plain_text (value : string) : bool :=
  negb (String.eqb value EmptyString)
  && negb (PyStr.contains (String "000"%char EmptyString) value).

(** A text frame without text. *)
Definition blank (fr : Frame) : bool :=
  match fr with
  | TextFrame _ text | COMM _ _ text | TXXX _ text => String.eqb text EmptyString
  | APIC _ _ _ _ => false
  end.

(** The gain [normalize_and_convert_to_mp3] hands to ffmpeg for the target
    of -0.1 dB that [process_normalization] sets, and what is asked of it:
    the sign a boost or a cut has, and a sum with the peak that is the target
    up to rounding. *)
Definition mp3_gain (peak_level : float) : float := (-0.1 - peak_level)%float.

Definition mp3_gain_sound (peak_level : float) : bool :=
  (if (peak_level <? -0.1)%float then (0 <? mp3_gain peak_level)%float
   else if (-0.1 <? peak_level)%float then (mp3_gain peak_level <? 0)%float
   else (mp3_gain peak_level =? 0)%float)
  && (PrimFloat.abs ((peak_level + mp3_gain peak_level) + 0.1) <=? 1e-13)%float.

(** The keys of a tag dictionary, and whether a Vorbis comment key is one of
    them. *)
Definition is_key_of (tags_dict : list (string * string)) (key : string) : bool :=
  existsb (same_key key) (map fst tags_dict).

(** The frame [copy_metadata_flac_to_mp3] makes of a FLAC picture. *)
Definition APIC_of (picture : Picture) : Frame :=
  APIC (pic_mime picture) (pic_type picture) (pic_desc picture) (pic_data picture).

(* ===================================================================== *)
(** * Scripted collaborators *)
(* ===================================================================== *)

(** A collaborator set that follows a script, for running the embedding on
    concrete folders.  The separator writes a vocal and a drum stem, or raises
    and writes nothing; ffmpeg measures a fixed reading, writes its output
    file (also when it fails, as a partial file) and reports the scripted
    status; rsgain touches nothing and reports the scripted status. *)
Record Script : Type := mkScript {
  separation_ok : bool;
  peak_reading : string;
  merge_ok : bool;
  remux_ok : bool;
  to_mp3_ok : bool;
  rsgain_ok : bool
}.

Definition scripted (s : Script) : Externals := {|
  separator_separate file f :=
    if separation_ok s
    then (true, <["separated/vocals.wav" := OtherFile]>
                  (<["separated/drums.wav" := OtherFile]> (<["separated" := Dir]> f)))
    else (false, f);
  subprocess_run cmd f :=
    match cmd with
    | FfmpegMixPeak _ _ => ((true, peak_reading s), f)
    | FfmpegFilePeak _ => ((true, peak_reading s), f)
    | FfmpegMerge _ _ _ out => ((merge_ok s, EmptyString), <[out := OtherFile]> f)
    | FfmpegRemux _ _ out _ =>
        ((remux_ok s, EmptyString), if remux_ok s then <[out := FlacFile [] []]> f else f)
    | FfmpegToMp3 _ _ out =>
        ((to_mp3_ok s, EmptyString), if to_mp3_ok s then <[out := Mp3File None]> f else f)
    | RsgainTrack _ => ((rsgain_ok s, EmptyString), f)
    | RsgainAlbum _ => ((rsgain_ok s, EmptyString), f)
    end;
  parse_max_volume output :=
    if String.eqb output "max_volume: 0.3 dB" then Some 0.3%float
    else if String.eqb output "max_volume: -6.0 dB" then Some (-6)%float
    else None
|}.

(** Every collaborator succeeds and the mix peaks at 0.3 dB. *)
Definition all_well : Script := mkScript true "max_volume: 0.3 dB" true true true true.

(** The separator raises. *)
Definition separator_raises : Script := mkScript false "max_volume: 0.3 dB" true true true true.

(** A folder with one album of two tracks, the first with a cover. *)
Definition album_folder : gmap string Node :=
  <["a" := Dir]>
  (<["a/x.flac" := FlacFile [("TITLE", "X")] [mkPicture "jpegdata" "image/jpeg" 3 "front"]]>
  (<["a/y.wav" := OtherFile]> ∅)).

(** The same folder after an interrupted run: the staging file is still there. *)
Definition interrupted_folder : gmap string Node :=
  <["a/staging.flac" := OtherFile]> album_folder.

(** An interpreter whose database holds the cased letters of ASCII and of
    Latin-1 and no others.  In the UTF-8 form of a string the capital letters
    U+00C0 to U+00DE are the byte 0xC3 followed by a byte from 0x80 to 0x9E
    other than 0x97, the multiplication sign; the small letter is 0x20
    further. *)
Fixpoint lower_latin1 (after_c3 : bool) (s : string) : string :=
  match s with
  | EmptyString => EmptyString
  | String a r =>
      let n := nat_of_ascii a in
      String (if (after_c3 && (128 <=? n) && (n <=? 158) && negb (n =? 151))%nat
              then ascii_of_nat (n + 32) else PyStr.lower_ascii a)
             (lower_latin1 (n =? 195)%nat r)
  end.

Definition latin1 : Interpreter := {| do_lower := lower_latin1 false |}.

(** A folder after a first run, as [os.walk] lists it: outputs next to the
    sources, a [Normalised] folder, a forgotten scratch folder. *)
Definition processed_tree : Tree :=
  Folder [("Normalised", Folder [] ["b - Drumless.mp3"]);
          ("Album", Folder [("SEPARATED", Folder [] ["vocals.wav"]);
                            ("normalised-old", Folder [] ["x.mp3"])]
                           ["02 b.FLAC"; "01 a.wav"; "cover.jpg"; ".flac"]);
          ("separated", Folder [] ["drums.wav"])]
         ["Zed.mp3"; "a - Drumless.flac"].

(** The state at the start of a run: nothing printed, nothing called. *)
Definition start (f : gmap string Node) : World := mkWorld f [] [].

(** The same collaborators with one path out of their reach: after each call
    the path holds what it held before. *)
Definition protecting (q : string) (E : Externals) : Externals := {|
  separator_separate file f :=
    let '(ok, f') := separator_separate file f in (ok, partial_alter (fun _ => f !! q) q f');
  subprocess_run cmd f :=
    let '(r, f') := subprocess_run cmd f in (r, partial_alter (fun _ => f !! q) q f');
  parse_max_volume := parse_max_volume
|}.

(** A machine with everything installed, where the separator starts and
    loads any model; and one without rsgain. *)
Definition ready_host : Host := {|
  shutil_which _ := true;
  import_module _ := true;
  MUTAGEN_AVAILABLE := true;
  AUDIO_SEPARATOR_AVAILABLE := true;
  Separator_init f := (true, f);
  load_model _ f := (true, f)
|}.

Definition host_without_rsgain : Host := {|
  shutil_which command := negb (String.eqb command "rsgain");
  import_module _ := true;
  MUTAGEN_AVAILABLE := true;
  AUDIO_SEPARATOR_AVAILABLE := true;
  Separator_init f := (true, f);
  load_model _ f := (true, f)
|}.

(* ===================================================================== *)
(** * Properties *)
(* ===================================================================== *)

(** ** Strings and paths *)

Section StringFacts.
Import PyStr.

Lemma append_cons (a : ascii) (s t : string) : String a s +:+ t = String a (s +:+ t).
Proof. reflexivity. Qed.

Lemma append_nil_l (t : string) : EmptyString +:+ t = t.
Proof. reflexivity. Qed.

Lemma append_nil_r (s : string) : s +:+ EmptyString = s.
Proof.
  induction s as [|a s IH]; [reflexivity |].
  now rewrite append_cons, IH.
Qed.

Lemma append_assoc (s t u : string) : (s +:+ t) +:+ u = s +:+ (t +:+ u).
Proof.
  induction s as [|a s IH]; [reflexivity |].
  now rewrite !append_cons, IH.
Qed.

Lemma length_append (s t : string) :
  String.length (s +:+ t) = (String.length s + String.length t)%nat.
Proof.
  induction s as [|a s IH]; [reflexivity |].
  rewrite append_cons. simpl. now rewrite IH.
Qed.

Lemma rfind_range (c : ascii) (s : string) :
  -1 <= rfind c s < Z.of_nat (String.length s).
Proof.
  induction s as [|a s IH]; simpl; [lia |].
  destruct (0 <=? rfind c s) eqn:Hpos.
  - apply Z.leb_le in Hpos. lia.
  - destruct (Ascii.eqb a c); lia.
Qed.

(** A needle that does not occur in the tail is found where the head has it. *)
Lemma rfind_app_absent (c : ascii) (s t : string) :
  rfind c t = -1 -> rfind c (s +:+ t) = rfind c s.
Proof.
  intros Ht. induction s as [|a s IH].
  - rewrite append_nil_l. exact Ht.
  - rewrite append_cons. simpl. now rewrite IH.
Qed.

(** The last occurrence of the needle is the one followed by none. *)
Lemma rfind_app_here (c : ascii) (s t : string) :
  rfind c t = -1 -> rfind c (s +:+ String c t) = Z.of_nat (String.length s).
Proof.
  intros Ht. induction s as [|a s IH].
  - rewrite append_nil_l. simpl. rewrite Ht. simpl. now rewrite Ascii.eqb_refl.
  - rewrite append_cons. cbn [rfind String.length]. rewrite IH.
    destruct (0 <=? Z.of_nat (String.length s)) eqn:Hpos; [lia |].
    apply Z.leb_gt in Hpos. lia.
Qed.

Lemma take_app_length (s t : string) : take (String.length s) (s +:+ t) = s.
Proof.
  induction s as [|a s IH]; [reflexivity |].
  rewrite append_cons. simpl. now rewrite IH.
Qed.

Lemma drop_app_length (s t : string) : drop (String.length s) (s +:+ t) = t.
Proof.
  induction s as [|a s IH]; [now destruct t |].
  rewrite append_cons. simpl. exact IH.
Qed.

Lemma drop_app_le (n : nat) (s t : string) :
  (n <= String.length s)%nat -> drop n (s +:+ t) = drop n s +:+ t.
Proof.
  revert s. induction n as [|n IH]; intros s Hn.
  - now destruct s; destruct t.
  - destruct s as [|a s]; simpl in Hn; [lia |].
    rewrite append_cons. simpl. apply IH. lia.
Qed.

Lemma length_drop (n : nat) (s : string) :
  String.length (drop n s) = (String.length s - n)%nat.
Proof.
  revert s. induction n as [|n IH]; intros s.
  - destruct s; simpl; lia.
  - destruct s as [|a s]; simpl; [reflexivity | apply IH].
Qed.

(** Slicing off what precedes the extension leaves the head untouched. *)
Lemma slice_app_head (s t : string) (a : Z) :
  0 <= a <= Z.of_nat (String.length s) ->
  slice (s +:+ t) a (Z.of_nat (String.length s)) = drop (Z.to_nat a) s.
Proof.
  intros Ha. unfold slice.
  rewrite drop_app_le by lia.
  replace (Z.to_nat (Z.of_nat (String.length s) - a))
    with (String.length (drop (Z.to_nat a) s)) by (rewrite length_drop; lia).
  apply take_app_length.
Qed.

(** [os.path.splitext] on a name that is a stem, a dot and an extension. *)
Lemma splitext_stem_ext (stem ext : string) :
  rfind "." ext = -1 ->
  rfind "/" ext = -1 ->
  all_char "." (OsPath.basename stem) = false ->
  OsPath.splitext (stem +:+ "." +:+ ext) = (stem, "." +:+ ext).
Proof.
  intros Hdot Hsep Hname. unfold OsPath.splitext.
  change ("." +:+ ext) with (String "." ext).
  rewrite (rfind_app_here "." stem ext Hdot).
  assert (Hs : rfind "/" (stem +:+ String "." ext) = rfind "/" stem).
  { apply rfind_app_absent. simpl. rewrite Hsep. reflexivity. }
  rewrite Hs.
  pose proof (rfind_range "/" stem) as Hr.
  destruct (rfind "/" stem <? Z.of_nat (String.length stem)) eqn:Hlt;
    [| apply Z.ltb_ge in Hlt; lia].
  rewrite slice_app_head by lia.
  unfold OsPath.basename in Hname. rewrite Hname.
  rewrite Nat2Z.id, take_app_length, drop_app_length. reflexivity.
Qed.

End StringFacts.

Example splitext_plain : OsPath.splitext "B.wav" = ("B", ".wav").
Proof. reflexivity. Qed.
Example splitext_nested : OsPath.splitext "a.d/b" = ("a.d/b", "").
Proof. reflexivity. Qed.
Example splitext_hidden : OsPath.splitext "x/.flac" = ("x/.flac", "").
Proof. reflexivity. Qed.
Example splitext_two_dots : OsPath.splitext "x/..a.tar.gz" = ("x/..a.tar", ".gz").
Proof. reflexivity. Qed.
Example dirname_nested : OsPath.dirname "a/b/c.flac" = "a/b".
Proof. reflexivity. Qed.
Example dirname_flat : OsPath.dirname "c.flac" = "".
Proof. reflexivity. Qed.
Example staging_nested : staging_file_of "a/b/c.flac" = "a/b/staging.flac".
Proof. reflexivity. Qed.
Example staging_flat : staging_file_of "c.flac" = "./staging.flac".
Proof. reflexivity. Qed.
Example output_flat : output_filename "A.flac" = "A - Drumless.flac".
Proof. reflexivity. Qed.

(** ** The name of the final output (claim C2) *)

(** C2, as the claim has it, fails on a Track that is no FLAC file: the output
    of [B.wav] is [B - Drumless.flac], and not [B - Drumless.wav]. *)
Lemma output_name_keeps_no_container :
  OsPath.splitext "B.wav" = ("B", ".wav")
  /\ output_filename "B.wav" = "B - Drumless.flac"
  /\ output_filename "B.wav" <> "B - Drumless." +:+ "wav".
Proof.
  split; [reflexivity |]. split; [reflexivity |].
  vm_compute. intros Heq. discriminate Heq.
Qed.

(** C2, amended: for a Track named stem, dot, extension, the final output is
    named stem followed by [ - Drumless.flac], whatever the extension; that
    is the name with the Track's own extension only when the extension is
    [flac], spelled so. *)
Theorem output_name_is_stem_drumless_flac (stem ext : string) :
  PyStr.rfind "." ext = -1 ->
  PyStr.rfind "/" ext = -1 ->
  PyStr.all_char "." (OsPath.basename stem) = false ->
  output_filename (stem +:+ "." +:+ ext) = stem +:+ " - Drumless.flac"
  /\ (output_filename (stem +:+ "." +:+ ext) = stem +:+ " - Drumless." +:+ ext
      <-> ext = "flac").
Proof.
  intros Hdot Hsep Hname.
  assert (Hout : output_filename (stem +:+ "." +:+ ext) = stem +:+ " - Drumless.flac").
  { unfold output_filename. now rewrite splitext_stem_ext. }
  split; [exact Hout |].
  rewrite Hout. split.
  - intros Heq. apply String.app_inj in Heq.
    change (" - Drumless.flac") with (" - Drumless." +:+ "flac") in Heq.
    apply String.app_inj in Heq. now symmetry.
  - intros ->. reflexivity.
Qed.

(** The name of the output of an MPEG-4 track. *)
Lemma output_name_is_stem_drumless_flac_witness :
  output_filename ("Album/01 Song" +:+ "." +:+ "m4a") = "Album/01 Song" +:+ " - Drumless.flac"
  /\ (output_filename ("Album/01 Song" +:+ "." +:+ "m4a")
      = "Album/01 Song" +:+ " - Drumless." +:+ "m4a" <-> "m4a" = "flac").
Proof.
  apply (output_name_is_stem_drumless_flac "Album/01 Song" "m4a"); reflexivity.
Defined.

(* ===================================================================== *)
(** ** The file system operations *)
(* ===================================================================== *)

Lemma events_since_app (w w' : World) (new : list Event) :
  events w' = events w ++ new -> events_since w w' = new.
Proof.
  intros Hev. unfold events_since. rewrite Hev.
  rewrite List.skipn_app, List.skipn_all, Nat.sub_diag. reflexivity.
Qed.

Section FileSystemFacts.

Lemma under_self (p : string) : under p p = true.
Proof. unfold under. now rewrite String.eqb_refl. Qed.

(** After [if os.path.exists(p): shutil.rmtree(p)] the path is gone. *)
Lemma rmtree_if_exists_gone (p : string) (w : World) :
  fs (if os_path_exists p w then shutil_rmtree p w else w) !! p = None.
Proof.
  unfold os_path_exists. case_bool_decide as Hex.
  - simpl. apply map_lookup_filter_None. right.
    intros x _. simpl. rewrite under_self. discriminate.
  - destruct (fs w !! p) eqn:Hp; [| reflexivity].
    exfalso. apply Hex. eauto.
Qed.

(** Removing a tree creates nothing. *)
Lemma rmtree_if_exists_keeps_absent (p q : string) (w : World) :
  fs w !! q = None ->
  fs (if os_path_exists p w then shutil_rmtree p w else w) !! q = None.
Proof.
  intros Hq. destruct (os_path_exists p w); [| exact Hq].
  simpl. apply map_lookup_filter_None. now left.
Qed.

(** After [if os.path.exists(p): os.remove(p)] the path is gone. *)
Lemma remove_if_exists_gone (p : string) (w : World) :
  fs (if os_path_exists p w then os_remove p w else w) !! p = None.
Proof.
  unfold os_path_exists. case_bool_decide as Hex.
  - simpl. apply lookup_delete_eq.
  - destruct (fs w !! p) eqn:Hp; [| reflexivity].
    exfalso. apply Hex. eauto.
Qed.

Lemma remove_if_exists_keeps_absent (p q : string) (w : World) :
  fs w !! q = None ->
  fs (if os_path_exists p w then os_remove p w else w) !! q = None.
Proof.
  intros Hq. destruct (os_path_exists p w); [| exact Hq].
  simpl. destruct (decide (p = q)) as [->|Hne].
  - apply lookup_delete_eq.
  - now rewrite lookup_delete_ne.
Qed.

Lemma rmtree_if_exists_log (p : string) (w : World) :
  printed (if os_path_exists p w then shutil_rmtree p w else w) = printed w
  /\ events (if os_path_exists p w then shutil_rmtree p w else w) = events w.
Proof. destruct (os_path_exists p w); split; reflexivity. Qed.

Lemma remove_if_exists_log (p : string) (w : World) :
  printed (if os_path_exists p w then os_remove p w else w) = printed w
  /\ events (if os_path_exists p w then os_remove p w else w) = events w.
Proof. destruct (os_path_exists p w); split; reflexivity. Qed.

(** mutagen writes only where a FLAC file already is. *)
Lemma FLAC_open_filename (path : string) (f : gmap string Node) (audio : FLAC) :
  FLAC_open path f = Some audio ->
  flac_filename audio = path
  /\ f !! path = Some (FlacFile (flac_tags audio) (flac_pictures audio)).
Proof.
  unfold FLAC_open. intros Hopen.
  destruct (f !! path) as [[| tags pics | | |]|] eqn:Hp; try discriminate.
  injection Hopen as <-. simpl. split; reflexivity.
Qed.

Lemma fold_setitem_filename (tags_dict : list (string * string)) (audio : FLAC) :
  flac_filename (fold_left (fun a kv => FLAC_setitem a kv.1 kv.2) tags_dict audio)
  = flac_filename audio.
Proof.
  revert audio. induction tags_dict as [|kv rest IH]; intros audio; simpl; [reflexivity |].
  now rewrite IH.
Qed.

Lemma fold_add_picture_filename (pics : list Picture) (audio : FLAC) :
  flac_filename (fold_left add_picture pics audio) = flac_filename audio.
Proof.
  revert audio. induction pics as [|p rest IH]; intros audio; simpl; [reflexivity |].
  now rewrite IH.
Qed.

Lemma set_flac_tags_keeps_absent (p q : string) (t : list (string * string)) (w : World) :
  fs w !! q = None -> fs (snd (set_flac_tags p t w)) !! q = None.
Proof.
  intros Hq. unfold set_flac_tags.
  destruct (FLAC_open p (fs w)) as [audio|] eqn:Hopen; simpl; [| exact Hq].
  destruct (forallb _ t); simpl; [| exact Hq].
  apply FLAC_open_filename in Hopen as [Hname Hp].
  unfold FLAC_save. rewrite fold_setitem_filename, Hname.
  rewrite lookup_insert_ne; [exact Hq |]. intros ->. congruence.
Qed.

Lemma set_flac_tags_log (p : string) (t : list (string * string)) (w : World) :
  events (snd (set_flac_tags p t w)) = events w.
Proof.
  unfold set_flac_tags. destruct (FLAC_open p (fs w)); [destruct (forallb _ t) |]; reflexivity.
Qed.

Lemma extract_pictures_fs (source : string) (w : World) :
  fs (snd (extract_pictures source w)) = fs w
  /\ events (snd (extract_pictures source w)) = events w.
Proof.
  unfold extract_pictures.
  repeat match goal with
         | |- context [if ?b then _ else _] => destruct b
         | |- context [match ?x with _ => _ end] => destruct x
         end; split; reflexivity.
Qed.

Lemma copy_artwork_keeps_absent (src dst q : string) (w : World) :
  fs w !! q = None -> fs (snd (copy_artwork src dst w)) !! q = None.
Proof.
  intros Hq. unfold copy_artwork.
  destruct (FLAC_open dst (fs w)) as [audio|] eqn:Hopen; simpl; [| exact Hq].
  apply FLAC_open_filename in Hopen as [Hname Hp].
  pose proof (extract_pictures_fs src w) as [Hfs _].
  destruct (extract_pictures src w) as [pics w1]. simpl in Hfs.
  destruct pics as [|pic pics]; simpl; [now rewrite Hfs |].
  unfold FLAC_save. rewrite fold_add_picture_filename. simpl. rewrite Hname, Hfs.
  rewrite lookup_insert_ne; [exact Hq |]. intros ->. congruence.
Qed.

Lemma copy_artwork_log (src dst : string) (w : World) :
  events (snd (copy_artwork src dst w)) = events w.
Proof.
  unfold copy_artwork.
  destruct (FLAC_open dst (fs w)) as [audio|]; simpl; [| reflexivity].
  pose proof (extract_pictures_fs src w) as [_ Hev].
  destruct (extract_pictures src w) as [pics w1]. simpl in Hev.
  destruct pics; simpl; exact Hev.
Qed.

End FileSystemFacts.

(* ===================================================================== *)
(** ** sorted() sorts *)
(* ===================================================================== *)

Section SortedFacts.
Variable key : string -> string.

Lemma insert_by_perm (x : string) (l : list string) :
  Permutation (insert_by key x l) (x :: l).
Proof.
  induction l as [|y r IH]; simpl; [reflexivity |].
  destruct (String.leb (key x) (key y)); [reflexivity |].
  rewrite IH. apply perm_swap.
Qed.

Lemma sorted_by_perm (l : list string) : Permutation (sorted_by key l) l.
Proof.
  induction l as [|x r IH]; simpl; [reflexivity |].
  rewrite insert_by_perm. now apply perm_skip.
Qed.

Lemma key_le_total (a b : string) : String.leb (key a) (key b) = false -> key_le key b a.
Proof.
  intros Hab. unfold key_le.
  destruct (String.leb_total (key a) (key b)) as [Hle|Hle]; congruence.
Qed.

Lemma insert_by_hdrel (a x : string) (l : list string) :
  key_le key a x -> HdRel (key_le key) a l -> HdRel (key_le key) a (insert_by key x l).
Proof.
  intros Hax Hal. destruct l as [|y r]; simpl; [now constructor |].
  destruct (String.leb (key x) (key y)); constructor; [exact Hax |].
  now inversion Hal.
Qed.

Lemma insert_by_sorted (x : string) (l : list string) :
  Sorted (key_le key) l -> Sorted (key_le key) (insert_by key x l).
Proof.
  induction 1 as [|y r Hr IH Hhd]; simpl; [repeat constructor |].
  destruct (String.leb (key x) (key y)) eqn:Hxy.
  - constructor; [now constructor | now constructor].
  - constructor; [exact IH |].
    apply insert_by_hdrel; [now apply key_le_total | exact Hhd].
Qed.

Lemma sorted_by_sorted (l : list string) : Sorted (key_le key) (sorted_by key l).
Proof.
  induction l as [|x r IH]; simpl; [constructor | now apply insert_by_sorted].
Qed.

Lemma sorted_by_In (l : list string) (x : string) : In x (sorted_by key l) <-> In x l.
Proof.
  split; apply Permutation_in; [| symmetry]; apply sorted_by_perm.
Qed.

Lemma sorted_by_nil (l : list string) : sorted_by key l = [] <-> l = [].
Proof.
  split; intros Hl.
  - pose proof (sorted_by_perm l) as Hp. rewrite Hl in Hp.
    now apply Permutation_nil in Hp.
  - now subst.
Qed.

End SortedFacts.

(* ===================================================================== *)
(** ** The adapters, call by call *)
(* ===================================================================== *)

Section AdapterFacts.
Context {E : Externals}.

Lemma separate_inv (file : string) (w w' : World) (ok : bool) :
  separate file w = (ok, w') ->
  printed w' = printed w /\ events w' = events w ++ [EvSeparate file ok]
  /\ (ok, fs w') = separator_separate file (fs w).
Proof.
  unfold separate. destruct (separator_separate file (fs w)) as [ok1 f1].
  intros Heq. injection Heq as <- <-. simpl. auto.
Qed.

Lemma run_command_inv (cmd : Cmd) (capture : bool) (w w' : World) (ok : bool)
    (out : option string) :
  run_command cmd capture w = ((ok, out), w') ->
  printed w' = printed w /\ events w' = events w ++ [EvRun cmd ok]
  /\ fs w' = snd (subprocess_run cmd (fs w))
  /\ ok = fst (fst (subprocess_run cmd (fs w))).
Proof.
  unfold run_command. destruct (subprocess_run cmd (fs w)) as [[ok1 out1] f1].
  destruct ok1; [destruct capture |]; intros Heq; injection Heq as <- <- <-; simpl; auto.
Qed.

(** [detect_peak_level] either finds no stem and does nothing, or runs one
    mix-and-measure command over the qualifying stems. *)
Lemma detect_peak_level_inv (d : string) (w w' : World) (r : option float) :
  detect_peak_level d w = (r, w') ->
  (qualifying_stems d (fs w) = [] /\ r = None /\ w' = w)
  \/ (qualifying_stems d (fs w) <> []
      /\ printed w' = printed w
      /\ fs w' = snd (subprocess_run
                        (FfmpegMixPeak (qualifying_stems d (fs w))
                                       (length (qualifying_stems d (fs w)))) (fs w))
      /\ exists ok,
          events w' = events w ++ [EvRun (FfmpegMixPeak (qualifying_stems d (fs w))
                                            (length (qualifying_stems d (fs w)))) ok]
          /\ (r <> None -> ok = true)).
Proof.
  unfold detect_peak_level. fold (qualifying_stems d (fs w)).
  destruct (qualifying_stems d (fs w)) as [|s0 sel] eqn:Hsel.
  - intros Heq. injection Heq as <- <-. now left.
  - intros Heq. right. split; [discriminate |].
    destruct (run_command (FfmpegMixPeak (s0 :: sel) (length (s0 :: sel))) true w)
      as [[ok out] w1] eqn:Hrun.
    apply run_command_inv in Hrun as (Hp & He & Hf & Hok).
    assert (Hw : w' = w1).
    { destruct (success_and_output ok out);
        [destruct (parse_max_volume (default EmptyString out)) |];
        now injection Heq. }
    subst w'. repeat split; try assumption.
    exists ok. split; [exact He |].
    intros Hr. destruct ok; [reflexivity |].
    simpl in Heq. injection Heq as <-. now contradiction Hr.
Qed.

(** [merge_audio_files] either finds no stem and does nothing, or runs one
    mix command over the qualifying stems, whose status it returns. *)
Lemma merge_audio_files_inv (d out : string) (g : option float) (w w' : World) (r : bool) :
  merge_audio_files d out g w = (r, w') ->
  (qualifying_stems d (fs w) = [] /\ r = false /\ w' = w)
  \/ (qualifying_stems d (fs w) <> []
      /\ printed w' = printed w
      /\ fs w' = snd (subprocess_run
                        (FfmpegMerge (qualifying_stems d (fs w))
                                     (length (qualifying_stems d (fs w))) g out) (fs w))
      /\ events w' = events w ++ [EvRun (FfmpegMerge (qualifying_stems d (fs w))
                                           (length (qualifying_stems d (fs w))) g out) r]).
Proof.
  unfold merge_audio_files. fold (qualifying_stems d (fs w)).
  destruct (qualifying_stems d (fs w)) as [|s0 sel] eqn:Hsel.
  - intros Heq. injection Heq as <- <-. now left.
  - intros Heq. right. split; [discriminate |].
    destruct (run_command (FfmpegMerge (s0 :: sel) (length (s0 :: sel)) g out) false w)
      as [[ok o] w1] eqn:Hrun.
    apply run_command_inv in Hrun as (Hp & He & Hf & Hok).
    injection Heq as <- <-. auto.
Qed.

Lemma copy_metadata_inv (src audio out : string) (comp : bool) (w w' : World) (r : bool) :
  copy_metadata src audio out comp w = (r, w') ->
  printed w' = printed w
  /\ events w' = events w ++ [EvRun (FfmpegRemux src audio out comp) r].
Proof.
  unfold copy_metadata. intros Heq.
  assert (Hcmd : (if comp then FfmpegRemux src audio out true
                  else FfmpegRemux src audio out false) = FfmpegRemux src audio out comp)
    by now destruct comp.
  rewrite Hcmd in Heq.
  destruct (run_command (FfmpegRemux src audio out comp) false w) as [[ok o] w1] eqn:Hrun.
  apply run_command_inv in Hrun as (Hp & He & _).
  injection Heq as <- <-. auto.
Qed.

Lemma apply_replaygain_track_inv (p : string) (w : World) :
  printed (snd (apply_replaygain_track p w)) = printed w
  /\ exists ok, events (snd (apply_replaygain_track p w)) = events w ++ [EvRun (RsgainTrack p) ok].
Proof.
  unfold apply_replaygain_track.
  destruct (run_command (RsgainTrack p) false w) as [[ok o] w1] eqn:Hrun.
  apply run_command_inv in Hrun as (Hp & He & _). simpl. eauto.
Qed.

Lemma apply_replaygain_album_inv (ps : list string) (w : World) :
  printed (snd (apply_replaygain_album ps w)) = printed w
  /\ exists ok, events (snd (apply_replaygain_album ps w)) = events w ++ [EvRun (RsgainAlbum ps) ok].
Proof.
  unfold apply_replaygain_album.
  destruct (run_command (RsgainAlbum ps) false w) as [[ok o] w1] eqn:Hrun.
  apply run_command_inv in Hrun as (Hp & He & _). simpl. eauto.
Qed.

End AdapterFacts.

(* ===================================================================== *)
(** ** One round of the orchestrator loop *)
(* ===================================================================== *)

Section RoundFacts.
Context {E : Externals}.

(** The round as a chain of its stages: which collaborator calls it makes, in
    which states, and what it reports at each exit.  The clean-up steps and
    the mutagen steps add no event. *)
Lemma main_iteration_stages (model : string) (comp : bool) (file : string)
    (l l' : list string) (w w' : World) :
  main_iteration model comp file l w = (l', w') ->
  exists ok1 w1,
    separate file (print "Processing: {}" [AStr file] w) = (ok1, w1)
    /\ if negb ok1 then l' = l /\ events w' = events w1
       else exists r w2,
         detect_peak_level wav_dir w1 = (r, w2)
         /\ match r with
            | None => l' = l /\ events w' = events w2
            | Some p => exists w2' okm w3,
                fs w2' = fs w2 /\ events w2' = events w2
                /\ merge_audio_files wav_dir (staging_file_of file) (clipping_gain p) w2'
                   = (okm, w3)
                /\ if negb okm then l' = l /\ events w' = events w3
                   else exists okr w4,
                     copy_metadata file (staging_file_of file) (output_filename file) comp w3
                     = (okr, w4)
                     /\ if negb okr then l' = l /\ events w' = events w4
                        else l' = l ++ [output_filename file]
                             /\ events w' =
                                events (if comp
                                        then snd (apply_replaygain_track (output_filename file) w4)
                                        else w4)
            end.
Proof.
  unfold main_iteration. intros Hrun.
  destruct (separate file (print "Processing: {}" [AStr file] w)) as [ok1 w1] eqn:Hsep.
  exists ok1, w1. split; [reflexivity |].
  destruct ok1; simpl in Hrun |- *.
  2:{ injection Hrun as <- <-. split; [reflexivity |].
      now rewrite (proj2 (rmtree_if_exists_log _ _)). }
  destruct (detect_peak_level wav_dir w1) as [r w2] eqn:Hpeak.
  exists r, w2. split; [reflexivity |].
  destruct r as [p|].
  2:{ injection Hrun as <- <-. split; [reflexivity |].
      now rewrite (proj2 (rmtree_if_exists_log _ _)). }
  match type of Hrun with
  | context [if (-0.1 <? p)%float then ?a else ?b] =>
      assert (Hg : (if (-0.1 <? p)%float then a else b)
                   = (clipping_gain p, snd (if (-0.1 <? p)%float then a else b))
                   /\ fs (snd (if (-0.1 <? p)%float then a else b)) = fs w2
                   /\ events (snd (if (-0.1 <? p)%float then a else b)) = events w2)
        by (unfold clipping_gain; destruct (-0.1 <? p)%float; simpl; auto);
      destruct Hg as (Hg & Hgf & Hge);
      rewrite Hg in Hrun;
      exists (snd (if (-0.1 <? p)%float then a else b))
  end.
  destruct (merge_audio_files wav_dir (staging_file_of file) _ _) as [okm w3] eqn:Hmerge.
  exists okm, w3. repeat (split; [assumption || reflexivity |]).
  destruct okm; simpl in Hrun |- *.
  2:{ injection Hrun as <- <-. split; [reflexivity |].
      now rewrite (proj2 (rmtree_if_exists_log _ _)), (proj2 (remove_if_exists_log _ _)). }
  destruct (copy_metadata file (staging_file_of file) (output_filename file) comp w3)
    as [okr w4] eqn:Hremux.
  exists okr, w4. split; [reflexivity |].
  destruct okr; simpl in Hrun |- *.
  2:{ injection Hrun as <- <-. split; [reflexivity |].
      now rewrite (proj2 (rmtree_if_exists_log _ _)), (proj2 (remove_if_exists_log _ _)). }
  destruct (copy_artwork file (output_filename file) _) as [a w5] eqn:Hart.
  apply (f_equal snd) in Hart. simpl in Hart.
  destruct (set_flac_tags (output_filename file) (tags_to_set model) w5) as [t w6] eqn:Htag.
  apply (f_equal snd) in Htag. simpl in Htag.
  injection Hrun as <- <-. split; [reflexivity |].
  rewrite <- Htag, set_flac_tags_log, <- Hart, copy_artwork_log.
  now rewrite (proj2 (rmtree_if_exists_log _ _)), (proj2 (remove_if_exists_log _ _)).
Qed.

End RoundFacts.

(* ===================================================================== *)
(** ** The result list (claim C4) *)
(* ===================================================================== *)

Section ResultList.
Context {E : Externals}.

(** The events of a round, exit by exit. *)
Lemma main_iteration_events (model : string) (comp : bool) (file : string)
    (l l' : list string) (w w' : World) :
  main_iteration model comp file l w = (l', w') ->
  (l' = l /\ events_since w w' = [EvSeparate file false])
  \/ (l' = l /\ events_since w w' = [EvSeparate file true])
  \/ (l' = l /\ exists i n ok,
        events_since w w' = [EvSeparate file true; EvRun (FfmpegMixPeak i n) ok])
  \/ (l' = l /\ exists i n i' n' g,
        events_since w w' = [EvSeparate file true; EvRun (FfmpegMixPeak i n) true;
                             EvRun (FfmpegMerge i' n' g (staging_file_of file)) false])
  \/ (l' = l /\ exists i n i' n' g,
        events_since w w' = [EvSeparate file true; EvRun (FfmpegMixPeak i n) true;
                             EvRun (FfmpegMerge i' n' g (staging_file_of file)) true;
                             EvRun (FfmpegRemux file (staging_file_of file)
                                                (output_filename file) comp) false])
  \/ (l' = l ++ [output_filename file] /\ exists i n i' n' g rg,
        events_since w w' = [EvSeparate file true; EvRun (FfmpegMixPeak i n) true;
                             EvRun (FfmpegMerge i' n' g (staging_file_of file)) true;
                             EvRun (FfmpegRemux file (staging_file_of file)
                                                (output_filename file) comp) true] ++ rg
        /\ (rg = [] \/ exists ok, rg = [EvRun (RsgainTrack (output_filename file)) ok])).
Proof.
  intros Hrun. apply main_iteration_stages in Hrun as (ok1 & w1 & Hsep & Hrest).
  apply separate_inv in Hsep as (_ & Hev1 & _). simpl in Hev1.
  destruct ok1; simpl in Hrest.
  2:{ destruct Hrest as (-> & Hev). left. split; [reflexivity |].
      apply events_since_app. congruence. }
  destruct Hrest as (r & w2 & Hpeak & Hrest).
  apply detect_peak_level_inv in Hpeak
    as [(_ & -> & ->) | (_ & _ & _ & okp & Hev2 & Hokp)].
  { destruct Hrest as (-> & Hev). right; left. split; [reflexivity |].
    apply events_since_app. congruence. }
  destruct r as [p|].
  2:{ destruct Hrest as (-> & Hev). right; right; left. split; [reflexivity |].
      do 3 eexists. apply events_since_app.
      rewrite Hev, Hev2, Hev1, <- app_assoc. reflexivity. }
  rewrite Hokp in Hev2 by discriminate.
  destruct Hrest as (w2' & okm & w3 & _ & Hev2' & Hmerge & Hrest).
  apply merge_audio_files_inv in Hmerge as [(_ & -> & ->) | (_ & _ & _ & Hev3)].
  { destruct Hrest as (-> & Hev). right; right; left. split; [reflexivity |].
    do 3 eexists. apply events_since_app.
    rewrite Hev, Hev2', Hev2, Hev1, <- app_assoc. reflexivity. }
  destruct okm; simpl in Hrest.
  2:{ destruct Hrest as (-> & Hev). do 3 right; left. split; [reflexivity |].
      do 5 eexists. apply events_since_app.
      rewrite Hev, Hev3, Hev2', Hev2, Hev1, <- !app_assoc. reflexivity. }
  destruct Hrest as (okr & w4 & Hremux & Hrest).
  apply copy_metadata_inv in Hremux as (_ & Hev4).
  destruct okr; simpl in Hrest.
  2:{ destruct Hrest as (-> & Hev). do 4 right; left. split; [reflexivity |].
      do 5 eexists. apply events_since_app.
      rewrite Hev, Hev4, Hev3, Hev2', Hev2, Hev1, <- !app_assoc. reflexivity. }
  destruct Hrest as (-> & Hev). do 5 right. split; [reflexivity |].
  destruct comp.
  - destruct (apply_replaygain_track_inv (output_filename file) w4) as (_ & okg & Hev5).
    do 5 eexists. exists [EvRun (RsgainTrack (output_filename file)) okg].
    split; [| right; eauto].
    apply events_since_app.
    rewrite Hev, Hev5, Hev4, Hev3, Hev2', Hev2, Hev1, <- !app_assoc. reflexivity.
  - do 5 eexists. exists []. split; [| now left].
    apply events_since_app.
    rewrite Hev, Hev4, Hev3, Hev2', Hev2, Hev1, <- !app_assoc. reflexivity.
Qed.

(** The result list of a round, read off its events. *)
Lemma listed_iff_events (model : string) (comp : bool) (file : string)
    (l : list string) (w : World) :
  (fst (main_iteration model comp file l w) = l ++ [output_filename file]
   <-> (exists i n g,
          In (EvRun (FfmpegMerge i n g (staging_file_of file)) true)
             (events_since w (snd (main_iteration model comp file l w))))
       /\ In (EvRun (FfmpegRemux file (staging_file_of file) (output_filename file) comp) true)
             (events_since w (snd (main_iteration model comp file l w))))
  /\ (fst (main_iteration model comp file l w) <> l ++ [output_filename file]
      -> fst (main_iteration model comp file l w) = l)
  /\ (In (EvSeparate file false) (events_since w (snd (main_iteration model comp file l w)))
      -> fst (main_iteration model comp file l w) = l)
  /\ (forall i n,
        In (EvRun (FfmpegMixPeak i n) false)
           (events_since w (snd (main_iteration model comp file l w)))
        -> fst (main_iteration model comp file l w) = l).
Proof.
  destruct (main_iteration model comp file l w) as [l' w'] eqn:Hrun. simpl.
  assert (Hne : l <> l ++ [output_filename file]).
  { intros Heq. apply (f_equal (@length string)) in Heq.
    rewrite length_app in Heq. simpl in Heq. lia. }
  apply main_iteration_events in Hrun
    as [(-> & Hev) | [(-> & Hev) | [(-> & i & n & ok & Hev)
       | [(-> & i & n & i' & n' & g & Hev) | [(-> & i & n & i' & n' & g & Hev)
       | (-> & i & n & i' & n' & g & rg & Hev & Hrg)]]]]];
    rewrite Hev.
  1-5: (split; [split; [intros Heq; now contradiction Hne
                       | intros [(? & ? & ? & Hm) Hr]; simpl in Hm, Hr;
                         intuition discriminate]
               | repeat split; auto]).
  split; [| split; [| split]].
  - split; [intros _ | reflexivity].
    split; [exists i', n', g |]; simpl; auto.
  - intros Hc. now contradiction Hc.
  - intros Hin. exfalso. simpl in Hin.
    destruct Hin as [Hin | [Hin | [Hin | [Hin | Hin]]]]; try discriminate.
    destruct Hrg as [-> | (ok & ->)]; simpl in Hin; intuition discriminate.
  - intros j m Hin. exfalso. simpl in Hin.
    destruct Hin as [Hin | [Hin | [Hin | [Hin | Hin]]]]; try discriminate.
    destruct Hrg as [-> | (ok & ->)]; simpl in Hin; intuition discriminate.
Qed.

(** C4: a round appends the Track's output path to the result list exactly
    when, in that round, the merge command and the remux command both came
    back with success; in every other round the list is left as it was, in
    particular when the separator raised, when the peak command failed and
    when peak detection gave no value. *)
Theorem listed_iff_merged_and_remuxed (model : string) (comp : bool) (file : string)
    (l : list string) (w : World) :
  (fst (main_iteration model comp file l w) = l ++ [output_filename file]
   <-> (exists i n g,
          In (EvRun (FfmpegMerge i n g (staging_file_of file)) true)
             (events_since w (snd (main_iteration model comp file l w))))
       /\ In (EvRun (FfmpegRemux file (staging_file_of file) (output_filename file) comp) true)
             (events_since w (snd (main_iteration model comp file l w))))
  /\ (fst (main_iteration model comp file l w) <> l ++ [output_filename file]
      -> fst (main_iteration model comp file l w) = l)
  /\ (In (EvSeparate file false) (events_since w (snd (main_iteration model comp file l w)))
      -> fst (main_iteration model comp file l w) = l)
  /\ (forall i n,
        In (EvRun (FfmpegMixPeak i n) false)
           (events_since w (snd (main_iteration model comp file l w)))
        -> fst (main_iteration model comp file l w) = l)
  /\ (forall w1,
        snd (separate file (print "Processing: {}" [AStr file] w)) = w1 ->
        fst (detect_peak_level wav_dir w1) = None ->
        fst (main_iteration model comp file l w) = l).
Proof.
  destruct (listed_iff_events model comp file l w) as (H1 & H2 & H3 & H4).
  repeat (split; [assumption |]).
  intros w1 <- Hnone. unfold main_iteration.
  destruct (separate file _) as [ok1 w1]. simpl in Hnone |- *.
  destruct ok1; [| reflexivity]. simpl.
  destruct (detect_peak_level wav_dir w1) as [r w2]. simpl in Hnone. subst r.
  reflexivity.
Qed.

End ResultList.

(** On the album folder: with every collaborator well the output is listed,
    with a separator that raises it is not. *)
Lemma listed_iff_merged_and_remuxed_witness :
  fst (main_iteration (E:=scripted all_well) "model" false "a/x.flac" [] (start album_folder))
  = [] ++ [output_filename "a/x.flac"]
  /\ fst (main_iteration (E:=scripted separator_raises) "model" false "a/x.flac" []
            (start album_folder)) = [].
Proof.
  split.
  - apply (proj2 (proj1 (listed_iff_merged_and_remuxed (E:=scripted all_well) "model" false
                           "a/x.flac" [] (start album_folder)))).
    split; [exists ["separated/vocals.wav"], 1%nat, (Some (- (0.3 + 0.1))%float) |];
      vm_compute; tauto.
  - apply (proj1 (proj2 (proj2 (listed_iff_merged_and_remuxed (E:=scripted separator_raises)
                                  "model" false "a/x.flac" [] (start album_folder))))).
    vm_compute. tauto.
Defined.

(* ===================================================================== *)
(** ** The gain policy (claim C3) *)
(* ===================================================================== *)

Section GainPolicy.
Context {E : Externals}.

Lemma SFcompare_antisym (x y : spec_float) :
  SFcompare y x = option_map CompOpp (SFcompare x y).
Proof.
  destruct x as [sx|sx| |sx mx ex], y as [sy|sy| |sy my ey]; simpl; try reflexivity;
    try (destruct sx; reflexivity); try (destruct sy; reflexivity);
    try (destruct sx, sy; reflexivity).
  destruct sx, sy; try reflexivity; simpl; f_equal.
  - rewrite (Z.compare_antisym ey ex).
    destruct (ey ?= ex)%Z; simpl; try reflexivity.
    rewrite (Pos.compare_cont_antisym mx my Eq). simpl.
    destruct (Pos.compare_cont Eq my mx); reflexivity.
  - rewrite (Z.compare_antisym ey ex).
    destruct (ey ?= ex)%Z; simpl; try reflexivity.
    rewrite (Pos.compare_cont_antisym mx my Eq). simpl.
    destruct (Pos.compare_cont Eq my mx); reflexivity.
Qed.

(** In binary64, [p <= c] excludes [p > c]. *)
Lemma float_le_not_gt (p c : float) : (p <=? c)%float = true -> (c <? p)%float = false.
Proof.
  rewrite leb_spec, ltb_spec. unfold SFleb, SFltb.
  rewrite (SFcompare_antisym (Prim2SF p) (Prim2SF c)).
  destruct (SFcompare (Prim2SF p) (Prim2SF c)) as [[| |]|]; simpl; congruence.
Qed.

Lemma clipping_gain_above (p : float) :
  (-0.1 <? p)%float = true -> clipping_gain p = Some (- (p + 0.1))%float.
Proof. unfold clipping_gain. now intros ->. Qed.

Lemma clipping_gain_below (p : float) :
  (p <=? -0.1)%float = true -> clipping_gain p = None.
Proof. intros Hle. unfold clipping_gain. now rewrite (float_le_not_gt _ _ Hle). Qed.

Lemma gain_error_tenths (k : nat) :
  (k <= 2000)%nat -> (gain_error (tenth k) <=? 1e-13)%float = true.
Proof.
  intros Hk.
  assert (Hall : forallb (fun k => (gain_error (tenth k) <=? 1e-13)%float) (seq 0 2001) = true)
    by (vm_compute; reflexivity).
  rewrite forallb_forall in Hall. apply Hall, in_seq. lia.
Qed.

(** The events of a round that got a peak: the separation, the peak
    command, and then either nothing (no stem qualified any more) or the merge
    command with the policy's gain, followed by commands that are no merge. *)
Lemma merge_events_of_round (model : string) (comp : bool) (file : string)
    (l l' : list string) (w w' w1 w2 : World) (p : float) :
  main_iteration model comp file l w = (l', w') ->
  separate file (print "Processing: {}" [AStr file] w) = (true, w1) ->
  detect_peak_level wav_dir w1 = (Some p, w2) ->
  (qualifying_stems wav_dir (fs w2) = []
   /\ exists i n, events_since w w' = [EvSeparate file true; EvRun (FfmpegMixPeak i n) true])
  \/ (exists i n okm rest,
        events_since w w'
        = EvSeparate file true :: EvRun (FfmpegMixPeak i n) true
          :: EvRun (FfmpegMerge (qualifying_stems wav_dir (fs w2))
                                (length (qualifying_stems wav_dir (fs w2)))
                                (clipping_gain p) (staging_file_of file)) okm
          :: rest
        /\ Forall not_a_merge rest).
Proof.
  intros Hrun Hsep Hpeak.
  apply main_iteration_stages in Hrun as (ok1 & w1' & Hsep' & Hst).
  rewrite Hsep in Hsep'. injection Hsep' as <- <-. simpl in Hst.
  destruct Hst as (r & w2'' & Hpeak' & Hst).
  rewrite Hpeak in Hpeak'. injection Hpeak' as <- <-.
  destruct Hst as (w2' & okm & w3 & Hfs & Hev2' & Hmerge & Hst).
  apply separate_inv in Hsep as (_ & Hev1 & _). simpl in Hev1.
  apply detect_peak_level_inv in Hpeak
    as [(_ & Hnone & _) | (_ & _ & _ & okp & Hevp & Hokp)]; [discriminate Hnone |].
  rewrite Hokp in Hevp by discriminate.
  apply merge_audio_files_inv in Hmerge as [(Hnil & -> & ->) | (_ & _ & _ & Hev3)].
  { destruct Hst as (_ & Hev). left. rewrite Hfs in Hnil. split; [exact Hnil |].
    do 2 eexists. apply events_since_app.
    rewrite Hev, Hev2', Hevp, Hev1, <- !app_assoc. reflexivity. }
  right. rewrite Hfs in Hev3.
  destruct okm; simpl in Hst.
  2:{ destruct Hst as (_ & Hev). do 2 eexists. exists false, []. split; [| constructor].
      apply events_since_app.
      rewrite Hev, Hev3, Hev2', Hevp, Hev1, <- !app_assoc. reflexivity. }
  destruct Hst as (okr & w4 & Hremux & Hst).
  apply copy_metadata_inv in Hremux as (_ & Hev4).
  destruct okr; simpl in Hst; destruct Hst as (_ & Hev).
  2:{ do 2 eexists. exists true. eexists. split.
      - apply events_since_app.
        rewrite Hev, Hev4, Hev3, Hev2', Hevp, Hev1, <- !app_assoc. reflexivity.
      - repeat constructor. }
  destruct comp.
  - destruct (apply_replaygain_track_inv (output_filename file) w4) as (_ & okg & Hev5).
    do 2 eexists. exists true. eexists. split.
    + apply events_since_app.
      rewrite Hev, Hev5, Hev4, Hev3, Hev2', Hevp, Hev1, <- !app_assoc. reflexivity.
    + repeat constructor.
  - do 2 eexists. exists true. eexists. split.
    + apply events_since_app.
      rewrite Hev, Hev4, Hev3, Hev2', Hevp, Hev1, <- !app_assoc. reflexivity.
    + repeat constructor.
Qed.

(** C3, as the claim has it, fails on the word "exactly": the arithmetic is
    binary64, and for a peak of 0.3 dB the gain is [-(0.3 + 0.1)] while
    [0.3 + gain] is not [-0.1]. *)
Lemma gain_sum_is_not_exact :
  (-0.1 <? 0.3)%float = true
  /\ clipping_gain 0.3%float = Some (- (0.3 + 0.1))%float
  /\ (0.3 + - (0.3 + 0.1))%float <> (-0.1)%float.
Proof.
  split; [reflexivity |]. split; [reflexivity |].
  intros Heq. apply (f_equal (fun x => PrimFloat.eqb x (-0.1)%float)) in Heq.
  vm_compute in Heq. discriminate Heq.
Qed.

(** C3, amended: in a round whose peak detection gave [p], every merge
    command of the round carries the gain [-(p + 0.1)] when [p > -0.1] and no
    gain when [p <= -0.1], and the merge command is run whenever stems
    qualify; [p + gain] is [-0.1] up to rounding (within 1e-13 for every
    reading from 0.0 to 200.0 dB), not exactly. *)
Theorem merge_gain_follows_peak (model : string) (comp : bool) (file : string)
    (l : list string) (w w1 w2 : World) (p : float) :
  separate file (print "Processing: {}" [AStr file] w) = (true, w1) ->
  detect_peak_level wav_dir w1 = (Some p, w2) ->
  (forall i n g o ok,
      In (EvRun (FfmpegMerge i n g o) ok)
         (events_since w (snd (main_iteration model comp file l w))) ->
      g = clipping_gain p /\ o = staging_file_of file)
  /\ (qualifying_stems wav_dir (fs w2) <> [] ->
      exists ok,
        In (EvRun (FfmpegMerge (qualifying_stems wav_dir (fs w2))
                               (length (qualifying_stems wav_dir (fs w2)))
                               (clipping_gain p) (staging_file_of file)) ok)
           (events_since w (snd (main_iteration model comp file l w))))
  /\ ((-0.1 <? p)%float = true -> clipping_gain p = Some (- (p + 0.1))%float)
  /\ ((p <=? -0.1)%float = true -> clipping_gain p = None)
  /\ (forall k, (k <= 2000)%nat -> (gain_error (tenth k) <=? 1e-13)%float = true).
Proof.
  intros Hsep Hpeak.
  split; [| split; [| split; [apply clipping_gain_above
                              | split; [apply clipping_gain_below | apply gain_error_tenths]]]].
  - intros i n g o ok Hin.
    destruct (main_iteration model comp file l w) as [l' w'] eqn:Hrun. simpl in Hin.
    destruct (merge_events_of_round _ _ _ _ _ _ _ _ _ _ Hrun Hsep Hpeak)
      as [(_ & i0 & n0 & Hev) | (i0 & n0 & okm & rest & Hev & Hrest)];
      rewrite Hev in Hin; simpl in Hin.
    + intuition discriminate.
    + destruct Hin as [Hin | [Hin | [Hin | Hin]]]; try discriminate.
      * injection Hin as _ _ <- <- _. split; reflexivity.
      * exfalso. clear Hev. induction rest as [|e rest IH]; [exact Hin |].
        inversion Hrest as [|? ? He Hrest']; subst.
        destruct Hin as [Hin | Hin]; [| now apply IH].
        subst e. simpl in He. exact He.
  - intros Hsel.
    destruct (main_iteration model comp file l w) as [l' w'] eqn:Hrun. simpl.
    destruct (merge_events_of_round _ _ _ _ _ _ _ _ _ _ Hrun Hsep Hpeak)
      as [(Hnil & _) | (i0 & n0 & okm & rest & Hev & Hrest)]; [contradiction |].
    exists okm. rewrite Hev. simpl. auto.
Qed.

End GainPolicy.

(** On the album folder with every collaborator well: the peak is read as
    0.3 dB and the merge runs over the vocal stem with the gain
    [-(0.3 + 0.1)]. *)
Lemma merge_gain_follows_peak_witness :
  separate (E:=scripted all_well) "a/x.flac"
           (print "Processing: {}" [AStr "a/x.flac"] (start album_folder))
  = (true, snd (separate (E:=scripted all_well) "a/x.flac"
                  (print "Processing: {}" [AStr "a/x.flac"] (start album_folder))))
  /\ fst (detect_peak_level (E:=scripted all_well) wav_dir
            (snd (separate (E:=scripted all_well) "a/x.flac"
                    (print "Processing: {}" [AStr "a/x.flac"] (start album_folder)))))
     = Some 0.3%float
  /\ exists ok,
      In (EvRun (FfmpegMerge ["separated/vocals.wav"] 1 (Some (- (0.3 + 0.1))%float)
                             "a/staging.flac") ok)
         (events_since (start album_folder)
            (snd (main_iteration (E:=scripted all_well) "model" false "a/x.flac" []
                    (start album_folder)))).
Proof.
  split; [vm_compute; reflexivity |]. split; [vm_compute; reflexivity |].
  pose proof (merge_gain_follows_peak (E:=scripted all_well) "model" false "a/x.flac" []
                (start album_folder)
                (snd (separate (E:=scripted all_well) "a/x.flac"
                        (print "Processing: {}" [AStr "a/x.flac"] (start album_folder))))
                (snd (detect_peak_level (E:=scripted all_well) wav_dir
                        (snd (separate (E:=scripted all_well) "a/x.flac"
                                (print "Processing: {}" [AStr "a/x.flac"]
                                   (start album_folder))))))
                0.3%float
                ltac:(vm_compute; reflexivity) ltac:(vm_compute; reflexivity))
    as (_ & Hrun & _).
  apply Hrun. vm_compute. discriminate.
Defined.

(* ===================================================================== *)
(** ** Scratch space after a round (claim C1) *)
(* ===================================================================== *)

Section Scratch.
Context {E : Externals}.

(** Whatever happens in a round, the scratch directory is gone at its end. *)
Lemma round_removes_scratch_directory (model : string) (comp : bool) (file : string)
    (l : list string) (w : World) :
  fs (snd (main_iteration model comp file l w)) !! wav_dir = None.
Proof.
  unfold main_iteration.
  destruct (separate file _) as [ok1 w1].
  destruct ok1; simpl; [| apply rmtree_if_exists_gone].
  destruct (detect_peak_level wav_dir w1) as [[p|] w2]; [| apply rmtree_if_exists_gone].
  destruct (if (-0.1 <? p)%float then _ else _) as [g w2'].
  destruct (merge_audio_files wav_dir (staging_file_of file) g w2') as [okm w3].
  destruct okm; simpl; [| apply rmtree_if_exists_gone].
  destruct (copy_metadata file (staging_file_of file) (output_filename file) comp w3)
    as [okr w4].
  destruct okr; simpl; [| apply rmtree_if_exists_gone].
  destruct (copy_artwork file (output_filename file) _) as [a w5] eqn:Hart.
  apply (f_equal snd) in Hart. simpl in Hart.
  destruct (set_flac_tags (output_filename file) (tags_to_set model) w5) as [t w6] eqn:Htag.
  apply (f_equal snd) in Htag. simpl in Htag. simpl.
  rewrite <- Htag. apply set_flac_tags_keeps_absent.
  rewrite <- Hart. apply copy_artwork_keeps_absent.
  apply rmtree_if_exists_gone.
Qed.

(** A round leaves no staging file when there was none at its start and
    neither the separator nor the peak command creates one. *)
Lemma round_removes_staging_file (model : string) (comp : bool) (file : string)
    (l : list string) (w : World) :
  (forall f, f !! staging_file_of file = None ->
             snd (separator_separate file f) !! staging_file_of file = None) ->
  (forall i n f, f !! staging_file_of file = None ->
                 snd (subprocess_run (FfmpegMixPeak i n) f) !! staging_file_of file = None) ->
  fs w !! staging_file_of file = None ->
  fs (snd (main_iteration model comp file l w)) !! staging_file_of file = None.
Proof.
  intros Hsepk Hpeakk Hw. unfold main_iteration.
  destruct (separate file _) as [ok1 w1] eqn:Hsep.
  apply separate_inv in Hsep as (_ & _ & Hf1). simpl in Hf1.
  assert (Hw1 : fs w1 !! staging_file_of file = None).
  { specialize (Hsepk (fs w) Hw). rewrite <- Hf1 in Hsepk. exact Hsepk. }
  destruct ok1; simpl; [| now apply rmtree_if_exists_keeps_absent].
  destruct (detect_peak_level wav_dir w1) as [r w2] eqn:Hpeak.
  assert (Hw2 : fs w2 !! staging_file_of file = None).
  { apply detect_peak_level_inv in Hpeak as [(_ & _ & ->) | (_ & _ & -> & _)];
      [exact Hw1 | now apply Hpeakk]. }
  destruct r as [p|]; [| now apply rmtree_if_exists_keeps_absent].
  destruct (if (-0.1 <? p)%float then _ else _) as [g w2'].
  destruct (merge_audio_files wav_dir (staging_file_of file) g w2') as [okm w3].
  destruct okm; simpl;
    [| apply rmtree_if_exists_keeps_absent, remove_if_exists_gone].
  destruct (copy_metadata file (staging_file_of file) (output_filename file) comp w3)
    as [okr w4].
  destruct okr; simpl;
    [| apply rmtree_if_exists_keeps_absent, remove_if_exists_gone].
  destruct (copy_artwork file (output_filename file) _) as [a w5] eqn:Hart.
  apply (f_equal snd) in Hart. simpl in Hart.
  destruct (set_flac_tags (output_filename file) (tags_to_set model) w5) as [t w6] eqn:Htag.
  apply (f_equal snd) in Htag. simpl in Htag. simpl.
  rewrite <- Htag. apply set_flac_tags_keeps_absent.
  rewrite <- Hart. apply copy_artwork_keeps_absent.
  apply rmtree_if_exists_keeps_absent, remove_if_exists_gone.
Qed.

(** A round that got a peak goes on to the merge, and removes the staging
    file at each of its exits, whatever the collaborators did. *)
Lemma round_past_peak_removes_staging_file (model : string) (comp : bool) (file : string)
    (l : list string) (w w1 w2 : World) (p : float) :
  separate file (print "Processing: {}" [AStr file] w) = (true, w1) ->
  detect_peak_level wav_dir w1 = (Some p, w2) ->
  fs (snd (main_iteration model comp file l w)) !! staging_file_of file = None.
Proof.
  intros Hsep Hpeak. unfold main_iteration. rewrite Hsep. simpl. rewrite Hpeak.
  destruct (if (-0.1 <? p)%float then _ else _) as [g w2'].
  destruct (merge_audio_files wav_dir (staging_file_of file) g w2') as [okm w3].
  destruct okm; simpl;
    [| apply rmtree_if_exists_keeps_absent, remove_if_exists_gone].
  destruct (copy_metadata file (staging_file_of file) (output_filename file) comp w3)
    as [okr w4].
  destruct okr; simpl;
    [| apply rmtree_if_exists_keeps_absent, remove_if_exists_gone].
  destruct (copy_artwork file (output_filename file) _) as [a w5] eqn:Hart.
  apply (f_equal snd) in Hart. simpl in Hart.
  destruct (set_flac_tags (output_filename file) (tags_to_set model) w5) as [t w6] eqn:Htag.
  apply (f_equal snd) in Htag. simpl in Htag. simpl.
  rewrite <- Htag. apply set_flac_tags_keeps_absent.
  rewrite <- Hart. apply copy_artwork_keeps_absent.
  apply rmtree_if_exists_keeps_absent, remove_if_exists_gone.
Qed.

(** The clean-up after the loop. *)
Lemma processing_removes_scratch_directory (model : string) (comp : bool)
    (audio_files : list string) (w : World) :
  fs (snd (main_processing model comp audio_files w)) !! wav_dir = None.
Proof.
  unfold main_processing.
  destruct (main_loop model comp audio_files [] w) as [l w1]. simpl.
  apply (rmtree_if_exists_gone "separated").
Qed.

(** C1, amended: at the end of every round the scratch directory does not
    exist, whatever the outcome.  A round that got a peak, and so went on to
    the merge, ends without the staging file, whatever the collaborators
    did; a round that stops at the separation or at the peak detection does
    not touch the staging path, so that the staging file is absent at the end
    of any round it was absent from at the start, given that neither the
    separator nor the peak command creates it.  The scratch directory is
    removed once more after the loop. *)
Theorem round_leaves_no_scratch (model : string) (comp : bool) (file : string)
    (l : list string) (w : World) :
  fs (snd (main_iteration model comp file l w)) !! wav_dir = None
  /\ (forall w1 w2 p,
        separate file (print "Processing: {}" [AStr file] w) = (true, w1) ->
        detect_peak_level wav_dir w1 = (Some p, w2) ->
        fs (snd (main_iteration model comp file l w)) !! staging_file_of file = None)
  /\ ((forall f, f !! staging_file_of file = None ->
                 snd (separator_separate file f) !! staging_file_of file = None) ->
      (forall i n f, f !! staging_file_of file = None ->
                     snd (subprocess_run (FfmpegMixPeak i n) f) !! staging_file_of file = None) ->
      fs w !! staging_file_of file = None ->
      fs (snd (main_iteration model comp file l w)) !! staging_file_of file = None)
  /\ (forall audio_files w0,
        fs (snd (main_processing model comp audio_files w0)) !! wav_dir = None).
Proof.
  split; [| split; [| split]].
  - apply round_removes_scratch_directory.
  - intros w1 w2 p. apply round_past_peak_removes_staging_file.
  - apply round_removes_staging_file.
  - intros audio_files w0. apply processing_removes_scratch_directory.
Qed.

End Scratch.

(** C1, as the claim has it, fails when a staging file is already there (an
    interrupted run left it) and the separator raises: the round removes the
    scratch directory and leaves the staging file where it was. *)
Lemma staging_file_survives_failed_separation :
  fs (start interrupted_folder) !! staging_file_of "a/x.flac" = Some OtherFile
  /\ events (snd (main_iteration (E:=scripted separator_raises) "model" false "a/x.flac" []
                    (start interrupted_folder)))
     = [EvSeparate "a/x.flac" false]
  /\ fs (snd (main_iteration (E:=scripted separator_raises) "model" false "a/x.flac" []
                (start interrupted_folder))) !! staging_file_of "a/x.flac"
     = Some OtherFile.
Proof. repeat split; vm_compute; reflexivity. Qed.

(** A compilation round on the album folder with every collaborator well. *)
Lemma round_leaves_no_scratch_witness :
  fs (start album_folder) !! staging_file_of "a/x.flac" = None
  /\ events (snd (main_iteration (E:=scripted all_well) "model" true "a/x.flac" []
                    (start album_folder)))
     = [EvSeparate "a/x.flac" true;
        EvRun (FfmpegMixPeak ["separated/vocals.wav"] 1) true;
        EvRun (FfmpegMerge ["separated/vocals.wav"] 1 (Some (- (0.3 + 0.1))%float)
                           "a/staging.flac") true;
        EvRun (FfmpegRemux "a/x.flac" "a/staging.flac" "a/x - Drumless.flac" true) true;
        EvRun (RsgainTrack "a/x - Drumless.flac") true]
  /\ fs (snd (main_iteration (E:=scripted all_well) "model" true "a/x.flac" []
                (start album_folder))) !! wav_dir = None
  /\ fs (snd (main_iteration (E:=scripted all_well) "model" true "a/x.flac" []
                (start album_folder))) !! staging_file_of "a/x.flac" = None.
Proof.
  split; [vm_compute; reflexivity |]. split; [vm_compute; reflexivity |].
  refine (let P := round_leaves_no_scratch (E:=scripted all_well) "model" true "a/x.flac" []
                     (start album_folder) in
          conj (proj1 P) (proj1 (proj2 (proj2 P)) _ _ _)).
  - intros f Hf. simpl.
    change (staging_file_of "a/x.flac") with "a/staging.flac" in *.
    now rewrite !lookup_insert_ne by discriminate.
  - intros i n f Hf. exact Hf.
  - vm_compute. reflexivity.
Defined.

(* ===================================================================== *)
(** ** One selection for measuring and mixing (claim C9) *)
(* ===================================================================== *)

Section Selection.
Context {E : Externals}.

(** What [glob] returns. *)
Lemma glob_wav_spec (d : string) (f : gmap string Node) (k : string) :
  In k (glob_wav d f)
  <-> f !! d = Some Dir /\ is_Some (f !! k) /\ matches_wav_pattern d k = true.
Proof.
  unfold glob_wav. split.
  - destruct (f !! d) as [[| | | |]|]; try (intros []).
    intros Hin. apply list_elem_of_In, list_elem_of_filter in Hin as [Hpat Hin].
    apply list_elem_of_In, in_map_iff in Hin as ([k' v] & Hk & Hin). simpl in Hk. subst k'.
    apply list_elem_of_In, elem_of_map_to_list in Hin. eauto.
  - intros (-> & [v Hv] & Hpat).
    apply list_elem_of_In, list_elem_of_filter. split; [exact Hpat |].
    apply list_elem_of_In, in_map_iff. exists (k, v). split; [reflexivity |].
    now apply list_elem_of_In, elem_of_map_to_list.
Qed.

(** The qualifying stems are the matching entries without [drums] in their
    lowered name. *)
Lemma qualifying_stems_spec (d : string) (f : gmap string Node) (k : string) :
  In k (qualifying_stems d f)
  <-> In k (glob_wav d f) /\ PyStr.contains "drums" (PyStr.lower k) = false.
Proof.
  unfold qualifying_stems, sorted. rewrite sorted_by_In.
  rewrite <- list_elem_of_In, list_elem_of_filter, list_elem_of_In. tauto.
Qed.

(** C9: [detect_peak_level] and [merge_audio_files] select the same files in
    the same state of the stem directory, namely the sorted [*.wav] entries
    whose lowered names do not contain [drums].  When none qualifies, the one
    returns [None] and the other failure, and neither runs a command; when
    some qualify, each runs one command over exactly that list. *)
Theorem peak_and_merge_select_same_stems (d out : string) (g : option float) (w : World) :
  (forall k, In k (qualifying_stems d (fs w))
             <-> (fs w !! d = Some Dir /\ is_Some (fs w !! k)
                  /\ matches_wav_pattern d k = true)
                 /\ PyStr.contains "drums" (PyStr.lower k) = false)
  /\ Sorted (key_le (fun s => s)) (qualifying_stems d (fs w))
  /\ (qualifying_stems d (fs w) = []
      <-> detect_peak_level d w = (None, w) /\ merge_audio_files d out g w = (false, w))
  /\ (qualifying_stems d (fs w) <> [] ->
      exists okp okm,
        events_since w (snd (detect_peak_level d w))
        = [EvRun (FfmpegMixPeak (qualifying_stems d (fs w))
                                (length (qualifying_stems d (fs w)))) okp]
        /\ events_since w (snd (merge_audio_files d out g w))
           = [EvRun (FfmpegMerge (qualifying_stems d (fs w))
                                 (length (qualifying_stems d (fs w))) g out) okm]
        /\ fst (merge_audio_files d out g w) = okm).
Proof.
  split; [| split; [| split]].
  - intros k. rewrite qualifying_stems_spec, glob_wav_spec. reflexivity.
  - apply sorted_by_sorted.
  - split.
    + intros Hnil. unfold detect_peak_level, merge_audio_files.
      fold (qualifying_stems d (fs w)). rewrite Hnil. split; reflexivity.
    + intros [Hpeak _].
      apply detect_peak_level_inv in Hpeak as [(Hnil & _) | (_ & _ & _ & ok & Hev & _)];
        [exact Hnil |].
      exfalso. apply (f_equal (@length Event)) in Hev.
      rewrite length_app in Hev. simpl in Hev. lia.
  - intros Hsel.
    destruct (detect_peak_level d w) as [r w1] eqn:Hpeak.
    destruct (merge_audio_files d out g w) as [okm w2] eqn:Hmerge.
    apply detect_peak_level_inv in Hpeak as [(Hnil & _) | (_ & _ & _ & okp & Hevp & _)];
      [contradiction |].
    apply merge_audio_files_inv in Hmerge as [(Hnil & _) | (_ & _ & _ & Hevm)];
      [contradiction |].
    exists okp, okm. simpl.
    repeat split; [now apply events_since_app | now apply events_since_app].
Qed.

End Selection.

(** After a separation of the album folder: the vocal stem qualifies, the
    drum stem does not, and both commands run over the vocal stem. *)
Lemma peak_and_merge_select_same_stems_witness :
  qualifying_stems wav_dir
    (fs (snd (separate (E:=scripted all_well) "a/x.flac" (start album_folder))))
  = ["separated/vocals.wav"]
  /\ exists okp okm,
      events_since (snd (separate (E:=scripted all_well) "a/x.flac" (start album_folder)))
        (snd (detect_peak_level (E:=scripted all_well) wav_dir
                (snd (separate (E:=scripted all_well) "a/x.flac" (start album_folder)))))
      = [EvRun (FfmpegMixPeak
                  (qualifying_stems wav_dir
                     (fs (snd (separate (E:=scripted all_well) "a/x.flac"
                                 (start album_folder)))))
                  (length (qualifying_stems wav_dir
                             (fs (snd (separate (E:=scripted all_well) "a/x.flac"
                                         (start album_folder))))))) okp]
      /\ events_since (snd (separate (E:=scripted all_well) "a/x.flac" (start album_folder)))
           (snd (merge_audio_files (E:=scripted all_well) wav_dir "a/staging.flac" None
                   (snd (separate (E:=scripted all_well) "a/x.flac" (start album_folder)))))
         = [EvRun (FfmpegMerge
                     (qualifying_stems wav_dir
                        (fs (snd (separate (E:=scripted all_well) "a/x.flac"
                                    (start album_folder)))))
                     (length (qualifying_stems wav_dir
                                (fs (snd (separate (E:=scripted all_well) "a/x.flac"
                                            (start album_folder))))))
                     None "a/staging.flac") okm]
      /\ fst (merge_audio_files (E:=scripted all_well) wav_dir "a/staging.flac" None
                (snd (separate (E:=scripted all_well) "a/x.flac" (start album_folder))))
         = okm.
Proof.
  split; [vm_compute; reflexivity |].
  apply (proj2 (proj2 (proj2 (peak_and_merge_select_same_stems (E:=scripted all_well)
                                wav_dir "a/staging.flac" None
                                (snd (separate (E:=scripted all_well) "a/x.flac"
                                        (start album_folder))))))).
  vm_compute. discriminate.
Defined.

(* ===================================================================== *)
(** ** Artwork (claim C5) *)
(* ===================================================================== *)

Section Artwork.

Lemma fold_add_picture_pictures (pics : list Picture) (audio : FLAC) :
  flac_pictures (fold_left add_picture pics audio) = flac_pictures audio ++ pics
  /\ flac_tags (fold_left add_picture pics audio) = flac_tags audio.
Proof.
  revert audio. induction pics as [|p rest IH]; intros audio; simpl.
  - now rewrite app_nil_r.
  - destruct (IH (add_picture audio p)) as [-> ->]. simpl.
    now rewrite <- app_assoc.
Qed.

(** C5, amended: [copy_artwork] clears the pictures of the destination object
    before it adds the extracted ones, so that a destination saved with
    artwork holds the extracted pictures and none of its old ones; when no
    source artwork is found nothing is saved, the file on disk stays as it
    was (with the pictures it had), and the call logs the fact and returns
    failure without raising. *)
Theorem copy_artwork_replaces_or_leaves (source_file dest_file : string) (w : World)
    (tags : list (string * string)) (old : list Picture) :
  fs w !! dest_file = Some (FlacFile tags old) ->
  (fst (extract_pictures source_file w) <> [] ->
   fst (copy_artwork source_file dest_file w) = true
   /\ fs (snd (copy_artwork source_file dest_file w))
      = <[dest_file := FlacFile tags (fst (extract_pictures source_file w))]> (fs w))
  /\ (fst (extract_pictures source_file w) = [] ->
      fst (copy_artwork source_file dest_file w) = false
      /\ fs (snd (copy_artwork source_file dest_file w)) = fs w
      /\ printed (snd (copy_artwork source_file dest_file w))
         = printed (snd (extract_pictures source_file w))
           ++ [Say "No artwork found in {}" [AStr source_file]]).
Proof.
  intros Hdest. unfold copy_artwork, FLAC_open. rewrite Hdest.
  pose proof (extract_pictures_fs source_file w) as [Hfs _].
  destruct (extract_pictures source_file w) as [pics w1]. simpl in Hfs |- *.
  split.
  - intros Hpics. destruct pics as [|pic pics]; [contradiction |]. simpl.
    split; [reflexivity |].
    unfold FLAC_save.
    match goal with
    | |- context [fold_left add_picture ?ps ?a] =>
        destruct (fold_add_picture_pictures ps a) as [Hp Ht];
        rewrite (fold_add_picture_filename ps a), Hp, Ht
    end.
    simpl. now rewrite Hfs.
  - intros ->. simpl. auto.
Qed.

End Artwork.

(** C5, as the claim has it, fails on a destination that has a picture when the
    source has none: [clear_pictures] empties the object in memory, nothing
    is saved, and the file on disk keeps its picture. *)
Lemma stale_picture_survives_missing_artwork :
  fs (start album_folder) !! "a/x.flac"
  = Some (FlacFile [("TITLE", "X")] [mkPicture "jpegdata" "image/jpeg" 3 "front"])
  /\ fst (extract_pictures "a/y.wav" (start album_folder)) = []
  /\ fst (copy_artwork "a/y.wav" "a/x.flac" (start album_folder)) = false
  /\ fs (snd (copy_artwork "a/y.wav" "a/x.flac" (start album_folder))) !! "a/x.flac"
     = Some (FlacFile [("TITLE", "X")] [mkPicture "jpegdata" "image/jpeg" 3 "front"]).
Proof. repeat split; vm_compute; reflexivity. Qed.

(** Artwork asked of a WAV source for a FLAC file that has a picture. *)
Lemma copy_artwork_replaces_or_leaves_witness :
  fs (start album_folder) !! "a/x.flac"
  = Some (FlacFile [("TITLE", "X")] [mkPicture "jpegdata" "image/jpeg" 3 "front"])
  /\ (fst (extract_pictures "a/y.wav" (start album_folder)) = [] ->
      fst (copy_artwork "a/y.wav" "a/x.flac" (start album_folder)) = false
      /\ fs (snd (copy_artwork "a/y.wav" "a/x.flac" (start album_folder)))
         = fs (start album_folder)
      /\ printed (snd (copy_artwork "a/y.wav" "a/x.flac" (start album_folder)))
         = printed (snd (extract_pictures "a/y.wav" (start album_folder)))
           ++ [Say "No artwork found in {}" [AStr "a/y.wav"]]).
Proof.
  split; [vm_compute; reflexivity |].
  exact (proj2 (copy_artwork_replaces_or_leaves "a/y.wav" "a/x.flac" (start album_folder)
                  [("TITLE", "X")] [mkPicture "jpegdata" "image/jpeg" 3 "front"]
                  ltac:(vm_compute; reflexivity))).
Defined.

(* ===================================================================== *)
(** ** The tag block (claim C7) *)
(* ===================================================================== *)

Section TagBlock.
Context {E : Externals}.

Lemma filter_filter_tags (P Q : string * string -> bool) (tags : list (string * string)) :
  filter (fun kv => Q kv = false) (filter (fun kv => P kv = false) tags)
  = filter (fun kv => (P kv || Q kv) = false) tags.
Proof.
  induction tags as [|kv rest IH]; [reflexivity |].
  destruct (P kv) eqn:HP.
  - rewrite (filter_cons_False (fun kv => P kv = false)) by congruence.
    rewrite (filter_cons_False (fun kv => (P kv || Q kv) = false))
      by (rewrite HP; discriminate).
    exact IH.
  - rewrite (filter_cons_True (fun kv => P kv = false)) by exact HP.
    destruct (Q kv) eqn:HQ.
    + rewrite (filter_cons_False (fun kv => Q kv = false)) by congruence.
      rewrite (filter_cons_False (fun kv => (P kv || Q kv) = false))
        by (rewrite HP, HQ; discriminate).
      exact IH.
    + rewrite (filter_cons_True (fun kv => Q kv = false)) by exact HQ.
      rewrite (filter_cons_True (fun kv => (P kv || Q kv) = false))
        by (rewrite HP, HQ; reflexivity).
      now rewrite IH.
Qed.

Lemma filter_ext_tags (P Q : string * string -> bool) (tags : list (string * string)) :
  (forall kv, P kv = Q kv) ->
  filter (fun kv => P kv = false) tags = filter (fun kv => Q kv = false) tags.
Proof.
  intros Hext. induction tags as [|kv rest IH]; [reflexivity |].
  destruct (P kv) eqn:HP.
  - rewrite (filter_cons_False (fun kv => P kv = false)) by congruence.
    rewrite (filter_cons_False (fun kv => Q kv = false)) by (rewrite <- Hext; congruence).
    exact IH.
  - rewrite (filter_cons_True (fun kv => P kv = false)) by exact HP.
    rewrite (filter_cons_True (fun kv => Q kv = false)) by (now rewrite <- Hext).
    now rewrite IH.
Qed.

(** The tags after the four assignments: the old pairs under other keys, then
    the four pairs. *)
Lemma stamped_tags (model : string) (audio : FLAC) :
  flac_tags (fold_left (fun a kv => FLAC_setitem a kv.1 kv.2) (tags_to_set model) audio)
  = filter (fun kv => is_stamped_key kv.1 = false) (flac_tags audio) ++ tags_to_set model
  /\ flac_pictures (fold_left (fun a kv => FLAC_setitem a kv.1 kv.2) (tags_to_set model) audio)
     = flac_pictures audio.
Proof.
  split; [| reflexivity].
  destruct audio as [name tags pics]. unfold tags_to_set. simpl. unfold vc_setitem. simpl.
  rewrite !filter_app. simpl.
  rewrite !filter_filter_tags.
  rewrite <- !app_assoc. simpl.
  f_equal.
  apply filter_ext_tags. intros [k v]. unfold is_stamped_key. simpl.
  now rewrite orb_false_r, !orb_assoc.
Qed.

Lemma same_key_stamped (k key : string) :
  same_key k key = true -> is_stamped_key k = is_stamped_key key.
Proof.
  unfold same_key, is_stamped_key. intros Heq. apply String.eqb_eq in Heq.
  simpl. unfold same_key. now rewrite Heq.
Qed.

Lemma same_key_sym (k1 k2 : string) : same_key k1 k2 = same_key k2 k1.
Proof. unfold same_key. apply String.eqb_sym. Qed.

(** Reading a key the block does not hold sees through the filter. *)
Lemma vc_getitem_filter_other (key : string) (tags : list (string * string)) :
  is_stamped_key key = false ->
  vc_getitem key (filter (fun kv => is_stamped_key kv.1 = false) tags) = vc_getitem key tags.
Proof.
  intros Hkey. unfold vc_getitem. f_equal.
  induction tags as [|[k v] rest IH]; [reflexivity |].
  destruct (same_key k key) eqn:Hk.
  - assert (Hs : is_stamped_key k = false) by now rewrite (same_key_stamped _ _ Hk).
    rewrite (filter_cons_True (fun kv => is_stamped_key kv.1 = false)) by exact Hs.
    rewrite !(filter_cons_True (fun kv => same_key kv.1 key = true)) by exact Hk.
    now rewrite IH.
  - rewrite (filter_cons_False (fun kv => same_key kv.1 key = true) (k, v))
      by (simpl; congruence).
    destruct (is_stamped_key k) eqn:Hs.
    + rewrite (filter_cons_False (fun kv => is_stamped_key kv.1 = false)) by (simpl; congruence).
      exact IH.
    + rewrite (filter_cons_True (fun kv => is_stamped_key kv.1 = false)) by exact Hs.
      rewrite (filter_cons_False (fun kv => same_key kv.1 key = true)) by (simpl; congruence).
      exact IH.
Qed.

(** Reading a key of the block finds nothing among the pairs that are kept. *)
Lemma vc_getitem_filter_stamped (key : string) (tags : list (string * string)) :
  is_stamped_key key = true ->
  vc_getitem key (filter (fun kv => is_stamped_key kv.1 = false) tags) = [].
Proof.
  intros Hkey. unfold vc_getitem.
  induction tags as [|[k v] rest IH]; [reflexivity |].
  destruct (is_stamped_key k) eqn:Hs.
  - rewrite (filter_cons_False (fun kv => is_stamped_key kv.1 = false)) by (simpl; congruence).
    exact IH.
  - rewrite (filter_cons_True (fun kv => is_stamped_key kv.1 = false)) by exact Hs.
    rewrite (filter_cons_False (fun kv => same_key kv.1 key = true)); [exact IH |].
    simpl. intros Hk. rewrite (same_key_stamped _ _ Hk) in Hs. congruence.
Qed.

Lemma vc_getitem_app (key : string) (t1 t2 : list (string * string)) :
  vc_getitem key (t1 ++ t2) = vc_getitem key t1 ++ vc_getitem key t2.
Proof. unfold vc_getitem. now rewrite filter_app, map_app. Qed.

Lemma vc_getitem_block_other (key model : string) :
  is_stamped_key key = false -> vc_getitem key (tags_to_set model) = [].
Proof.
  unfold is_stamped_key. simpl. intros Hkey.
  apply orb_false_elim in Hkey as [H1 Hkey].
  apply orb_false_elim in Hkey as [H2 Hkey].
  apply orb_false_elim in Hkey as [H3 Hkey].
  apply orb_false_elim in Hkey as [H4 _].
  unfold vc_getitem, tags_to_set.
  rewrite same_key_sym in H1, H2, H3, H4.
  repeat (rewrite filter_cons_False by (simpl; congruence)).
  reflexivity.
Qed.

(** A round that lists its output ends with the stamping step on it. *)
Lemma listed_round_ends_with_stamp (model : string) (comp : bool) (file : string)
    (l : list string) (w : World) :
  fst (main_iteration model comp file l w) = l ++ [output_filename file] ->
  exists w5,
    snd (main_iteration model comp file l w)
    = snd (set_flac_tags (output_filename file) (tags_to_set model) w5).
Proof.
  assert (Hne : l <> l ++ [output_filename file]).
  { intros Heq. apply (f_equal (@length string)) in Heq.
    rewrite length_app in Heq. simpl in Heq. lia. }
  unfold main_iteration.
  destruct (separate file _) as [ok1 w1].
  destruct ok1; simpl; [| intros Heq; now contradiction Hne].
  destruct (detect_peak_level wav_dir w1) as [[p|] w2];
    [| intros Heq; now contradiction Hne].
  destruct (if (-0.1 <? p)%float then _ else _) as [g w2'].
  destruct (merge_audio_files wav_dir (staging_file_of file) g w2') as [okm w3].
  destruct okm; simpl; [| intros Heq; now contradiction Hne].
  destruct (copy_metadata file (staging_file_of file) (output_filename file) comp w3)
    as [okr w4].
  destruct okr; simpl; [| intros Heq; now contradiction Hne].
  destruct (copy_artwork file (output_filename file) _) as [a w5].
  intros _. exists w5.
  now destruct (set_flac_tags (output_filename file) (tags_to_set model) w5).
Qed.

(** C7: a processed Track's round ends with the stamping step on its final
    output; on that output, a FLAC file, the step sets [COMMENT],
    [DESCRIPTION], [REPLAYGAIN_REFERENCE_LOUDNESS] and [REPLAYGAIN_ALGORITHM]
    to their literal values, each as the only value of its key, and writes
    nothing else: the pairs under every other key, the pictures and every
    other file stay as they were. *)
Theorem stamp_writes_exactly_four_tags (model file_path : string) (w : World)
    (tags : list (string * string)) (pics : list Picture) :
  fs w !! file_path = Some (FlacFile tags pics) ->
  set_flac_tags file_path (tags_to_set model) w
  = (true,
     set_fs (<[file_path :=
                 FlacFile (filter (fun kv => is_stamped_key kv.1 = false) tags
                           ++ [("COMMENT", "Drumless (Lossless)");
                               ("DESCRIPTION", "Stem Separation Model = " +:+ model);
                               ("REPLAYGAIN_REFERENCE_LOUDNESS", "-23 LUFS");
                               ("REPLAYGAIN_ALGORITHM", "ITU-R BS.1770")])
                          pics]> (fs w)) w)
  /\ (forall new,
        new = filter (fun kv => is_stamped_key kv.1 = false) tags ++ tags_to_set model ->
        vc_getitem "COMMENT" new = ["Drumless (Lossless)"]
        /\ vc_getitem "DESCRIPTION" new = ["Stem Separation Model = " +:+ model]
        /\ vc_getitem "REPLAYGAIN_REFERENCE_LOUDNESS" new = ["-23 LUFS"]
        /\ vc_getitem "REPLAYGAIN_ALGORITHM" new = ["ITU-R BS.1770"]
        /\ (forall key, is_stamped_key key = false ->
                        vc_getitem key new = vc_getitem key tags))
  /\ (forall comp file l w0,
        fst (main_iteration model comp file l w0) = l ++ [output_filename file] ->
        exists w5,
          snd (main_iteration model comp file l w0)
          = snd (set_flac_tags (output_filename file) (tags_to_set model) w5)).
Proof.
  intros Hfile. split; [| split].
  - unfold set_flac_tags, FLAC_open. rewrite Hfile. unfold FLAC_save.
    rewrite fold_setitem_filename.
    destruct (stamped_tags model (mkFLAC file_path tags pics)) as [-> ->]. reflexivity.
  - intros new ->. split; [| split; [| split; [| split]]].
    + rewrite vc_getitem_app, vc_getitem_filter_stamped by reflexivity. reflexivity.
    + rewrite vc_getitem_app, vc_getitem_filter_stamped by reflexivity. reflexivity.
    + rewrite vc_getitem_app, vc_getitem_filter_stamped by reflexivity. reflexivity.
    + rewrite vc_getitem_app, vc_getitem_filter_stamped by reflexivity. reflexivity.
    + intros key Hkey.
      rewrite vc_getitem_app, vc_getitem_filter_other, vc_getitem_block_other by exact Hkey.
      apply app_nil_r.
  - intros comp file l w0. apply listed_round_ends_with_stamp.
Qed.

End TagBlock.

(** The tag block written on a FLAC file that has a title and a picture. *)
Lemma stamp_writes_exactly_four_tags_witness :
  fs (start album_folder) !! "a/x.flac"
  = Some (FlacFile [("TITLE", "X")] [mkPicture "jpegdata" "image/jpeg" 3 "front"])
  /\ set_flac_tags "a/x.flac" (tags_to_set "htdemucs_ft.yaml") (start album_folder)
     = (true,
        set_fs (<["a/x.flac" :=
                    FlacFile [("TITLE", "X");
                              ("COMMENT", "Drumless (Lossless)");
                              ("DESCRIPTION", "Stem Separation Model = htdemucs_ft.yaml");
                              ("REPLAYGAIN_REFERENCE_LOUDNESS", "-23 LUFS");
                              ("REPLAYGAIN_ALGORITHM", "ITU-R BS.1770")]
                             [mkPicture "jpegdata" "image/jpeg" 3 "front"]]>
                  (fs (start album_folder))) (start album_folder)).
Proof.
  split; [vm_compute; reflexivity |].
  exact (proj1 (stamp_writes_exactly_four_tags (E:=scripted all_well) "htdemucs_ft.yaml"
                  "a/x.flac" (start album_folder) [("TITLE", "X")]
                  [mkPicture "jpegdata" "image/jpeg" 3 "front"]
                  ltac:(vm_compute; reflexivity))).
Defined.

(* ===================================================================== *)
(** ** The MP3 list (claim C8) *)
(* ===================================================================== *)

Lemma printed_since_app (w w' : World) (new : list Msg) :
  printed w' = printed w ++ new -> printed_since w w' = new.
Proof.
  intros Hp. unfold printed_since. rewrite Hp.
  rewrite List.skipn_app, List.skipn_all, Nat.sub_diag. reflexivity.
Qed.

Section Mp3List.
Context {E : Externals}.

Lemma detect_file_peak_level_inv (path : string) (w w' : World) (r : option float) :
  detect_file_peak_level path w = (r, w') ->
  printed w' = printed w
  /\ exists ok, events w' = events w ++ [EvRun (FfmpegFilePeak path) ok].
Proof.
  unfold detect_file_peak_level. intros Heq.
  destruct (run_command (FfmpegFilePeak path) true w) as [[ok out] w1] eqn:Hrun.
  apply run_command_inv in Hrun as (Hp & He & _).
  assert (Hw : w' = w1).
  { destruct (success_and_output ok out);
      [destruct (parse_max_volume (default EmptyString out)) |];
      now injection Heq. }
  subst w'. eauto.
Qed.

(** The transcoding step: it measures the file, and then either gives up
    with a message or runs the transcoding command, whose status it
    returns. *)
Lemma normalize_and_convert_to_mp3_inv (src out : string) (target : float)
    (w w' : World) (r : bool) :
  normalize_and_convert_to_mp3 src out target w = (r, w') ->
  (r = false
   /\ (exists ok, events w' = events w ++ [EvRun (FfmpegFilePeak src) ok])
   /\ printed w' = printed w ++ [Say "Error: Could not detect peak level for {}" [AStr src]])
  \/ (exists ok p,
        events w' = events w ++ [EvRun (FfmpegFilePeak src) ok;
                                 EvRun (FfmpegToMp3 src (target - p)%float out) r]
        /\ printed w'
           = printed w
             ++ [Say "  Current peak: {:.2f}dB, Target: {:.2f}dB, Adjustment: {:.2f}dB"
                     [AFloat p; AFloat target; AFloat (target - p)%float]]).
Proof.
  unfold normalize_and_convert_to_mp3. intros Heq.
  destruct (detect_file_peak_level src w) as [[p|] w1] eqn:Hpeak;
    apply detect_file_peak_level_inv in Hpeak as (Hp1 & ok & He1).
  - right.
    destruct (run_command _ false _) as [[ok2 o2] w2] eqn:Hrun.
    apply run_command_inv in Hrun as (Hp2 & He2 & _). simpl in Hp2, He2.
    injection Heq as <- <-.
    exists ok, p. split.
    + rewrite He2, He1, <- app_assoc. reflexivity.
    + rewrite Hp2, Hp1. reflexivity.
  - left. injection Heq as <- <-. simpl. split; [reflexivity |].
    split; [eauto | now rewrite Hp1].
Qed.

Lemma copy_metadata_flac_to_mp3_log (src dst : string) (w : World) :
  events (snd (copy_metadata_flac_to_mp3 src dst w)) = events w
  /\ printed (snd (copy_metadata_flac_to_mp3 src dst w))
     = printed w
       ++ (if fst (copy_metadata_flac_to_mp3 src dst w) then []
           else [Say "Error copying metadata from {} to {}: {}" [AStr src; AStr dst]]).
Proof.
  unfold copy_metadata_flac_to_mp3.
  destruct (FLAC_open src (fs w)); [destruct (MP3_open dst (fs w)) |]; simpl;
    split; try reflexivity; now rewrite app_nil_r.
Qed.

(** A round of the normalization loop either leaves the list alone, runs no
    successful transcoding and prints no metadata warning, or appends the MP3
    path after a successful transcoding. *)
Lemma normalization_round_cases (flac_file : string) (mp3_files : list string)
    (created : gset string) (w : World) :
  (fst (fst (normalization_round flac_file (mp3_files, created) w)) = mp3_files
   /\ Forall (fun e => forall s g o, e <> EvRun (FfmpegToMp3 s g o) true)
          (events_since w (snd (normalization_round flac_file (mp3_files, created) w)))
   /\ Forall (fun m => msg_text m <> "Warning: Failed to copy metadata for {}")
             (printed_since w (snd (normalization_round flac_file (mp3_files, created) w))))
  \/ (fst (fst (normalization_round flac_file (mp3_files, created) w))
      = mp3_files ++ [mp3_filename_of flac_file]
      /\ exists ok g,
          events_since w (snd (normalization_round flac_file (mp3_files, created) w))
          = [EvRun (FfmpegFilePeak flac_file) ok;
             EvRun (FfmpegToMp3 flac_file g (mp3_filename_of flac_file)) true]).
Proof.
  unfold normalization_round. fold (mp3_filename_of flac_file).
  destruct (os_path_exists flac_file w); simpl.
  2:{ left. split; [reflexivity |]. split.
      - rewrite (events_since_app _ _ []); [constructor | simpl; now rewrite app_nil_r].
      - rewrite (printed_since_app _ _ [Say "Warning: {} not found, skipping..."
                                            [AStr flac_file]]); [| reflexivity].
        repeat constructor. simpl. discriminate. }
  assert (Hdir : forall d, events (os_makedirs d w) = events w
                          /\ printed (os_makedirs d w) = printed w).
  { intros d. unfold os_makedirs. destruct (fs w !! d); split; reflexivity. }
  destruct (bool_decide (_ ∈ created)); simpl;
    match goal with
    | |- context [normalize_and_convert_to_mp3 _ _ _ ?w0] =>
        assert (Hw0 : events w0 = events w
                      /\ exists pre, printed w0 = printed w ++ pre
                         /\ Forall (fun m => msg_text m
                                             <> "Warning: Failed to copy metadata for {}") pre)
          by (simpl; rewrite ?(proj1 (Hdir _)), ?(proj2 (Hdir _)); split; [reflexivity |];
              eexists; split; [rewrite <- ?app_assoc; reflexivity |];
              repeat constructor; simpl; discriminate);
        destruct Hw0 as (He0 & pre & Hp0 & Hpre);
        destruct (normalize_and_convert_to_mp3 flac_file (mp3_filename_of flac_file)
                    (-0.1)%float w0) as [ok w1] eqn:Hnorm
    end;
    (apply normalize_and_convert_to_mp3_inv in Hnorm
      as [(-> & (okp & He1) & Hp1) | (okp & p & He1 & Hp1)];
     [| destruct ok]); simpl.
  (* the file could not be measured *)
  1,4: left; (split; [reflexivity |]); split;
    [ rewrite (events_since_app _ _ [EvRun (FfmpegFilePeak flac_file) okp]);
      [repeat constructor; intros s g o; discriminate | simpl; congruence]
    | erewrite printed_since_app;
      [| simpl; rewrite Hp1, Hp0, <- !app_assoc; reflexivity];
      apply Forall_app; split; [exact Hpre |]; repeat constructor; simpl; discriminate ].
  (* the transcoding succeeded *)
  1,3: right;
    destruct (copy_metadata_flac_to_mp3 flac_file (mp3_filename_of flac_file) w1)
      as [mok w2] eqn:Hmeta;
    pose proof (copy_metadata_flac_to_mp3_log flac_file (mp3_filename_of flac_file) w1)
      as [He2 _];
    rewrite Hmeta in He2; simpl in He2; simpl;
    (split; [reflexivity |]);
    exists okp, (-0.1 - p)%float; apply events_since_app;
    destruct mok; simpl; congruence.
  (* the transcoding failed *)
  all: left; (split; [reflexivity |]); split;
    [ erewrite events_since_app; [| simpl; rewrite He1, He0; reflexivity];
      repeat constructor; intros s g o; discriminate
    | erewrite printed_since_app;
      [| simpl; rewrite Hp1, Hp0, <- !app_assoc; reflexivity];
      apply Forall_app; split; [exact Hpre |]; repeat constructor; simpl; discriminate ].
Qed.

(** C8: a round of the normalization loop appends the MP3 path exactly when
    its transcoding command came back with success.  A file that is missing,
    cannot be measured or fails to transcode leaves the list as it was; a
    failed metadata copy is only logged: whenever its warning is printed, the
    path is in the list. *)
Theorem mp3_listed_iff_transcoded (flac_file : string) (mp3_files : list string)
    (created : gset string) (w : World) :
  (fst (fst (normalization_round flac_file (mp3_files, created) w))
   = mp3_files ++ [mp3_filename_of flac_file]
   <-> exists g,
        In (EvRun (FfmpegToMp3 flac_file g (mp3_filename_of flac_file)) true)
           (events_since w (snd (normalization_round flac_file (mp3_files, created) w))))
  /\ (fst (fst (normalization_round flac_file (mp3_files, created) w))
      <> mp3_files ++ [mp3_filename_of flac_file]
      -> fst (fst (normalization_round flac_file (mp3_files, created) w)) = mp3_files)
  /\ (In (metadata_warning (mp3_filename_of flac_file))
         (printed_since w (snd (normalization_round flac_file (mp3_files, created) w)))
      -> fst (fst (normalization_round flac_file (mp3_files, created) w))
         = mp3_files ++ [mp3_filename_of flac_file]).
Proof.
  assert (Hne : mp3_files <> mp3_files ++ [mp3_filename_of flac_file]).
  { intros Heq. apply (f_equal (@length string)) in Heq.
    rewrite length_app in Heq. simpl in Heq. lia. }
  destruct (normalization_round_cases flac_file mp3_files created w)
    as [(Hl & Hev & Hpr) | (Hl & okp & g & Hev)]; rewrite Hl.
  - split; [| split].
    + split; [intros Heq; now contradiction Hne |].
      intros (g & Hin). rewrite Forall_forall in Hev.
      apply list_elem_of_In in Hin.
      now contradiction (Hev _ Hin flac_file g (mp3_filename_of flac_file)).
    + reflexivity.
    + intros Hin. rewrite Forall_forall in Hpr.
      apply list_elem_of_In in Hin. apply Hpr in Hin. now contradiction Hin.
  - split; [| split].
    + split; [intros _ | reflexivity]. exists g. rewrite Hev. simpl. auto.
    + intros Hc. now contradiction Hc.
    + reflexivity.
Qed.

End Mp3List.

(** A final output that is no FLAC file: the metadata warning is printed, and
    the MP3 path is in the list. *)
Lemma mp3_listed_iff_transcoded_witness :
  In (metadata_warning (mp3_filename_of "a/y.wav"))
     (printed_since (start album_folder)
        (snd (normalization_round (E:=scripted all_well) "a/y.wav" ([], ∅)
                (start album_folder))))
  /\ fst (fst (normalization_round (E:=scripted all_well) "a/y.wav" ([], ∅)
                 (start album_folder)))
     = [] ++ [mp3_filename_of "a/y.wav"].
Proof.
  assert (Hin : In (metadata_warning (mp3_filename_of "a/y.wav"))
                   (printed_since (start album_folder)
                      (snd (normalization_round (E:=scripted all_well) "a/y.wav" ([], ∅)
                              (start album_folder)))))
    by (vm_compute; tauto).
  split; [exact Hin |].
  exact (proj2 (proj2 (mp3_listed_iff_transcoded (E:=scripted all_well) "a/y.wav" [] ∅
                         (start album_folder))) Hin).
Defined.

(** A final output that is no FLAC file: the transcoding succeeds, the
    metadata copy fails with its warning, and the MP3 is in the list. *)
Example metadata_failure_keeps_mp3 :
  fst (fst (normalization_round (E:=scripted all_well) "a/y.wav" ([], ∅) (start album_folder)))
  = ["a/Normalised/y.mp3"]
  /\ fst (copy_metadata_flac_to_mp3 "a/y.wav" "a/Normalised/y.mp3"
            (snd (normalization_round (E:=scripted all_well) "a/y.wav" ([], ∅)
                    (start album_folder)))) = false
  /\ In (metadata_warning "a/Normalised/y.mp3")
        (printed (snd (normalization_round (E:=scripted all_well) "a/y.wav" ([], ∅)
                         (start album_folder)))).
Proof.
  split; [vm_compute; reflexivity |]. split; [vm_compute; reflexivity |].
  vm_compute. tauto.
Qed.

(* ===================================================================== *)
(** ** The loudness adapter discards the status (claim C10) *)
(* ===================================================================== *)

(** Use a step lemma at the next call in the goal: the value it returns is
    named, the hypothesis that the states are alike moves on to the states
    after the call. *)
Tactic Notation "follow" constr(L) "as" ident(v) :=
  lazymatch goal with
  | Hw : alike ?w1 ?w2 |- _ =>
      let Hv := fresh "Hv" in
      let Ha := fresh "Ha" in
      let v' := fresh "other" in
      destruct (L w1 w2 Hw) as [Hv Ha];
      lazymatch type of Hv with
      | fst ?c1 = fst ?c2 => destruct c1 as [v ?], c2 as [v' ?]
      end;
      simpl in Hv, Ha; subst v'; clear Hw; rename Ha into Hw
  end.

Tactic Notation "follow_quiet" constr(L) :=
  lazymatch goal with
  | Hw : alike ?w1 ?w2 |- _ =>
      let Ha := fresh "Ha" in
      pose proof (L w1 w2 Hw) as Ha; cbv beta in Ha; clear Hw; rename Ha into Hw
  end.

Section StatusDiscarded.
Context {E : Externals}.
Variable status : Cmd -> gmap string Node -> bool.

Local Abbreviation E' := (with_rsgain_status status E).

Lemma alike_refl (w : World) : alike w w.
Proof. repeat split. Qed.

Lemma print_alike (text : string) (args : list Arg) :
  in_step_quiet (print text args) (print text args).
Proof.
  intros w1 w2 (Hf & Hp & He). repeat split; simpl; congruence.
Qed.

Lemma rmtree_if_exists_alike (p : string) :
  in_step_quiet (fun w => if os_path_exists p w then shutil_rmtree p w else w)
                (fun w => if os_path_exists p w then shutil_rmtree p w else w).
Proof.
  intros w1 w2 Hw. pose proof Hw as (Hf & Hp & He).
  unfold os_path_exists, shutil_rmtree. rewrite Hf.
  destruct (bool_decide _); [| exact Hw].
  repeat split; simpl; congruence.
Qed.

Lemma remove_if_exists_alike (p : string) :
  in_step_quiet (fun w => if os_path_exists p w then os_remove p w else w)
                (fun w => if os_path_exists p w then os_remove p w else w).
Proof.
  intros w1 w2 Hw. pose proof Hw as (Hf & Hp & He).
  unfold os_path_exists, os_remove. rewrite Hf.
  destruct (bool_decide _); [| exact Hw].
  repeat split; simpl; congruence.
Qed.

Lemma separate_alike (file : string) :
  in_step (separate (E:=E) file) (separate (E:=E') file).
Proof.
  intros w1 w2 (Hf & Hp & He). unfold separate. simpl. rewrite Hf.
  destruct (separator_separate file (fs w2)) as [ok f]. simpl.
  repeat split; simpl; try congruence.
  now rewrite !map_app, He.
Qed.

(** A command that is not an rsgain command runs the same. *)
Lemma run_command_alike (cmd : Cmd) (capture : bool) :
  is_rsgain cmd = false ->
  in_step (run_command (E:=E) cmd capture) (run_command (E:=E') cmd capture).
Proof.
  intros Hcmd w1 w2 (Hf & Hp & He). unfold run_command.
  assert (Hrun : subprocess_run (Externals:=E') cmd (fs w2) = subprocess_run cmd (fs w2))
    by (destruct cmd; try reflexivity; discriminate).
  rewrite Hrun, Hf.
  destruct (@subprocess_run E cmd (fs w2)) as [[ok out] f].
  destruct ok; [destruct capture |]; simpl; repeat split; simpl; try congruence.
  all: now rewrite !map_app, He.
Qed.

(** An rsgain command leads to states alike whatever status it reports. *)
Lemma run_rsgain_alike (cmd : Cmd) :
  is_rsgain cmd = true ->
  in_step_quiet (fun w => snd (run_command (E:=E) cmd false w))
                (fun w => snd (run_command (E:=E') cmd false w)).
Proof.
  intros Hcmd w1 w2 (Hf & Hp & He). unfold run_command.
  assert (Hrun : subprocess_run (Externals:=E') cmd (fs w2)
                 = let '((_, out), f') := subprocess_run cmd (fs w2) in
                   ((status cmd (fs w2), out), f'))
    by (destruct cmd; try reflexivity; discriminate).
  rewrite Hrun, Hf.
  destruct (@subprocess_run E cmd (fs w2)) as [[ok out] f].
  destruct ok, (status cmd (fs w2)); simpl; repeat split; simpl; try congruence;
    rewrite !map_app, He; destruct cmd; try discriminate; reflexivity.
Qed.

Lemma apply_replaygain_track_alike (p : string) :
  in_step_quiet (fun w => snd (apply_replaygain_track (E:=E) p w))
                (fun w => snd (apply_replaygain_track (E:=E') p w)).
Proof.
  intros w1 w2 Hw. unfold apply_replaygain_track.
  pose proof (run_rsgain_alike (RsgainTrack p) eq_refl w1 w2 Hw) as Ha.
  cbv beta in Ha. revert Ha.
  destruct (run_command (E:=E) (RsgainTrack p) false w1) as [[? ?] ?].
  destruct (run_command (E:=E') (RsgainTrack p) false w2) as [[? ?] ?].
  trivial.
Qed.

Lemma apply_replaygain_album_alike (ps : list string) :
  in_step_quiet (fun w => snd (apply_replaygain_album (E:=E) ps w))
                (fun w => snd (apply_replaygain_album (E:=E') ps w)).
Proof.
  intros w1 w2 Hw. unfold apply_replaygain_album.
  pose proof (run_rsgain_alike (RsgainAlbum ps) eq_refl w1 w2 Hw) as Ha.
  cbv beta in Ha. revert Ha.
  destruct (run_command (E:=E) (RsgainAlbum ps) false w1) as [[? ?] ?].
  destruct (run_command (E:=E') (RsgainAlbum ps) false w2) as [[? ?] ?].
  trivial.
Qed.

Lemma detect_peak_level_alike (d : string) :
  in_step (detect_peak_level (E:=E) d) (detect_peak_level (E:=E') d).
Proof.
  intros w1 w2 Hw. pose proof Hw as (Hf & _). unfold detect_peak_level. rewrite Hf.
  destruct (sorted _) as [|s0 sel]; [now split |].
  follow (run_command_alike (FfmpegMixPeak (s0 :: sel) (length (s0 :: sel))) true eq_refl)
    as res.
  destruct res as [ok out]. simpl.
  destruct (success_and_output ok out); [| now split].
  change (@parse_max_volume E') with (@parse_max_volume E).
  destruct (parse_max_volume _); now split.
Qed.

Lemma detect_file_peak_level_alike (path : string) :
  in_step (detect_file_peak_level (E:=E) path) (detect_file_peak_level (E:=E') path).
Proof.
  intros w1 w2 Hw. unfold detect_file_peak_level.
  follow (run_command_alike (FfmpegFilePeak path) true eq_refl) as res.
  destruct res as [ok out]. simpl.
  destruct (success_and_output ok out); [| now split].
  change (@parse_max_volume E') with (@parse_max_volume E).
  destruct (parse_max_volume _); now split.
Qed.

Lemma merge_audio_files_alike (d out : string) (g : option float) :
  in_step (merge_audio_files (E:=E) d out g) (merge_audio_files (E:=E') d out g).
Proof.
  intros w1 w2 Hw. pose proof Hw as (Hf & _). unfold merge_audio_files. rewrite Hf.
  destruct (sorted _) as [|s0 sel]; [now split |].
  follow (run_command_alike (FfmpegMerge (s0 :: sel) (length (s0 :: sel)) g out) false eq_refl)
    as res.
  destruct res as [ok o]. now split.
Qed.

Lemma copy_metadata_alike (src audio out : string) (comp : bool) :
  in_step (copy_metadata (E:=E) src audio out comp) (copy_metadata (E:=E') src audio out comp).
Proof.
  intros w1 w2 Hw. unfold copy_metadata. destruct comp.
  - follow (run_command_alike (FfmpegRemux src audio out true) false eq_refl) as res.
    destruct res as [ok o]. now split.
  - follow (run_command_alike (FfmpegRemux src audio out false) false eq_refl) as res.
    destruct res as [ok o]. now split.
Qed.

(** The mutagen steps read the files only. *)
Lemma set_flac_tags_alike (path : string) (t : list (string * string)) :
  in_step (set_flac_tags path t) (set_flac_tags path t).
Proof.
  intros w1 w2 Hw. pose proof Hw as (Hf & Hp & He). unfold set_flac_tags. rewrite Hf.
  destruct (FLAC_open path (fs w2)); [destruct (forallb _ t) |];
    simpl; repeat split; simpl; congruence.
Qed.

Lemma extract_pictures_alike (source : string) :
  in_step (extract_pictures source) (extract_pictures source).
Proof.
  intros w1 w2 Hw. pose proof Hw as (Hf & Hp & He). unfold extract_pictures. rewrite Hf.
  repeat match goal with
         | |- context [if ?b then _ else _] => destruct b
         | |- context [match ?x with _ => _ end] => destruct x
         end; simpl; repeat split; simpl; congruence.
Qed.

Lemma copy_artwork_alike (src dst : string) :
  in_step (copy_artwork src dst) (copy_artwork src dst).
Proof.
  intros w1 w2 Hw. pose proof Hw as (Hf & _). unfold copy_artwork. rewrite Hf.
  destruct (FLAC_open dst (fs w2)) as [audio|].
  - follow (extract_pictures_alike src) as source_pictures.
    destruct source_pictures as [|pic pics].
    + split; [reflexivity |]. now apply print_alike.
    + split; [reflexivity |]. destruct Hw as (Hf' & Hp' & He').
      repeat split; simpl; congruence.
  - split; [reflexivity |]. now apply print_alike.
Qed.

Lemma copy_metadata_flac_to_mp3_alike (src dst : string) :
  in_step (copy_metadata_flac_to_mp3 src dst) (copy_metadata_flac_to_mp3 src dst).
Proof.
  intros w1 w2 Hw. pose proof Hw as (Hf & Hp & He). unfold copy_metadata_flac_to_mp3.
  rewrite Hf.
  destruct (FLAC_open src (fs w2)); [destruct (MP3_open dst (fs w2)) |];
    simpl; repeat split; simpl; congruence.
Qed.

Lemma stamp_mp3_reference_tags_alike (path : string) :
  in_step_quiet (stamp_mp3_reference_tags path) (stamp_mp3_reference_tags path).
Proof.
  intros w1 w2 Hw. pose proof Hw as (Hf & Hp & He). unfold stamp_mp3_reference_tags.
  rewrite Hf. destruct (MP3_open path (fs w2)); repeat split; simpl; congruence.
Qed.

Lemma os_makedirs_alike (path : string) :
  in_step_quiet (os_makedirs path) (os_makedirs path).
Proof.
  intros w1 w2 Hw. pose proof Hw as (Hf & Hp & He). unfold os_makedirs.
  rewrite Hf. destruct (fs w2 !! path); [exact Hw |]. repeat split; simpl; congruence.
Qed.

Lemma normalize_and_convert_to_mp3_alike (src out : string) (target : float) :
  in_step (normalize_and_convert_to_mp3 (E:=E) src out target)
          (normalize_and_convert_to_mp3 (E:=E') src out target).
Proof.
  intros w1 w2 Hw. unfold normalize_and_convert_to_mp3.
  follow (detect_file_peak_level_alike src) as peak_level.
  destruct peak_level as [p|].
  - follow_quiet (print_alike "  Current peak: {:.2f}dB, Target: {:.2f}dB, Adjustment: {:.2f}dB"
                              [AFloat p; AFloat target; AFloat (target - p)%float]).
    follow (run_command_alike (FfmpegToMp3 src (target - p)%float out) false eq_refl) as res.
    destruct res as [ok o]. now split.
  - split; [reflexivity |]. now apply print_alike.
Qed.

Lemma normalization_round_alike (flac_file : string) (vars : list string * gset string) :
  in_step (normalization_round (E:=E) flac_file vars)
          (normalization_round (E:=E') flac_file vars).
Proof.
  intros w1 w2 Hw. pose proof Hw as (Hf & _).
  unfold normalization_round. destruct vars as [mp3_files created].
  fold (mp3_filename_of flac_file).
  assert (Hex : os_path_exists flac_file w1 = os_path_exists flac_file w2)
    by (unfold os_path_exists; now rewrite Hf).
  rewrite Hex. destruct (os_path_exists flac_file w2); simpl.
  2:{ split; [reflexivity |]. now apply print_alike. }
  destruct (bool_decide (_ ∈ created)).
  - follow_quiet (print_alike "\nProcessing: {}" [AStr flac_file]).
    follow (normalize_and_convert_to_mp3_alike flac_file (mp3_filename_of flac_file)
              (-0.1)%float) as success.
    destruct success; simpl.
    + follow (copy_metadata_flac_to_mp3_alike flac_file (mp3_filename_of flac_file))
        as metadata_success.
      split; [reflexivity |]. apply print_alike.
      destruct metadata_success; simpl; [exact Hw | now apply print_alike].
    + split; [reflexivity |]. now apply print_alike.
  - follow_quiet (os_makedirs_alike
                    (OsPath.join (str_or (OsPath.dirname flac_file) ".") "Normalised")).
    follow_quiet (print_alike "Created '{}' folder"
                    [AStr (OsPath.join (str_or (OsPath.dirname flac_file) ".") "Normalised")]).
    follow_quiet (print_alike "\nProcessing: {}" [AStr flac_file]).
    follow (normalize_and_convert_to_mp3_alike flac_file (mp3_filename_of flac_file)
              (-0.1)%float) as success.
    destruct success; simpl.
    + follow (copy_metadata_flac_to_mp3_alike flac_file (mp3_filename_of flac_file))
        as metadata_success.
      split; [reflexivity |]. apply print_alike.
      destruct metadata_success; simpl; [exact Hw | now apply print_alike].
    + split; [reflexivity |]. now apply print_alike.
Qed.

Lemma normalization_loop_alike (files : list string) (vars : list string * gset string) :
  in_step (normalization_loop (E:=E) files vars) (normalization_loop (E:=E') files vars).
Proof.
  revert vars. induction files as [|flac_file rest IH]; intros vars w1 w2 Hw; simpl.
  - now split.
  - follow (normalization_round_alike flac_file vars) as vars'. now apply IH.
Qed.

Lemma fold_quiet_alike (step1 step2 : World -> string -> World) (l : list string) :
  (forall x, in_step_quiet (fun w => step1 w x) (fun w => step2 w x)) ->
  in_step_quiet (fun w => fold_left step1 l w) (fun w => fold_left step2 l w).
Proof.
  intros Hstep. induction l as [|x rest IH]; intros w1 w2 Hw; simpl; [exact Hw |].
  apply IH. now apply Hstep.
Qed.

Lemma process_normalization_alike (final_files_list : list string) (comp : bool) :
  in_step (process_normalization (E:=E) final_files_list comp)
          (process_normalization (E:=E') final_files_list comp).
Proof.
  intros w1 w2 Hw. unfold process_normalization.
  follow_quiet (print_alike "\n\n=== Starting Normalization Process ===" []).
  follow (normalization_loop_alike final_files_list ([], ∅)) as vars.
  destruct vars as [mp3_files created]. simpl.
  split; [reflexivity |].
  apply print_alike, print_alike.
  destruct mp3_files as [|m ms]; [exact Hw |].
  apply (fold_quiet_alike (fun w f => stamp_mp3_reference_tags f w)
                          (fun w f => stamp_mp3_reference_tags f w)).
  { intros x. apply stamp_mp3_reference_tags_alike. }
  apply print_alike.
  destruct comp.
  - apply (fold_quiet_alike (fun w f => snd (apply_replaygain_track (E:=E) f w))
                            (fun w f => snd (apply_replaygain_track (E:=E') f w))).
    { intros x. apply apply_replaygain_track_alike. }
    now apply print_alike.
  - apply apply_replaygain_album_alike. now apply print_alike.
Qed.

Lemma main_iteration_alike (model : string) (comp : bool) (file : string) (l : list string) :
  in_step (main_iteration (E:=E) model comp file l) (main_iteration (E:=E') model comp file l).
Proof.
  intros w1 w2 Hw. unfold main_iteration.
  follow_quiet (print_alike "Processing: {}" [AStr file]).
  follow (separate_alike file) as success.
  destruct success; simpl.
  2:{ split; [reflexivity |]. apply rmtree_if_exists_alike. now apply print_alike. }
  follow (detect_peak_level_alike wav_dir) as peak_level.
  destruct peak_level as [p|].
  2:{ split; [reflexivity |]. apply rmtree_if_exists_alike. now apply print_alike. }
  assert (Hg : exists g m, forall w,
             (if (-0.1 <? p)%float
              then (Some (- (p + 0.1))%float,
                    print "Peak detected at {}dB. Applying {}dB reduction to prevent clipping."
                          [AFloat p; AFloat (- (p + 0.1))%float] w)
              else (None, print "Peak at {}dB - no clipping protection needed." [AFloat p] w))
             = (g, print (msg_text m) (msg_args m) w)).
  { destruct (-0.1 <? p)%float; eexists; eexists (Say _ _); reflexivity. }
  destruct Hg as (g & m & Hg). rewrite !Hg.
  follow_quiet (print_alike (msg_text m) (msg_args m)).
  follow (merge_audio_files_alike wav_dir (staging_file_of file) g) as merge_success.
  destruct merge_success; simpl.
  2:{ split; [reflexivity |].
      apply rmtree_if_exists_alike, remove_if_exists_alike. now apply print_alike. }
  follow (copy_metadata_alike file (staging_file_of file) (output_filename file) comp)
    as metadata_success.
  destruct metadata_success; simpl.
  2:{ split; [reflexivity |].
      apply rmtree_if_exists_alike, remove_if_exists_alike. now apply print_alike. }
  match type of Hw with
  | alike ?wa ?wb =>
      assert (Hrg : alike (if comp
                           then snd (apply_replaygain_track (E:=E) (output_filename file) wa)
                           else wa)
                          (if comp
                           then snd (apply_replaygain_track (E:=E') (output_filename file) wb)
                           else wb))
        by (destruct comp; [now apply apply_replaygain_track_alike | exact Hw]);
      clear Hw; rename Hrg into Hw
  end.
  follow_quiet (remove_if_exists_alike (staging_file_of file)).
  follow_quiet (rmtree_if_exists_alike wav_dir).
  follow (copy_artwork_alike file (output_filename file)) as artwork.
  follow (set_flac_tags_alike (output_filename file) (tags_to_set model)) as tagged.
  now split.
Qed.

Lemma main_loop_alike (model : string) (comp : bool) (audio_files l : list string) :
  in_step (main_loop (E:=E) model comp audio_files l) (main_loop (E:=E') model comp audio_files l).
Proof.
  revert l. induction audio_files as [|file rest IH]; intros l w1 w2 Hw; simpl.
  - now split.
  - follow (main_iteration_alike model comp file l) as l'. now apply IH.
Qed.

Lemma main_processing_alike (model : string) (comp : bool) (audio_files : list string) :
  in_step (main_processing (E:=E) model comp audio_files)
          (main_processing (E:=E') model comp audio_files).
Proof.
  intros w1 w2 Hw. unfold main_processing.
  follow (main_loop_alike model comp audio_files []) as final_files_list.
  split; [reflexivity |].
  apply print_alike, (rmtree_if_exists_alike "separated").
  destruct final_files_list as [|f fs0]; [exact Hw |].
  destruct comp; cbn [negb]; [exact Hw |].
  apply (fold_quiet_alike (fun w f => snd (set_flac_tags f album_tags_to_set w))
                          (fun w f => snd (set_flac_tags f album_tags_to_set w))).
  { intros x w3 w4 Hw'. now apply set_flac_tags_alike. }
  now apply apply_replaygain_album_alike.
Qed.

Lemma main_alike (model : string) (comp norm : bool) (audio_files : list string) :
  in_step (main (E:=E) model comp norm audio_files) (main (E:=E') model comp norm audio_files).
Proof.
  intros w1 w2 Hw. unfold main.
  destruct audio_files as [|file rest].
  { split; [reflexivity |]. now apply print_alike. }
  follow (main_processing_alike model comp (file :: rest)) as final_files_list.
  destruct norm, final_files_list as [|f fs0]; simpl;
    try (split; [reflexivity | now apply print_alike]).
  follow (process_normalization_alike (f :: fs0) comp) as mp3_files.
  split; [reflexivity |]. now apply print_alike.
Qed.

(** C10: the loudness steps return nothing and print nothing, and no step of
    the run looks at the status of an rsgain command: with collaborators that
    differ only in that status, the run gives the same result list and the
    same MP3 list, prints the same lines, leaves the same files and makes the
    same calls in the same order. *)
Theorem rsgain_status_is_discarded (model : string) (comp norm : bool)
    (audio_files : list string) (w : World) :
  fst (main (E:=with_rsgain_status status E) model comp norm audio_files w)
  = fst (main (E:=E) model comp norm audio_files w)
  /\ printed (snd (main (E:=with_rsgain_status status E) model comp norm audio_files w))
     = printed (snd (main (E:=E) model comp norm audio_files w))
  /\ fs (snd (main (E:=with_rsgain_status status E) model comp norm audio_files w))
     = fs (snd (main (E:=E) model comp norm audio_files w))
  /\ map forget_rsgain_status
         (events (snd (main (E:=with_rsgain_status status E) model comp norm audio_files w)))
     = map forget_rsgain_status (events (snd (main (E:=E) model comp norm audio_files w)))
  /\ (forall p w0, fst (apply_replaygain_track (E:=E) p w0) = tt
                   /\ printed (snd (apply_replaygain_track (E:=E) p w0)) = printed w0)
  /\ (forall ps w0, fst (apply_replaygain_album (E:=E) ps w0) = tt
                    /\ printed (snd (apply_replaygain_album (E:=E) ps w0)) = printed w0).
Proof.
  destruct (main_alike model comp norm audio_files w w (alike_refl w))
    as (Hv & Hf & Hp & He).
  repeat split; try congruence.
  - now destruct (fst (apply_replaygain_track p w0)).
  - apply apply_replaygain_track_inv.
  - now destruct (fst (apply_replaygain_album ps w0)).
  - apply apply_replaygain_album_inv.
Qed.

End StatusDiscarded.

(** A compilation run with normalisation over the album folder, once with an
    rsgain that reports success and once with one that always fails: the same
    two lists. *)
Lemma rsgain_status_is_discarded_witness :
  fst (main (E:=with_rsgain_status (fun _ _ => false) (scripted all_well)) "model" true true
            ["a/x.flac"; "a/y.wav"] (start album_folder))
  = fst (main (E:=scripted all_well) "model" true true ["a/x.flac"; "a/y.wav"]
              (start album_folder))
  /\ fst (main (E:=scripted all_well) "model" true true ["a/x.flac"; "a/y.wav"]
               (start album_folder))
     = (["a/x - Drumless.flac"; "a/y - Drumless.flac"],
        ["a/Normalised/x - Drumless.mp3"; "a/Normalised/y - Drumless.mp3"]).
Proof.
  split; [| vm_compute; reflexivity].
  exact (proj1 (rsgain_status_is_discarded (E:=scripted all_well) (fun _ _ => false)
                  "model" true true ["a/x.flac"; "a/y.wav"] (start album_folder))).
Defined.

(* ===================================================================== *)
(** ** File discovery (claim C6) *)
(* ===================================================================== *)

Section Discovery.
Variable extensions : gset string.
Context {I : Interpreter}.

(** Induction on a tree, with the hypothesis for every sub-directory. *)
Lemma Tree_nested_ind (P : Tree -> Prop) :
  (forall dirnames filenames,
      Forall (fun dt => P (snd dt)) dirnames -> P (Folder dirnames filenames)) ->
  forall t, P t.
Proof.
  intros Hstep.
  fix IH 1. intros [dirnames filenames]. apply Hstep.
  induction dirnames as [|[d sub] rest IHrest]; constructor; [apply IH | exact IHrest].
Qed.

(** The files [os.walk] reaches below [rel], with the pruning applied. *)
Lemma walk_audio_spec (t : Tree) :
  forall rel p,
    In p (walk_audio extensions rel t)
    <-> exists ds f,
        file_at t ds f
        /\ forallb keep_dir ds = true
        /\ has_supported_extension extensions f = true
        /\ p = rel_join (fold_left rel_join ds rel) f.
Proof.
  induction t as [dirnames filenames IHsub] using Tree_nested_ind. intros rel p.
  cbn [walk_audio]. rewrite in_app_iff. split.
  - intros [Hfile | Hdir].
    + apply in_map_iff in Hfile as (f & <- & Hf).
      apply list_elem_of_In, list_elem_of_filter in Hf as [Hext Hf].
      apply list_elem_of_In in Hf.
      exists [], f. repeat split; [now constructor | exact Hext].
    + induction dirnames as [|[d sub] rest IHrest]; [destruct Hdir |].
      inversion IHsub as [|? ? Hsub Hrest]; subst.
      destruct (keep_dir d) eqn:Hkeep.
      * apply in_app_iff in Hdir as [Hhere | Hlater].
        -- apply Hsub in Hhere as (ds & f & Hat & Hds & Hext & ->).
           exists (d :: ds), f. repeat split; try assumption.
           ++ apply (file_below _ _ d sub); [now left | exact Hat].
           ++ simpl. now rewrite Hkeep.
        -- destruct (IHrest Hrest Hlater) as (ds & f & Hat & Hds & Hext & ->).
           exists ds, f. repeat split; try assumption.
           inversion Hat; subst; [now constructor |].
           eapply file_below; [right; eassumption | assumption].
      * destruct (IHrest Hrest Hdir) as (ds & f & Hat & Hds & Hext & ->).
        exists ds, f. repeat split; try assumption.
        inversion Hat; subst; [now constructor |].
        eapply file_below; [right; eassumption | assumption].
  - intros (ds & f & Hat & Hds & Hext & ->).
    inversion Hat as [? ? ? Hf | ? ? d sub ds' ? Hd Hsubat]; subst.
    + left. apply in_map_iff. exists f. split; [reflexivity |].
      apply list_elem_of_In, list_elem_of_filter. split; [exact Hext |].
      now apply list_elem_of_In.
    + right. simpl in Hds. apply andb_prop in Hds as [Hkeep Hds].
      clear Hat. induction dirnames as [|[d0 sub0] rest IHrest]; [destruct Hd |].
      inversion IHsub as [|? ? Hsub Hrest]; subst.
      destruct Hd as [Heq | Hd].
      * injection Heq as -> ->. rewrite Hkeep. apply in_app_iff. left.
        apply Hsub. exists ds', f. repeat split; assumption.
      * destruct (keep_dir d0); [apply in_app_iff; right |]; now apply IHrest.
Qed.














End Discovery.

(** A folder after a first run: the generated folders are skipped at both
    depths, the earlier outputs are picked up, the order ignores case. *)
Example discovery_skips_generated_folders :
  find_audio_files (I:=latin1) processed_tree SUPPORTED_INPUT_EXTENSIONS
  = ["a - Drumless.flac"; "Album/01 a.wav"; "Album/02 b.FLAC"; "Zed.mp3"].
Proof. vm_compute. reflexivity. Qed.

(** Accented names: the capital E with acute lowers to the small one, so the
    digit after it decides, whichever way the host lists the files. *)
Example discovery_folds_accented_letters :
  find_audio_files (I:=latin1) (Folder [] ["É2.flac"; "b.flac"; "é1.flac"])
    SUPPORTED_INPUT_EXTENSIONS
  = ["b.flac"; "é1.flac"; "É2.flac"]
  /\ find_audio_files (I:=latin1) (Folder [] ["é1.flac"; "É2.flac"; "b.flac"])
       SUPPORTED_INPUT_EXTENSIONS
     = ["b.flac"; "é1.flac"; "É2.flac"].
Proof. split; vm_compute; reflexivity. Qed.

(** Two names that differ by case only come in the order of the listing. *)
Example discovery_keeps_listing_order_of_ties :
  find_audio_files (I:=latin1) (Folder [] ["É.flac"; "é.flac"]) SUPPORTED_INPUT_EXTENSIONS
  = ["É.flac"; "é.flac"]
  /\ find_audio_files (I:=latin1) (Folder [] ["é.flac"; "É.flac"]) SUPPORTED_INPUT_EXTENSIONS
     = ["é.flac"; "É.flac"].
Proof. split; vm_compute; reflexivity. Qed.


(* ===================================================================== *)
(** ** Where the outputs go, and what the next run makes of them *)
(* ===================================================================== *)

Section NameFacts.
Import PyStr.

Lemma all_char_app (c : ascii) (s t : string) :
  all_char c (s +:+ t) = all_char c s && all_char c t.
Proof.
  induction s as [|a s IH]; [reflexivity |].
  rewrite append_cons. simpl. rewrite IH. now rewrite andb_assoc.
Qed.

Lemma take_append_drop (n : nat) (s : string) : take n s +:+ drop n s = s.
Proof.
  revert s. induction n as [|n IH]; intros [|a s]; try reflexivity.
  simpl. rewrite append_cons. now rewrite IH.
Qed.

Lemma take_app_le (n : nat) (s t : string) :
  (n <= String.length s)%nat -> take n (s +:+ t) = take n s.
Proof.
  revert s. induction n as [|n IH]; intros s Hn.
  - now destruct s; destruct t.
  - destruct s as [|a s]; simpl in Hn; [lia |].
    rewrite append_cons. simpl. rewrite IH by lia. reflexivity.
Qed.

(** Past its last occurrence the needle does not occur. *)
Lemma rfind_drop (c : ascii) (n : nat) (s : string) :
  rfind c s < Z.of_nat n -> rfind c (drop n s) = -1.
Proof.
  revert s. induction n as [|n IH]; intros s Hn.
  - pose proof (rfind_range c s). destruct s; simpl in *; lia.
  - destruct s as [|a s]; [reflexivity |].
    simpl. apply IH. simpl in Hn.
    pose proof (rfind_range c s).
    destruct (0 <=? rfind c s) eqn:Hpos; [lia |].
    apply Z.leb_gt in Hpos. lia.
Qed.

(** [os.path.splitext] cuts the path in two, and the extension holds no
    separator. *)
Lemma splitext_parts (p : string) :
  p = fst (OsPath.splitext p) +:+ snd (OsPath.splitext p)
  /\ rfind "/" (snd (OsPath.splitext p)) = -1.
Proof.
  unfold OsPath.splitext.
  destruct (rfind "/" p <? rfind "." p) eqn:Hlt;
    [| simpl; now rewrite append_nil_r].
  destruct (all_char "." _); simpl; [now rewrite append_nil_r |].
  apply Z.ltb_lt in Hlt. pose proof (rfind_range "/" p).
  split; [now rewrite take_append_drop |].
  apply rfind_drop. lia.
Qed.

(** What follows the last separator does not move it. *)
Lemma head_app (s t : string) :
  rfind "/" t = -1 ->
  take (Z.to_nat (rfind "/" (s +:+ t) + 1)) (s +:+ t)
  = take (Z.to_nat (rfind "/" s + 1)) s.
Proof.
  intros Ht. rewrite (rfind_app_absent "/" s t Ht).
  pose proof (rfind_range "/" s).
  apply take_app_le. lia.
Qed.

Lemma dirname_app (s t : string) :
  rfind "/" t = -1 -> OsPath.dirname (s +:+ t) = OsPath.dirname s.
Proof.
  intros Ht. unfold OsPath.dirname. now rewrite head_app.
Qed.

Lemma basename_app (s t : string) :
  rfind "/" t = -1 -> OsPath.basename (s +:+ t) = OsPath.basename s +:+ t.
Proof.
  intros Ht. unfold OsPath.basename. rewrite (rfind_app_absent "/" s t Ht).
  pose proof (rfind_range "/" s).
  apply drop_app_le. lia.
Qed.

(** The name of an output splits at its [.flac], whatever the stem. *)
Lemma splitext_drumless (stem : string) :
  OsPath.splitext (stem +:+ " - Drumless.flac") = (stem +:+ " - Drumless", ".flac").
Proof.
  change (" - Drumless.flac") with (" - Drumless" +:+ "." +:+ "flac").
  rewrite <- append_assoc.
  apply splitext_stem_ext; try reflexivity.
  rewrite basename_app by reflexivity.
  rewrite all_char_app. apply andb_false_r.
Qed.

Lemma append_inv_tail (s1 s2 t : string) : s1 +:+ t = s2 +:+ t -> s1 = s2.
Proof.
  revert s2. induction s1 as [|a s1 IH]; intros [|b s2] Heq.
  - reflexivity.
  - apply (f_equal String.length) in Heq.
    rewrite append_nil_l, length_append in Heq. simpl in Heq. lia.
  - apply (f_equal String.length) in Heq.
    rewrite append_nil_l, length_append in Heq. simpl in Heq. lia.
  - rewrite !append_cons in Heq. injection Heq as -> Heq.
    now rewrite (IH _ Heq).
Qed.

Lemma endswith_cons (a b : ascii) (r p : string) :
  endswith (String a (String b r)) (String "/" EmptyString)
  = endswith (String b r) (String "/" EmptyString).
Proof.
  unfold endswith. simpl. now rewrite Nat.sub_0_r.
Qed.

(** A path that does not end in a separator keeps its last character. *)
Lemma rstrip_slash_id (d : string) : endswith d "/" = false -> rstrip_slash d = d.
Proof.
  induction d as [|a r IH]; [reflexivity |].
  destruct r as [|b r'].
  - unfold endswith. simpl. destruct (Ascii.eqb a "/") eqn:Ha; [| reflexivity].
    apply Ascii.eqb_eq in Ha. subst a. discriminate.
  - rewrite (endswith_cons a b r' EmptyString). intros Hr.
    specialize (IH Hr). cbn [rstrip_slash]. cbn [rstrip_slash] in IH. rewrite IH.
    reflexivity.
Qed.

Lemma rstrip_slash_app_slash (s : string) : rstrip_slash (s +:+ "/") = rstrip_slash s.
Proof.
  induction s as [|a s IH]; [reflexivity |].
  rewrite append_cons. cbn [rstrip_slash]. now rewrite IH.
Qed.

Lemma all_char_slash_false (d : string) :
  d <> EmptyString -> endswith d "/" = false -> all_char "/" d = false.
Proof.
  induction d as [|a r IH]; [congruence |]. intros _.
  destruct r as [|b r'].
  - unfold endswith. simpl. destruct (Ascii.eqb a "/") eqn:Ha; [| reflexivity].
    apply Ascii.eqb_eq in Ha. subst a. discriminate.
  - rewrite (endswith_cons a b r' EmptyString). intros Hr.
    cbn [all_char]. cbn [all_char] in IH. rewrite IH by (congruence || assumption).
    apply andb_false_r.
Qed.

(** A file named [staging.flac] in a folder is the staging file of that
    folder. *)
Lemma staging_file_of_staging (d : string) :
  d <> EmptyString -> endswith d "/" = false ->
  staging_file_of (d +:+ "/" +:+ "staging.flac") = d +:+ "/" +:+ "staging.flac".
Proof.
  intros Hne Hend.
  assert (Hdir : OsPath.dirname (d +:+ "/" +:+ "staging.flac") = d).
  { unfold OsPath.dirname.
    change ("/" +:+ "staging.flac") with (String "/" "staging.flac").
    rewrite (rfind_app_here "/" d "staging.flac") by reflexivity.
    change (String "/" "staging.flac") with ("/" +:+ "staging.flac").
    rewrite <- append_assoc.
    replace (Z.to_nat (Z.of_nat (String.length d) + 1)) with (String.length (d +:+ "/"))
      by (rewrite length_append; simpl; lia).
    rewrite take_app_length.
    rewrite all_char_app, (all_char_slash_false d Hne Hend). simpl.
    destruct (String.eqb (d +:+ "/") EmptyString) eqn:He.
    - apply String.eqb_eq in He. apply (f_equal String.length) in He.
      rewrite length_append in He. simpl in He. lia.
    - simpl. now rewrite rstrip_slash_app_slash, rstrip_slash_id. }
  unfold staging_file_of. rewrite Hdir.
  destruct (String.eqb d EmptyString) eqn:He; [apply String.eqb_eq in He; congruence |].
  unfold OsPath.join. rewrite He, Hend. reflexivity.
Qed.

End NameFacts.

(** X1: the name of every output ends in [.flac], is a FLAC file to
    [is_flac_file] and has a supported extension; its own output name has the
    suffix twice.  So a run over a folder that holds the outputs of an
    earlier run takes them for tracks: discovery returns every output that
    lies in a folder it visits. *)
Theorem outputs_are_supported_inputs {I : Interpreter} (file : string) :
  is_flac_file (output_filename file) = true
  /\ has_supported_extension SUPPORTED_INPUT_EXTENSIONS (output_filename file) = true
  /\ output_filename (output_filename file)
     = fst (OsPath.splitext file) +:+ " - Drumless" +:+ " - Drumless.flac"
  /\ (forall root ds,
        file_at root ds (output_filename file) ->
        forallb keep_dir ds = true ->
        In (rel_path ds (output_filename file))
           (find_audio_files root SUPPORTED_INPUT_EXTENSIONS)).
Proof.
  assert (Hsup : has_supported_extension SUPPORTED_INPUT_EXTENSIONS (output_filename file) = true).
  { unfold has_supported_extension, output_filename. rewrite splitext_drumless. reflexivity. }
  split; [| split; [exact Hsup | split]].
  - unfold is_flac_file, output_filename. now rewrite splitext_drumless.
  - unfold output_filename at 1. unfold output_filename. rewrite splitext_drumless. simpl.
    now rewrite append_assoc.
  - intros root ds Hat Hkeep. unfold find_audio_files.
    apply sorted_by_In. apply walk_audio_spec.
    exists ds, (output_filename file). repeat split; assumption.
Qed.

(** X2: where the output goes.  It is written into the folder of its track
    and so shares the staging file of the track; and its name depends on the
    path of the track without its extension only: two tracks are given the
    same output file exactly when their paths are the same up to the
    extension, as [Song.flac] and [Song.wav] in one folder are. *)
Theorem output_lies_beside_its_track (file : string) :
  OsPath.dirname (output_filename file) = OsPath.dirname file
  /\ staging_file_of (output_filename file) = staging_file_of file
  /\ (forall other,
        output_filename file = output_filename other
        <-> fst (OsPath.splitext file) = fst (OsPath.splitext other)).
Proof.
  assert (Hdir : OsPath.dirname (output_filename file) = OsPath.dirname file).
  { destruct (splitext_parts file) as [Hp Hext].
    rewrite Hp at 2. rewrite (dirname_app _ _ Hext).
    unfold output_filename. now apply dirname_app. }
  split; [exact Hdir |]. split.
  - unfold staging_file_of. now rewrite Hdir.
  - intros other. unfold output_filename. split.
    + apply append_inv_tail.
    + now intros ->.
Qed.

Example flac_and_wav_collide :
  output_filename "a/Song.flac" = output_filename "a/Song.wav".
Proof. reflexivity. Qed.

Section OwnStaging.
Context {E : Externals}.

(** X3: a track named [staging.flac] in a sub-folder is its own staging
    file: a round that gets a peak for it ends with the track deleted,
    however the merge and the remux went. *)
Theorem track_named_staging_is_deleted (model : string) (comp : bool) (d : string)
    (l : list string) (w w1 w2 : World) (p : float) :
  d <> EmptyString ->
  PyStr.endswith d "/" = false ->
  separate (d +:+ "/" +:+ "staging.flac")
           (print "Processing: {}" [AStr (d +:+ "/" +:+ "staging.flac")] w) = (true, w1) ->
  detect_peak_level wav_dir w1 = (Some p, w2) ->
  staging_file_of (d +:+ "/" +:+ "staging.flac") = d +:+ "/" +:+ "staging.flac"
  /\ fs (snd (main_iteration model comp (d +:+ "/" +:+ "staging.flac") l w))
       !! (d +:+ "/" +:+ "staging.flac") = None.
Proof.
  intros Hne Hend Hsep Hpeak.
  pose proof (staging_file_of_staging d Hne Hend) as Hst.
  split; [exact Hst |].
  pose proof (round_past_peak_removes_staging_file model comp _ l w w1 w2 p Hsep Hpeak) as Hgone.
  now rewrite Hst in Hgone.
Qed.

End OwnStaging.

(** The staging file an interrupted run left in the album folder, taken for a
    track by the next run: it is gone after its round. *)
Lemma track_named_staging_is_deleted_witness :
  fs (start interrupted_folder) !! "a/staging.flac" = Some OtherFile
  /\ fs (snd (main_iteration (E:=scripted all_well) "model" false ("a" +:+ "/" +:+ "staging.flac")
                [] (start interrupted_folder))) !! ("a" +:+ "/" +:+ "staging.flac") = None.
Proof.
  split; [vm_compute; reflexivity |].
  refine (proj2 (track_named_staging_is_deleted (E:=scripted all_well) "model" false "a" []
                   (start interrupted_folder) _ _ 0.3%float _ _ _ _)).
  - discriminate.
  - reflexivity.
  - vm_compute. reflexivity.
  - vm_compute. reflexivity.
Defined.

(* ===================================================================== *)
(** ** The result lists of a whole run *)
(* ===================================================================== *)

Section WholeRunLists.
Context {E : Externals}.

(** A round leaves the list as it was or appends the output of its track. *)
Lemma main_iteration_list (model : string) (comp : bool) (file : string)
    (l : list string) (w : World) :
  fst (main_iteration model comp file l w) = l
  \/ fst (main_iteration model comp file l w) = l ++ [output_filename file].
Proof.
  destruct (main_iteration model comp file l w) as [l' w'] eqn:Hrun. simpl.
  apply main_iteration_events in Hrun.
  destruct Hrun as [(-> & _) | [(-> & _) | [(-> & _) | [(-> & _) | [(-> & _) | (-> & _)]]]]];
    auto.
Qed.

Lemma main_loop_list (model : string) (comp : bool) (audio_files l : list string) (w : World) :
  exists sub,
    fst (main_loop model comp audio_files l w) = l ++ sub
    /\ sublist sub (map output_filename audio_files).
Proof.
  revert l w. induction audio_files as [|file rest IH]; intros l w; cbn [main_loop].
  - exists []. split; [now rewrite app_nil_r | constructor].
  - pose proof (main_iteration_list model comp file l w) as Hl.
    destruct (main_iteration model comp file l w) as [l' w']. simpl in Hl.
    destruct (IH l' w') as (sub & Heq & Hsub).
    destruct Hl as [-> | ->].
    + exists sub. split; [exact Heq |]. now apply sublist_cons.
    + exists (output_filename file :: sub). split.
      * rewrite Heq, <- app_assoc. reflexivity.
      * now apply sublist_skip.
Qed.

Lemma normalization_round_list (flac_file : string) (mp3_files : list string)
    (created : gset string) (w : World) :
  fst (fst (normalization_round flac_file (mp3_files, created) w)) = mp3_files
  \/ fst (fst (normalization_round flac_file (mp3_files, created) w))
     = mp3_files ++ [mp3_filename_of flac_file].
Proof.
  destruct (normalization_round_cases flac_file mp3_files created w)
    as [(Hl & _) | (Hl & _)]; auto.
Qed.

Lemma normalization_loop_list (files mp3_files : list string) (created : gset string)
    (w : World) :
  exists sub,
    fst (fst (normalization_loop files (mp3_files, created) w)) = mp3_files ++ sub
    /\ sublist sub (map mp3_filename_of files).
Proof.
  revert mp3_files created w.
  induction files as [|flac_file rest IH]; intros mp3_files created w;
    cbn [normalization_loop].
  - exists []. split; [now rewrite app_nil_r | constructor].
  - pose proof (normalization_round_list flac_file mp3_files created w) as Hl.
    destruct (normalization_round flac_file (mp3_files, created) w) as [[l' c'] w'].
    simpl in Hl.
    destruct (IH l' c' w') as (sub & Heq & Hsub).
    destruct Hl as [-> | ->].
    + exists sub. split; [exact Heq |]. now apply sublist_cons.
    + exists (mp3_filename_of flac_file :: sub). split.
      * rewrite Heq, <- app_assoc. reflexivity.
      * now apply sublist_skip.
Qed.

Lemma process_normalization_list (final_files_list : list string) (comp : bool) (w : World) :
  sublist (fst (process_normalization final_files_list comp w))
          (map mp3_filename_of final_files_list).
Proof.
  unfold process_normalization.
  destruct (normalization_loop_list final_files_list [] ∅
              (print "\n\n=== Starting Normalization Process ===" [] w))
    as (sub & Heq & Hsub).
  destruct (normalization_loop final_files_list ([], ∅) _) as [[mp3_files c] w1].
  simpl in Heq. subst mp3_files. simpl. exact Hsub.
Qed.

Lemma main_processing_list (model : string) (comp : bool) (audio_files : list string)
    (w : World) :
  fst (main_processing model comp audio_files w) = fst (main_loop model comp audio_files [] w).
Proof.
  unfold main_processing.
  destruct (main_loop model comp audio_files [] w) as [l w1]. reflexivity.
Qed.

(** X4: the list of final outputs a run ends with holds output names of the
    discovered tracks only, in the order of discovery and at most once for
    each track: the loop appends to the list it is given, and what it appends
    is a sublist of the output names of the tracks. *)
Theorem result_list_follows_discovery (model : string) (comp norm : bool)
    (audio_files : list string) (w : World) :
  (forall l, exists sub,
      fst (main_loop model comp audio_files l w) = l ++ sub
      /\ sublist sub (map output_filename audio_files))
  /\ sublist (fst (fst (main model comp norm audio_files w)))
             (map output_filename audio_files).
Proof.
  split; [intros l; apply main_loop_list |].
  unfold main. destruct audio_files as [|f0 rest]; [constructor |].
  pose proof (main_processing_list model comp (f0 :: rest) w) as Hl.
  destruct (main_processing model comp (f0 :: rest) w) as [final w1]. cbn [fst] in Hl.
  destruct (main_loop_list model comp (f0 :: rest) [] w) as (sub & Heq & Hsub).
  rewrite Heq in Hl. cbn [app] in Hl. subst final.
  destruct (match norm, sub with
            | true, _ :: _ => process_normalization sub comp w1
            | _, _ => ([], w1)
            end) as [mp3 w2].
  simpl. exact Hsub.
Qed.

(** X5: the MP3 files a run lists are MP3 names of its final outputs, in
    their order and at most once for each: every listed MP3 lies in the
    [Normalised] folder beside a final output and carries its stem. *)
Theorem mp3_list_follows_outputs (model : string) (comp norm : bool)
    (audio_files final_files_list : list string) (w : World) :
  sublist (fst (process_normalization final_files_list comp w))
          (map mp3_filename_of final_files_list)
  /\ sublist (snd (fst (main model comp norm audio_files w)))
             (map mp3_filename_of (fst (fst (main model comp norm audio_files w)))).
Proof.
  split; [apply process_normalization_list |].
  unfold main. destruct audio_files as [|f0 rest]; [constructor |].
  destruct (main_processing model comp (f0 :: rest) w) as [final w1].
  destruct norm; [destruct final as [|o final] |]; simpl.
  - constructor.
  - pose proof (process_normalization_list (o :: final) comp w1) as Hs.
    destruct (process_normalization (o :: final) comp w1) as [mp3 w2]. exact Hs.
  - apply sublist_nil_l.
Qed.

End WholeRunLists.

(* ===================================================================== *)
(** ** What a run asks of its collaborators *)
(* ===================================================================== *)

Section LogFacts.
Context {E : Externals}.
Variable P : Event -> Prop.

Lemma log_grows_refl (w : World) : log_grows P w w.
Proof. exists []. split; [now rewrite app_nil_r | constructor]. Qed.

Lemma log_grows_trans (w1 w2 w3 : World) :
  log_grows P w1 w2 -> log_grows P w2 w3 -> log_grows P w1 w3.
Proof.
  intros (n1 & H1 & F1) (n2 & H2 & F2). exists (n1 ++ n2). split.
  - rewrite H2, H1, app_assoc. reflexivity.
  - apply Forall_app. now split.
Qed.

Lemma log_grows_same (w1 w2 w3 : World) :
  log_grows P w1 w2 -> events w3 = events w2 -> log_grows P w1 w3.
Proof. intros (n & H & F) Heq. exists n. split; [congruence | exact F]. Qed.

Lemma log_grows_quiet (w0 w w' : World) :
  events w' = events w -> log_grows P w0 w -> log_grows P w0 w'.
Proof. intros Heq G. exact (log_grows_same _ _ _ G Heq). Qed.

Lemma log_grows_one (w1 w2 w3 : World) (e : Event) :
  log_grows P w1 w2 -> events w3 = events w2 ++ [e] -> P e -> log_grows P w1 w3.
Proof.
  intros G Heq He. apply (log_grows_trans _ w2); [exact G |].
  exists [e]. split; [exact Heq | repeat constructor; exact He].
Qed.

Lemma run_command_grows (cmd : Cmd) (capture : bool) (w0 w : World) :
  (forall ok, P (EvRun cmd ok)) ->
  log_grows P w0 w -> log_grows P w0 (snd (run_command cmd capture w)).
Proof.
  intros Hcmd G.
  destruct (run_command cmd capture w) as [[ok out] w1] eqn:Hrun.
  apply run_command_inv in Hrun as (_ & Hev & _). simpl.
  apply (log_grows_one _ _ _ _ G Hev). apply Hcmd.
Qed.

Lemma separate_grows (file : string) (w0 w : World) :
  (forall ok, P (EvSeparate file ok)) ->
  log_grows P w0 w -> log_grows P w0 (snd (separate file w)).
Proof.
  intros Hcmd G.
  destruct (separate file w) as [ok w1] eqn:Hrun.
  apply separate_inv in Hrun as (_ & Hev & _). simpl.
  apply (log_grows_one _ _ _ _ G Hev). apply Hcmd.
Qed.

Lemma detect_peak_level_grows (d : string) (w0 w : World) :
  (forall i n ok, P (EvRun (FfmpegMixPeak i n) ok)) ->
  log_grows P w0 w -> log_grows P w0 (snd (detect_peak_level d w)).
Proof.
  intros Hcmd G.
  destruct (detect_peak_level d w) as [r w1] eqn:Hrun. simpl.
  apply detect_peak_level_inv in Hrun as [(_ & _ & ->) | (_ & _ & _ & ok & Hev & _)];
    [exact G |].
  apply (log_grows_one _ _ _ _ G Hev). apply Hcmd.
Qed.

Lemma merge_audio_files_grows (d out : string) (g : option float) (w0 w : World) :
  (forall i n ok, P (EvRun (FfmpegMerge i n g out) ok)) ->
  log_grows P w0 w -> log_grows P w0 (snd (merge_audio_files d out g w)).
Proof.
  intros Hcmd G.
  destruct (merge_audio_files d out g w) as [r w1] eqn:Hrun. simpl.
  apply merge_audio_files_inv in Hrun as [(_ & _ & ->) | (_ & _ & _ & Hev)];
    [exact G |].
  apply (log_grows_one _ _ _ _ G Hev). apply Hcmd.
Qed.

Lemma copy_metadata_grows (src audio out : string) (comp : bool) (w0 w : World) :
  (forall ok, P (EvRun (FfmpegRemux src audio out comp) ok)) ->
  log_grows P w0 w -> log_grows P w0 (snd (copy_metadata src audio out comp w)).
Proof.
  intros Hcmd G.
  destruct (copy_metadata src audio out comp w) as [r w1] eqn:Hrun. simpl.
  apply copy_metadata_inv in Hrun as (_ & Hev).
  apply (log_grows_one _ _ _ _ G Hev). apply Hcmd.
Qed.

Lemma apply_replaygain_track_grows (p : string) (w0 w : World) :
  (forall ok, P (EvRun (RsgainTrack p) ok)) ->
  log_grows P w0 w -> log_grows P w0 (snd (apply_replaygain_track p w)).
Proof.
  intros Hcmd G.
  destruct (apply_replaygain_track_inv p w) as (_ & ok & Hev).
  apply (log_grows_one _ _ _ _ G Hev). apply Hcmd.
Qed.

Lemma apply_replaygain_album_grows (ps : list string) (w0 w : World) :
  (forall ok, P (EvRun (RsgainAlbum ps) ok)) ->
  log_grows P w0 w -> log_grows P w0 (snd (apply_replaygain_album ps w)).
Proof.
  intros Hcmd G.
  destruct (apply_replaygain_album_inv ps w) as (_ & ok & Hev).
  apply (log_grows_one _ _ _ _ G Hev). apply Hcmd.
Qed.

Lemma fold_quiet_log (step : World -> string -> World) (l : list string) (w : World) :
  (forall w x, events (step w x) = events w) ->
  events (fold_left step l w) = events w.
Proof.
  intros Hstep. revert w. induction l as [|x l IH]; intros w; simpl; [reflexivity |].
  now rewrite IH, Hstep.
Qed.

Lemma fold_grows (step : World -> string -> World) (l : list string) (w0 w : World) :
  (forall w x, log_grows P w0 w -> log_grows P w0 (step w x)) ->
  log_grows P w0 w -> log_grows P w0 (fold_left step l w).
Proof.
  intros Hstep. revert w. induction l as [|x l IH]; intros w G; simpl; [exact G |].
  apply IH. now apply Hstep.
Qed.

Lemma stamp_mp3_reference_tags_log (p : string) (w : World) :
  events (stamp_mp3_reference_tags p w) = events w.
Proof. unfold stamp_mp3_reference_tags. destruct (MP3_open p (fs w)); reflexivity. Qed.

Lemma os_makedirs_log (p : string) (w : World) : events (os_makedirs p w) = events w.
Proof. unfold os_makedirs. destruct (fs w !! p); reflexivity. Qed.

(** A round calls the separator and the three ffmpeg commands of the mix,
    and rsgain in track mode in a compilation run only. *)
Lemma main_iteration_grows (model : string) (comp : bool) (file : string)
    (l : list string) (w0 w : World) :
  (forall ok, P (EvSeparate file ok)) ->
  (forall i n ok, P (EvRun (FfmpegMixPeak i n) ok)) ->
  (forall i n g out ok, P (EvRun (FfmpegMerge i n g out) ok)) ->
  (forall src audio out ok, P (EvRun (FfmpegRemux src audio out comp) ok)) ->
  (comp = true -> forall p ok, P (EvRun (RsgainTrack p) ok)) ->
  log_grows P w0 w -> log_grows P w0 (snd (main_iteration model comp file l w)).
Proof.
  intros Hsep Hpeak Hmerge Hremux Htrack G.
  unfold main_iteration.
  pose proof (separate_grows file w0 (print "Processing: {}" [AStr file] w) Hsep) as G1.
  destruct (separate file _) as [ok1 w1]. cbn [snd] in G1.
  specialize (G1 (log_grows_same _ _ _ G eq_refl)).
  destruct ok1; cbn [negb snd].
  2:{ apply (log_grows_same _ _ _ G1). now rewrite (proj2 (rmtree_if_exists_log _ _)). }
  pose proof (detect_peak_level_grows wav_dir w0 w1 Hpeak G1) as G2.
  destruct (detect_peak_level wav_dir w1) as [[p|] w2]; cbn [snd] in G2.
  2:{ cbn [snd]. apply (log_grows_same _ _ _ G2).
      now rewrite (proj2 (rmtree_if_exists_log _ _)). }
  match goal with
  | |- context [if (-0.1 <? p)%float then ?a else ?b] =>
      assert (G2' : log_grows P w0 (snd (if (-0.1 <? p)%float then a else b)))
        by (apply (log_grows_same _ _ _ G2); now destruct (-0.1 <? p)%float);
      destruct (if (-0.1 <? p)%float then a else b) as [g w2']
  end.
  cbn [snd] in G2'.
  pose proof (merge_audio_files_grows wav_dir (staging_file_of file) g w0 w2'
                (fun i n ok => Hmerge i n g _ ok) G2') as G3.
  destruct (merge_audio_files wav_dir (staging_file_of file) g w2') as [okm w3].
  cbn [snd] in G3.
  destruct okm; cbn [negb snd].
  2:{ apply (log_grows_same _ _ _ G3).
      now rewrite (proj2 (rmtree_if_exists_log _ _)), (proj2 (remove_if_exists_log _ _)). }
  pose proof (copy_metadata_grows file (staging_file_of file) (output_filename file) comp
                w0 w3 (Hremux _ _ _) G3) as G4.
  destruct (copy_metadata file (staging_file_of file) (output_filename file) comp w3)
    as [okr w4].
  cbn [snd] in G4.
  destruct okr; cbn [negb snd].
  2:{ apply (log_grows_same _ _ _ G4).
      now rewrite (proj2 (rmtree_if_exists_log _ _)), (proj2 (remove_if_exists_log _ _)). }
  assert (G5 : log_grows P w0 (if comp then snd (apply_replaygain_track (output_filename file) w4)
                               else w4)).
  { destruct comp; [| exact G4].
    apply apply_replaygain_track_grows; [apply Htrack; reflexivity | exact G4]. }
  destruct (copy_artwork file (output_filename file) _) as [a w5] eqn:Hart.
  apply (f_equal snd) in Hart. cbn [snd] in Hart.
  destruct (set_flac_tags (output_filename file) (tags_to_set model) w5) as [t w6] eqn:Htag.
  apply (f_equal snd) in Htag. cbn [snd] in Htag. cbn [snd].
  apply (log_grows_same _ _ _ G5).
  rewrite <- Htag, set_flac_tags_log, <- Hart, copy_artwork_log.
  now rewrite (proj2 (rmtree_if_exists_log _ _)), (proj2 (remove_if_exists_log _ _)).
Qed.

Lemma main_loop_grows (model : string) (comp : bool) (audio_files l : list string)
    (w0 w : World) :
  (forall file ok, P (EvSeparate file ok)) ->
  (forall i n ok, P (EvRun (FfmpegMixPeak i n) ok)) ->
  (forall i n g out ok, P (EvRun (FfmpegMerge i n g out) ok)) ->
  (forall src audio out ok, P (EvRun (FfmpegRemux src audio out comp) ok)) ->
  (comp = true -> forall p ok, P (EvRun (RsgainTrack p) ok)) ->
  log_grows P w0 w -> log_grows P w0 (snd (main_loop model comp audio_files l w)).
Proof.
  intros Hsep Hpeak Hmerge Hremux Htrack.
  revert l w. induction audio_files as [|file rest IH]; intros l w G; cbn [main_loop];
    [exact G |].
  pose proof (main_iteration_grows model comp file l w0 w (Hsep file) Hpeak Hmerge Hremux
                Htrack G) as G1.
  destruct (main_iteration model comp file l w) as [l' w']. simpl in G1.
  now apply IH.
Qed.

Lemma main_processing_grows (model : string) (comp : bool) (audio_files : list string)
    (w0 w : World) :
  (forall file ok, P (EvSeparate file ok)) ->
  (forall i n ok, P (EvRun (FfmpegMixPeak i n) ok)) ->
  (forall i n g out ok, P (EvRun (FfmpegMerge i n g out) ok)) ->
  (forall src audio out ok, P (EvRun (FfmpegRemux src audio out comp) ok)) ->
  (comp = true -> forall p ok, P (EvRun (RsgainTrack p) ok)) ->
  (comp = false -> forall ps ok, P (EvRun (RsgainAlbum ps) ok)) ->
  log_grows P w0 w -> log_grows P w0 (snd (main_processing model comp audio_files w)).
Proof.
  intros Hsep Hpeak Hmerge Hremux Htrack Halbum G.
  unfold main_processing.
  pose proof (main_loop_grows model comp audio_files [] w0 w Hsep Hpeak Hmerge Hremux Htrack G)
    as G1.
  destruct (main_loop model comp audio_files [] w) as [final w1]. cbn [snd] in G1.
  cbn [snd].
  match goal with
  | |- log_grows P w0 (print _ _ (if os_path_exists _ ?x then _ else _)) =>
      apply (log_grows_quiet _ x);
        [rewrite <- (proj2 (rmtree_if_exists_log "separated" x)); reflexivity |]
  end.
  destruct final as [|o final]; [exact G1 |].
  destruct comp; cbn [negb]; [exact G1 |].
  match goal with
  | |- log_grows P w0 (fold_left ?step ?l ?x) =>
      apply (log_grows_quiet _ x);
        [apply (fold_quiet_log step l x); intros; apply set_flac_tags_log |]
  end.
  apply apply_replaygain_album_grows; [now apply Halbum | exact G1].
Qed.

Lemma normalize_and_convert_to_mp3_grows (src out : string) (target : float) (w0 w : World) :
  (forall p ok, P (EvRun (FfmpegFilePeak p) ok)) ->
  (forall s g o ok, P (EvRun (FfmpegToMp3 s g o) ok)) ->
  log_grows P w0 w -> log_grows P w0 (snd (normalize_and_convert_to_mp3 src out target w)).
Proof.
  intros Hpeak Hmp3 G.
  destruct (normalize_and_convert_to_mp3 src out target w) as [r w1] eqn:Hrun. simpl.
  apply normalize_and_convert_to_mp3_inv in Hrun
    as [(_ & (ok & Hev) & _) | (ok & p & Hev & _)].
  - apply (log_grows_one _ _ _ _ G Hev). apply Hpeak.
  - apply (log_grows_trans _ w); [exact G |].
    eexists. split; [exact Hev |]. repeat constructor; [apply Hpeak | apply Hmp3].
Qed.

Lemma normalization_round_grows (flac_file : string) (vars : list string * gset string)
    (w0 w : World) :
  (forall p ok, P (EvRun (FfmpegFilePeak p) ok)) ->
  (forall s g o ok, P (EvRun (FfmpegToMp3 s g o) ok)) ->
  log_grows P w0 w -> log_grows P w0 (snd (normalization_round flac_file vars w)).
Proof.
  intros Hpeak Hmp3 G. unfold normalization_round. destruct vars as [mp3_files created].
  destruct (os_path_exists flac_file w); cbn [negb snd];
    [| apply (log_grows_quiet _ w); [reflexivity | exact G]].
  destruct (bool_decide _);
  match goal with
  | |- context [normalize_and_convert_to_mp3 ?a ?b ?c ?x] =>
      assert (G0 : log_grows P w0 x)
        by (apply (log_grows_quiet _ w); [| exact G]; unfold print; cbn [events];
            rewrite ?os_makedirs_log; reflexivity);
      pose proof (normalize_and_convert_to_mp3_grows a b c w0 x Hpeak Hmp3 G0) as G1;
      destruct (normalize_and_convert_to_mp3 a b c x) as [ok w1]
  end.
  all: cbn [snd] in G1.
  all: destruct ok; cbn [negb snd]; [| exact (log_grows_quiet _ _ _ eq_refl G1)].
  all: match goal with
  | |- context [copy_metadata_flac_to_mp3 ?a ?b ?x] =>
      pose proof (proj1 (copy_metadata_flac_to_mp3_log a b x)) as Hq;
      destruct (copy_metadata_flac_to_mp3 a b x) as [mok w2];
      cbn [snd] in Hq; cbn [snd];
      apply (log_grows_quiet _ x); [| exact G1]; destruct mok; cbn [negb]; exact Hq
  end.
Qed.

Lemma normalization_loop_grows (files : list string) (vars : list string * gset string)
    (w0 w : World) :
  (forall p ok, P (EvRun (FfmpegFilePeak p) ok)) ->
  (forall s g o ok, P (EvRun (FfmpegToMp3 s g o) ok)) ->
  log_grows P w0 w -> log_grows P w0 (snd (normalization_loop files vars w)).
Proof.
  intros Hpeak Hmp3. revert vars w.
  induction files as [|f rest IH]; intros vars w G; cbn [normalization_loop]; [exact G |].
  pose proof (normalization_round_grows f vars w0 w Hpeak Hmp3 G) as G1.
  destruct (normalization_round f vars w) as [vars' w']. simpl in G1.
  now apply IH.
Qed.

Lemma process_normalization_grows (final_files_list : list string) (comp : bool)
    (w0 w : World) :
  (forall p ok, P (EvRun (FfmpegFilePeak p) ok)) ->
  (forall s g o ok, P (EvRun (FfmpegToMp3 s g o) ok)) ->
  (comp = true -> forall p ok, P (EvRun (RsgainTrack p) ok)) ->
  (comp = false -> forall ps ok, P (EvRun (RsgainAlbum ps) ok)) ->
  log_grows P w0 w -> log_grows P w0 (snd (process_normalization final_files_list comp w)).
Proof.
  intros Hpeak Hmp3 Htrack Halbum G. unfold process_normalization.
  pose proof (normalization_loop_grows final_files_list ([], ∅) w0
                (print "\n\n=== Starting Normalization Process ===" [] w) Hpeak Hmp3
                (log_grows_quiet _ _ _ eq_refl G)) as G1.
  destruct (normalization_loop final_files_list ([], ∅) _) as [[mp3_files c] w1].
  cbn [snd] in G1. cbn [snd].
  match goal with
  | |- log_grows P w0 (print _ _ (print _ _ ?x)) =>
      apply (log_grows_quiet _ x); [reflexivity |]
  end.
  destruct mp3_files as [|m mp3_files]; [exact G1 |].
  match goal with
  | |- log_grows P w0 (fold_left ?step ?l ?x) =>
      apply (log_grows_quiet _ x);
        [apply (fold_quiet_log step l x); intros; apply stamp_mp3_reference_tags_log |]
  end.
  match goal with
  | |- log_grows P w0 (print _ _ ?x) => apply (log_grows_quiet _ x); [reflexivity |]
  end.
  destruct comp.
  - apply fold_grows; [| apply (log_grows_quiet _ w1); [reflexivity | exact G1]].
    intros w' x G'. apply apply_replaygain_track_grows; [now apply Htrack | exact G'].
  - apply apply_replaygain_album_grows; [now apply Halbum |].
    apply (log_grows_quiet _ w1); [reflexivity | exact G1].
Qed.

End LogFacts.

Section RunDiscipline.
Context {E : Externals}.

Lemma log_grows_impl (P Q : Event -> Prop) (w w' : World) :
  (forall e, P e -> Q e) -> log_grows P w w' -> log_grows Q w w'.
Proof.
  intros HPQ (new & Hev & HF). exists new. split; [exact Hev |].
  eapply Forall_impl; [| exact HPQ]. exact HF.
Qed.

Lemma log_grows_since (P : Event -> Prop) (w w' : World) :
  log_grows P w w' -> Forall P (events_since w w').
Proof.
  intros (new & Hev & HF). now rewrite (events_since_app _ _ _ Hev).
Qed.

(** The whole run keeps to what the two answers allow. *)
Lemma main_grows (model : string) (comp norm : bool) (audio_files : list string) (w : World) :
  log_grows (run_allows comp norm) w (snd (main model comp norm audio_files w)).
Proof.
  unfold main. destruct audio_files as [|f0 rest].
  - simpl. exists []. split; [now rewrite app_nil_r | constructor].
  - assert (G1 : log_grows (run_allows comp norm) w
                   (snd (main_processing model comp (f0 :: rest) w))).
    { apply main_processing_grows;
        [intros; split; simpl; auto; tauto .. | apply log_grows_refl]. }
    destruct (main_processing model comp (f0 :: rest) w) as [final w1]. simpl in G1.
    assert (G2 : log_grows (run_allows comp norm) w
                   (snd (match norm, final with
                         | true, _ :: _ => process_normalization final comp w1
                         | _, _ => ([], w1)
                         end))).
    { destruct norm; [destruct final as [|o final] |]; simpl; try exact G1.
      apply process_normalization_grows;
        [intros; split; simpl; auto; tauto .. | exact G1]. }
    destruct (match norm, final with
              | true, _ :: _ => process_normalization final comp w1
              | _, _ => ([], w1)
              end) as [mp3 w2].
    simpl in G2. simpl. apply (log_grows_same _ _ _ _ G2). reflexivity.
Qed.

(** X6: a run never mixes the two modes of rsgain.  In a compilation run
    every rsgain command is a track command, in an album run every rsgain
    command is an album command; this holds for the FLAC outputs and for the
    MP3 files alike. *)
Theorem replaygain_modes_never_mix (model : string) (comp norm : bool)
    (audio_files : list string) (w : World) :
  Forall (mode_allows comp) (events_since w (snd (main model comp norm audio_files w)))
  /\ (forall ps ok,
        In (EvRun (RsgainAlbum ps) ok) (events_since w (snd (main model comp norm audio_files w)))
        -> comp = false)
  /\ (forall p ok,
        In (EvRun (RsgainTrack p) ok) (events_since w (snd (main model comp norm audio_files w)))
        -> comp = true).
Proof.
  assert (HF : Forall (mode_allows comp)
                 (events_since w (snd (main model comp norm audio_files w)))).
  { apply log_grows_since. eapply log_grows_impl; [| apply main_grows].
    intros e He. exact (proj1 He). }
  split; [exact HF |].
  rewrite Forall_forall in HF.
  split; [intros ps ok Hin | intros p ok Hin];
    apply list_elem_of_In in Hin; exact (HF _ Hin).
Qed.

(** X7: the MP3 pass runs only when it was asked for and there is an output
    to work on.  Without the answer yes no file is measured on its own and
    none is transcoded, and the MP3 list is empty; the same holds of a run
    that ends with no final output. *)
Theorem no_mp3_work_unless_asked (model : string) (comp norm : bool)
    (audio_files : list string) (w : World) :
  norm = false \/ fst (fst (main model comp norm audio_files w)) = [] ->
  snd (fst (main model comp norm audio_files w)) = []
  /\ Forall (fun e => ~ is_mp3_work e)
            (events_since w (snd (main model comp norm audio_files w))).
Proof.
  intros Hno.
  assert (Hsame : main model comp norm audio_files w
                  = (fst (fst (main model comp false audio_files w)), [],
                     snd (main model comp false audio_files w))).
  { revert Hno. unfold main. destruct audio_files as [|f0 rest]; [reflexivity |].
    destruct (main_processing model comp (f0 :: rest) w) as [final w1].
    destruct norm; [| reflexivity].
    destruct final as [|o final]; [reflexivity |].
    destruct (process_normalization (o :: final) comp w1) as [mp3 w2]. simpl.
    intros [Hc | Hc]; discriminate. }
  rewrite Hsame. simpl. split; [reflexivity |].
  apply log_grows_since. eapply log_grows_impl; [| apply (main_grows model comp false)].
  intros e [_ He] Hw. specialize (He Hw). discriminate.
Qed.

End RunDiscipline.

(** A run over the album folder without the MP3 pass. *)
Lemma no_mp3_work_unless_asked_witness :
  snd (fst (main (E:=scripted all_well) "model" false false ["a/x.flac"] (start album_folder)))
  = []
  /\ Forall (fun e => ~ is_mp3_work e)
            (events_since (start album_folder)
               (snd (main (E:=scripted all_well) "model" false false ["a/x.flac"]
                       (start album_folder)))).
Proof.
  apply (no_mp3_work_unless_asked (E:=scripted all_well) "model" false false ["a/x.flac"]
           (start album_folder)).
  left. reflexivity.
Defined.

(* ===================================================================== *)
(** ** The paths the script leaves alone *)
(* ===================================================================== *)

Section Frame.
Context {E : Externals}.
Variable q : string.

Lemma fs_print (text : string) (args : list Arg) (w : World) : fs (print text args w) = fs w.
Proof. reflexivity. Qed.

Lemma rmtree_if_exists_frame (p : string) (w : World) :
  under p q = false ->
  fs (if os_path_exists p w then shutil_rmtree p w else w) !! q = fs w !! q.
Proof.
  intros Hq. destruct (os_path_exists p w); [| reflexivity].
  simpl. apply option_eq. intros x. rewrite map_lookup_filter_Some. simpl.
  split; [now intros [? _] | now split].
Qed.

Lemma remove_if_exists_frame (p : string) (w : World) :
  q <> p ->
  fs (if os_path_exists p w then os_remove p w else w) !! q = fs w !! q.
Proof.
  intros Hq. destruct (os_path_exists p w); [| reflexivity].
  simpl. now rewrite lookup_delete_ne.
Qed.

Lemma set_flac_tags_frame (p : string) (t : list (string * string)) (w : World) :
  q <> p -> fs (snd (set_flac_tags p t w)) !! q = fs w !! q.
Proof.
  intros Hq. unfold set_flac_tags.
  destruct (FLAC_open p (fs w)) as [audio|] eqn:Hopen; simpl; [| reflexivity].
  destruct (forallb _ t); simpl; [| reflexivity].
  apply FLAC_open_filename in Hopen as [Hname _].
  unfold FLAC_save. rewrite fold_setitem_filename, Hname.
  now rewrite lookup_insert_ne.
Qed.

Lemma copy_artwork_frame (src dst : string) (w : World) :
  q <> dst -> fs (snd (copy_artwork src dst w)) !! q = fs w !! q.
Proof.
  intros Hq. unfold copy_artwork.
  destruct (FLAC_open dst (fs w)) as [audio|] eqn:Hopen; simpl; [| reflexivity].
  apply FLAC_open_filename in Hopen as [Hname _].
  pose proof (extract_pictures_fs src w) as [Hfs _].
  destruct (extract_pictures src w) as [pics w1]. simpl in Hfs.
  destruct pics as [|pic pics]; simpl; [now rewrite Hfs |].
  unfold FLAC_save. rewrite fold_add_picture_filename. simpl. rewrite Hname, Hfs.
  now rewrite lookup_insert_ne.
Qed.

Lemma copy_metadata_flac_to_mp3_frame (src dst : string) (w : World) :
  q <> dst -> fs (snd (copy_metadata_flac_to_mp3 src dst w)) !! q = fs w !! q.
Proof.
  intros Hq. unfold copy_metadata_flac_to_mp3.
  destruct (FLAC_open src (fs w)) as [flac|]; [| reflexivity].
  unfold MP3_open.
  destruct (fs w !! dst) as [[| | tags | |]|]; try reflexivity.
  simpl. unfold MP3_save. simpl. now rewrite lookup_insert_ne.
Qed.

Lemma stamp_mp3_reference_tags_frame (p : string) (w : World) :
  q <> p -> fs (stamp_mp3_reference_tags p w) !! q = fs w !! q.
Proof.
  intros Hq. unfold stamp_mp3_reference_tags, MP3_open.
  destruct (fs w !! p) as [[| | tags | |]|]; try reflexivity.
  simpl. unfold MP3_save. simpl. now rewrite lookup_insert_ne.
Qed.

Lemma os_makedirs_frame (p : string) (w : World) :
  q <> p -> fs (os_makedirs p w) !! q = fs w !! q.
Proof.
  intros Hq. unfold os_makedirs. destruct (fs w !! p); [reflexivity |].
  simpl. now rewrite lookup_insert_ne.
Qed.

Hypothesis Halone : leaves_alone E q.

Lemma separate_frame (file : string) (w : World) :
  fs (snd (separate file w)) !! q = fs w !! q.
Proof.
  destruct (separate file w) as [ok w1] eqn:Hrun.
  apply separate_inv in Hrun as (_ & _ & Hfs). simpl.
  apply (f_equal snd) in Hfs. simpl in Hfs. rewrite Hfs. apply (proj1 Halone).
Qed.

Lemma run_command_frame (cmd : Cmd) (capture : bool) (w : World) :
  fs (snd (run_command cmd capture w)) !! q = fs w !! q.
Proof.
  destruct (run_command cmd capture w) as [[ok out] w1] eqn:Hrun.
  apply run_command_inv in Hrun as (_ & _ & Hfs & _). simpl.
  rewrite Hfs. apply (proj2 Halone).
Qed.

Lemma detect_peak_level_frame (d : string) (w : World) :
  fs (snd (detect_peak_level d w)) !! q = fs w !! q.
Proof.
  destruct (detect_peak_level d w) as [r w1] eqn:Hrun. simpl.
  apply detect_peak_level_inv in Hrun as [(_ & _ & ->) | (_ & _ & Hfs & _)];
    [reflexivity |].
  rewrite Hfs. apply (proj2 Halone).
Qed.

Lemma merge_audio_files_frame (d out : string) (g : option float) (w : World) :
  fs (snd (merge_audio_files d out g w)) !! q = fs w !! q.
Proof.
  destruct (merge_audio_files d out g w) as [r w1] eqn:Hrun. simpl.
  apply merge_audio_files_inv in Hrun as [(_ & _ & ->) | (_ & _ & Hfs & _)];
    [reflexivity |].
  rewrite Hfs. apply (proj2 Halone).
Qed.

Lemma copy_metadata_frame (src audio out : string) (comp : bool) (w : World) :
  fs (snd (copy_metadata src audio out comp w)) !! q = fs w !! q.
Proof.
  unfold copy_metadata.
  match goal with
  | |- context [run_command ?c ?b w] =>
      pose proof (run_command_frame c b w) as Hf;
      destruct (run_command c b w) as [[ok o] w1]
  end.
  exact Hf.
Qed.

Lemma apply_replaygain_track_frame (p : string) (w : World) :
  fs (snd (apply_replaygain_track p w)) !! q = fs w !! q.
Proof.
  unfold apply_replaygain_track.
  pose proof (run_command_frame (RsgainTrack p) false w) as Hf.
  destruct (run_command (RsgainTrack p) false w) as [r w1]. exact Hf.
Qed.

Lemma apply_replaygain_album_frame (ps : list string) (w : World) :
  fs (snd (apply_replaygain_album ps w)) !! q = fs w !! q.
Proof.
  unfold apply_replaygain_album.
  pose proof (run_command_frame (RsgainAlbum ps) false w) as Hf.
  destruct (run_command (RsgainAlbum ps) false w) as [r w1]. exact Hf.
Qed.

Lemma detect_file_peak_level_frame (p : string) (w : World) :
  fs (snd (detect_file_peak_level p w)) !! q = fs w !! q.
Proof.
  unfold detect_file_peak_level.
  pose proof (run_command_frame (FfmpegFilePeak p) true w) as Hf.
  destruct (run_command (FfmpegFilePeak p) true w) as [[ok out] w1]. simpl in Hf.
  destruct (success_and_output ok out);
    [destruct (parse_max_volume (default EmptyString out)) |]; exact Hf.
Qed.

Lemma normalize_and_convert_to_mp3_frame (src out : string) (target : float) (w : World) :
  fs (snd (normalize_and_convert_to_mp3 src out target w)) !! q = fs w !! q.
Proof.
  unfold normalize_and_convert_to_mp3.
  pose proof (detect_file_peak_level_frame src w) as Hf.
  destruct (detect_file_peak_level src w) as [[p|] w1]; simpl in Hf; [| exact Hf].
  match goal with
  | |- context [run_command ?c ?b ?x] =>
      pose proof (run_command_frame c b x) as Hf2;
      destruct (run_command c b x) as [[ok o] w2]
  end.
  simpl in Hf2 |- *. now rewrite Hf2.
Qed.

(** A round changes nothing at a path that is neither in the scratch
    directory nor the staging file nor the output of its track. *)
Lemma main_iteration_frame (model : string) (comp : bool) (file : string)
    (l : list string) (w : World) :
  under wav_dir q = false -> q <> staging_file_of file -> q <> output_filename file ->
  fs (snd (main_iteration model comp file l w)) !! q = fs w !! q.
Proof.
  intros Hscr Hst Hout. unfold main_iteration.
  pose proof (separate_frame file (print "Processing: {}" [AStr file] w)) as F1.
  destruct (separate file _) as [ok1 w1]. cbn [snd] in F1.
  rewrite fs_print in F1.
  destruct ok1; cbn [negb snd].
  2:{ now rewrite rmtree_if_exists_frame. }
  pose proof (detect_peak_level_frame wav_dir w1) as F2.
  destruct (detect_peak_level wav_dir w1) as [[p|] w2]; cbn [snd] in F2.
  2:{ cbn [snd]. rewrite rmtree_if_exists_frame by exact Hscr. simpl. congruence. }
  match goal with
  | |- context [if (-0.1 <? p)%float then ?a else ?b] =>
      assert (F2' : fs (snd (if (-0.1 <? p)%float then a else b)) = fs w2)
        by (now destruct (-0.1 <? p)%float);
      destruct (if (-0.1 <? p)%float then a else b) as [g w2']
  end.
  cbn [snd] in F2'.
  pose proof (merge_audio_files_frame wav_dir (staging_file_of file) g w2') as F3.
  destruct (merge_audio_files wav_dir (staging_file_of file) g w2') as [okm w3].
  cbn [snd] in F3.
  destruct okm; cbn [negb snd].
  2:{ rewrite rmtree_if_exists_frame, remove_if_exists_frame by assumption.
      simpl. congruence. }
  pose proof (copy_metadata_frame file (staging_file_of file) (output_filename file) comp w3)
    as F4.
  destruct (copy_metadata file (staging_file_of file) (output_filename file) comp w3)
    as [okr w4].
  cbn [snd] in F4.
  destruct okr; cbn [negb snd].
  2:{ rewrite rmtree_if_exists_frame, remove_if_exists_frame by assumption.
      simpl. congruence. }
  assert (F5 : fs (if comp then snd (apply_replaygain_track (output_filename file) w4) else w4)
                 !! q = fs w4 !! q).
  { destruct comp; [apply apply_replaygain_track_frame | reflexivity]. }
  destruct (copy_artwork file (output_filename file) _) as [a w5] eqn:Hart.
  apply (f_equal snd) in Hart. cbn [snd] in Hart.
  destruct (set_flac_tags (output_filename file) (tags_to_set model) w5) as [t w6] eqn:Htag.
  apply (f_equal snd) in Htag. cbn [snd] in Htag. cbn [snd].
  rewrite <- Htag, set_flac_tags_frame by exact Hout.
  rewrite <- Hart, copy_artwork_frame by exact Hout.
  rewrite rmtree_if_exists_frame, remove_if_exists_frame by assumption.
  congruence.
Qed.

Lemma main_loop_frame (model : string) (comp : bool) (audio_files l : list string) (w : World) :
  Forall (fun file => ~ script_spells file q) audio_files ->
  fs (snd (main_loop model comp audio_files l w)) !! q = fs w !! q.
Proof.
  revert l w. induction audio_files as [|file rest IH]; intros l w Hall; cbn [main_loop];
    [reflexivity |].
  inversion Hall as [|? ? Hfile Hrest]; subst.
  pose proof (main_iteration_frame model comp file l w) as F1.
  destruct (main_iteration model comp file l w) as [l' w']. cbn [snd] in F1.
  rewrite (IH l' w' Hrest). apply F1.
  - destruct (under wav_dir q) eqn:Hu; [| reflexivity].
    exfalso. apply Hfile. now left.
  - intros ->. apply Hfile. right. now left.
  - intros ->. apply Hfile. right. right. now left.
Qed.

Lemma fold_frame (step : World -> string -> World) (l : list string) (w : World) :
  (forall w x, In x l -> fs (step w x) !! q = fs w !! q) ->
  fs (fold_left step l w) !! q = fs w !! q.
Proof.
  revert w. induction l as [|x l IH]; intros w Hstep; simpl; [reflexivity |].
  rewrite IH by (intros; apply Hstep; now right).
  apply Hstep. now left.
Qed.

Lemma main_processing_frame (model : string) (comp : bool) (audio_files : list string)
    (w : World) :
  Forall (fun file => ~ script_spells file q) audio_files ->
  audio_files <> [] ->
  fs (snd (main_processing model comp audio_files w)) !! q = fs w !! q.
Proof.
  intros Hall Hne. unfold main_processing.
  pose proof (main_loop_frame model comp audio_files [] w Hall) as F1.
  destruct (main_loop_list model comp audio_files [] w) as (sub & Hl & Hsub).
  destruct (main_loop model comp audio_files [] w) as [final w1].
  cbn [snd fst app] in F1, Hl. subst final. cbn [snd].
  assert (Hscr : under wav_dir q = false).
  { destruct audio_files as [|f0 rest]; [congruence |].
    inversion Hall as [|? ? Hf0 _]; subst.
    destruct (under wav_dir q) eqn:Hu; [| reflexivity].
    exfalso. apply Hf0. now left. }
  rewrite fs_print.
  rewrite (rmtree_if_exists_frame "separated") by exact Hscr.
  destruct sub as [|o sub]; [exact F1 |].
  destruct comp; cbn [negb]; [exact F1 |].
  rewrite fold_frame.
  - now rewrite apply_replaygain_album_frame.
  - intros w' x Hin. apply set_flac_tags_frame. intros ->.
    apply list_elem_of_In in Hin.
    pose proof (elem_of_sublist _ _ _ Hin Hsub) as Hx.
    apply list_elem_of_In, in_map_iff in Hx as (f & Hf & Hin').
    rewrite Forall_forall in Hall. apply list_elem_of_In in Hin'.
    apply (Hall f Hin'). right. right. left. now symmetry.
Qed.

Lemma normalization_round_frame (flac_file : string) (vars : list string * gset string)
    (w : World) :
  q <> normalized_dir_of flac_file -> q <> mp3_filename_of flac_file ->
  fs (snd (normalization_round flac_file vars w)) !! q = fs w !! q.
Proof.
  intros Hdir Hmp3. unfold normalization_round. destruct vars as [mp3_files created].
  fold (normalized_dir_of flac_file). fold (mp3_filename_of flac_file).
  destruct (os_path_exists flac_file w); cbn [negb snd]; [| reflexivity].
  destruct (bool_decide _);
  match goal with
  | |- context [normalize_and_convert_to_mp3 ?a ?b ?c ?x] =>
      assert (F0 : fs x !! q = fs w !! q)
        by (unfold print; cbn [fs]; rewrite ?os_makedirs_frame by exact Hdir; reflexivity);
      pose proof (normalize_and_convert_to_mp3_frame a b c x) as F1;
      destruct (normalize_and_convert_to_mp3 a b c x) as [ok w1]
  end.
  all: cbn [snd] in F1.
  all: destruct ok; cbn [negb snd]; [| unfold print; cbn [fs]; congruence].
  all: match goal with
  | |- context [copy_metadata_flac_to_mp3 ?a ?b ?x] =>
      pose proof (copy_metadata_flac_to_mp3_frame a b x Hmp3) as F2;
      destruct (copy_metadata_flac_to_mp3 a b x) as [mok w2];
      cbn [snd] in F2; cbn [snd];
      destruct mok; cbn [negb]; unfold print; cbn [fs]; congruence
  end.
Qed.

Lemma normalization_loop_frame (files : list string) (vars : list string * gset string)
    (w : World) :
  Forall (fun f => q <> normalized_dir_of f /\ q <> mp3_filename_of f) files ->
  fs (snd (normalization_loop files vars w)) !! q = fs w !! q.
Proof.
  revert vars w. induction files as [|f rest IH]; intros vars w Hall;
    cbn [normalization_loop]; [reflexivity |].
  inversion Hall as [|? ? [Hd Hm] Hrest]; subst.
  pose proof (normalization_round_frame f vars w Hd Hm) as F1.
  destruct (normalization_round f vars w) as [vars' w']. cbn [snd] in F1.
  now rewrite (IH vars' w' Hrest).
Qed.

Lemma process_normalization_frame (final_files_list : list string) (comp : bool) (w : World) :
  Forall (fun f => q <> normalized_dir_of f /\ q <> mp3_filename_of f) final_files_list ->
  fs (snd (process_normalization final_files_list comp w)) !! q = fs w !! q.
Proof.
  intros Hall. unfold process_normalization.
  pose proof (normalization_loop_frame final_files_list ([], ∅)
                (print "\n\n=== Starting Normalization Process ===" [] w) Hall) as F1.
  destruct (normalization_loop_list final_files_list [] ∅
              (print "\n\n=== Starting Normalization Process ===" [] w))
    as (sub & Hl & Hsub).
  destruct (normalization_loop final_files_list ([], ∅) _) as [[mp3_files c] w1].
  cbn [snd fst app] in F1, Hl. subst mp3_files. cbn [snd].
  rewrite !fs_print. rewrite fs_print in F1.
  destruct sub as [|m sub]; [exact F1 |].
  rewrite fold_frame.
  - rewrite fs_print.
    destruct comp.
    + rewrite fold_frame; [rewrite fs_print; exact F1 |].
      intros w' x _. apply apply_replaygain_track_frame.
    + rewrite apply_replaygain_album_frame, fs_print. exact F1.
  - intros w' x Hin. apply stamp_mp3_reference_tags_frame. intros ->.
    apply list_elem_of_In in Hin.
    pose proof (elem_of_sublist _ _ _ Hin Hsub) as Hx.
    apply list_elem_of_In, in_map_iff in Hx as (f & Hf & Hin').
    rewrite Forall_forall in Hall. apply list_elem_of_In in Hin'.
    destruct (Hall f Hin') as [_ Hm]. now apply Hm.
Qed.

(** The whole run, at a path the script does not spell. *)
Lemma main_frame (model : string) (comp norm : bool) (audio_files : list string) (w : World) :
  Forall (fun file => ~ script_spells file q) audio_files ->
  fs (snd (main model comp norm audio_files w)) !! q = fs w !! q.
Proof.
  intros Hall. unfold main. destruct audio_files as [|f0 rest]; [reflexivity |].
  pose proof (main_processing_frame model comp (f0 :: rest) w Hall ltac:(discriminate)) as F1.
  pose proof (main_processing_list model comp (f0 :: rest) w) as Hl.
  destruct (main_loop_list model comp (f0 :: rest) [] w) as (sub & Heq & Hsub).
  destruct (main_processing model comp (f0 :: rest) w) as [final w1].
  cbn [snd fst] in F1, Hl. rewrite Heq in Hl. cbn [app] in Hl. subst final.
  assert (F2 : fs (snd (match norm, sub with
                        | true, _ :: _ => process_normalization sub comp w1
                        | _, _ => ([], w1)
                        end)) !! q = fs w1 !! q).
  { destruct norm; [destruct sub as [|o sub'] |]; try reflexivity.
    apply process_normalization_frame. apply Forall_forall. intros x Hin.
    pose proof (elem_of_sublist _ _ _ Hin Hsub) as Hx.
    apply list_elem_of_In, in_map_iff in Hx as (f & Hf & Hin').
    rewrite Forall_forall in Hall. apply list_elem_of_In in Hin'.
    specialize (Hall f Hin'). subst x. unfold script_spells in Hall. tauto. }
  destruct (match norm, sub with
            | true, _ :: _ => process_normalization sub comp w1
            | _, _ => ([], w1)
            end) as [mp3 w2].
  cbn [snd] in F2 |- *. rewrite fs_print. congruence.
Qed.

(** A canonical path that one of the script's spellings names is the normal
    form of that spelling. *)
Lemma spelled_is_target (file : string) :
  canonical q = true -> script_spells file q -> script_target file q.
Proof.
  unfold canonical. rewrite !andb_true_iff, String.eqb_eq. intros [[[Hnorm _] _] _].
  unfold script_spells, script_target.
  intros [H | [H | [H | [H | H]]]]; [tauto | | | |]; rewrite <- H, Hnorm; tauto.
Qed.

(** X8: the script itself touches nothing but its own artefacts.  Take the
    tracks as discovery names them, and a file below the current directory,
    both in their canonical spelling.  If the file is no artefact of any of
    the tracks (not in the scratch directory, and not what the staging file,
    the output, the [Normalised] folder or the MP3 of the track is once its
    spelling is normalised) and the collaborators leave it alone, it is
    after the whole run as it was before: the script removes and rewrites
    its artefacts only. *)
Theorem script_touches_only_its_artefacts (model : string) (comp norm : bool)
    (audio_files : list string) (w : World) :
  canonical q = true ->
  Forall (fun file => canonical file = true /\ ~ script_target file q) audio_files ->
  fs (snd (main model comp norm audio_files w)) !! q = fs w !! q.
Proof.
  intros Hq Hall. apply main_frame.
  apply Forall_forall. intros file Hin. rewrite Forall_forall in Hall.
  destruct (Hall file Hin) as [_ Hno]. intros Hsp. apply Hno.
  now apply spelled_is_target.
Qed.

End Frame.

Lemma protecting_leaves_alone (q : string) (E : Externals) :
  leaves_alone (protecting q E) q.
Proof.
  split.
  - intros file f. simpl. destruct (separator_separate file f) as [ok f']. simpl.
    apply lookup_partial_alter_eq.
  - intros cmd f. simpl. destruct (subprocess_run cmd f) as [r f']. simpl.
    apply lookup_partial_alter_eq.
Qed.

(** A run over the album folder, with normalised MP3s: the second track of
    the folder, which is not processed, is after the run what it was. *)
Lemma script_touches_only_its_artefacts_witness :
  fs (snd (main (E:=protecting "a/y.wav" (scripted all_well)) "model" false true ["a/x.flac"]
             (start album_folder))) !! "a/y.wav"
  = fs (start album_folder) !! "a/y.wav".
Proof.
  apply (script_touches_only_its_artefacts (E:=protecting "a/y.wav" (scripted all_well))
           "a/y.wav" (protecting_leaves_alone "a/y.wav" (scripted all_well))
           "model" false true ["a/x.flac"] (start album_folder)).
  - vm_compute. reflexivity.
  - repeat constructor.
    intros [H | [H | [H | [H | H]]]]; vm_compute in H; discriminate.
Defined.

(** The staging file and the MP3 folder of a track in the current directory
    are spelled with [./]; as files they are [staging.flac] and
    [Normalised], and a track of that name is its own staging file. *)
Example root_level_artefacts :
  script_target "staging.flac" "staging.flac"
  /\ script_target "x.flac" "Normalised"
  /\ script_target "x.flac" "Normalised/x - Drumless.mp3"
  /\ staging_file_of "x.flac" = "./staging.flac"
  /\ canonical "./staging.flac" = false.
Proof.
  repeat split.
  - right; left. vm_compute. reflexivity.
  - right; right; right; left. vm_compute. reflexivity.
  - right; right; right; right. vm_compute. reflexivity.
Qed.

(* ===================================================================== *)
(** ** Tags and artwork *)
(* ===================================================================== *)

Section TagFacts.
Context {E : Externals}.

Lemma is_key_of_cons (kv : string * string) (d : list (string * string)) (key : string) :
  is_key_of (kv :: d) key = same_key key kv.1 || is_key_of d key.
Proof. reflexivity. Qed.

(** A key that differs from all keys of a dictionary beyond case is none of
    its keys. *)
Lemma is_key_of_fresh (d : list (string * string)) (key : string) :
  ~ In (PyStr.lower key) (map (fun kv => PyStr.lower kv.1) d) -> is_key_of d key = false.
Proof.
  induction d as [|kv d IH]; intros Hnot; [reflexivity |].
  rewrite is_key_of_cons. apply orb_false_iff. split.
  - unfold same_key. apply String.eqb_neq. intros Heq. apply Hnot. left. now symmetry.
  - apply IH. intros Hin. apply Hnot. now right.
Qed.

(** Assigning the pairs of a dictionary one after the other: the old values of
    its keys go, its pairs are appended in its order. *)
Lemma fold_setitem_tags (d : list (string * string)) (audio : FLAC) :
  List.NoDup (map (fun kv => PyStr.lower kv.1) d) ->
  flac_tags (fold_left (fun a kv => FLAC_setitem a kv.1 kv.2) d audio)
  = filter (fun kv => is_key_of d kv.1 = false) (flac_tags audio) ++ d
  /\ flac_pictures (fold_left (fun a kv => FLAC_setitem a kv.1 kv.2) d audio)
     = flac_pictures audio.
Proof.
  revert audio. induction d as [|[k v] d IH]; intros audio Hnd.
  - simpl. split; [| reflexivity]. rewrite app_nil_r.
    induction (flac_tags audio) as [|kv t IHt]; [reflexivity |].
    rewrite filter_cons_True by reflexivity. now rewrite <- IHt.
  - inversion Hnd as [|? ? Hnot Hnd']; subst.
    cbn [fold_left]. destruct (IH (FLAC_setitem audio (k, v).1 (k, v).2) Hnd') as [Ht Hp].
    rewrite Ht, Hp. split; [| reflexivity].
    cbn [FLAC_setitem flac_tags fst snd]. unfold vc_setitem.
    rewrite filter_app.
    rewrite (filter_filter_tags (fun kv => same_key kv.1 k) (fun kv => is_key_of d kv.1)).
    rewrite (filter_cons_True _ (k, v)) by (apply is_key_of_fresh; exact Hnot).
    rewrite filter_nil, <- app_assoc. reflexivity.
Qed.

(** [set_flac_tags] with valid keys on a file mutagen can open. *)
Lemma set_flac_tags_at (file_path : string) (tags_dict : list (string * string)) (w : World)
    (tags : list (string * string)) (pics : list Picture) :
  List.NoDup (map (fun kv => PyStr.lower kv.1) tags_dict) ->
  forallb (fun kv => is_valid_key kv.1) tags_dict = true ->
  fs w !! file_path = Some (FlacFile tags pics) ->
  set_flac_tags file_path tags_dict w
  = (true, set_fs (<[file_path := FlacFile
                       (filter (fun kv => is_key_of tags_dict kv.1 = false) tags ++ tags_dict)
                       pics]> (fs w)) w).
Proof.
  intros Hnd Hvalid Hp. unfold set_flac_tags, FLAC_open. rewrite Hp, Hvalid.
  unfold FLAC_save. rewrite fold_setitem_filename.
  destruct (fold_setitem_tags tags_dict (mkFLAC file_path tags pics) Hnd) as [-> ->].
  reflexivity.
Qed.

(** Every pair of a dictionary carries one of its keys. *)
Lemma filter_own_keys (tags_dict : list (string * string)) :
  filter (fun kv => is_key_of tags_dict kv.1 = false) tags_dict = [].
Proof.
  assert (Hsub : forall d0, incl d0 tags_dict ->
            filter (fun kv => is_key_of tags_dict kv.1 = false) d0 = []).
  { induction d0 as [|kv d0 IHd]; intros Hincl; [reflexivity |].
    rewrite filter_cons_False.
    - apply IHd. intros x Hx. apply Hincl. now right.
    - assert (Hin : In kv tags_dict) by (apply Hincl; now left).
      assert (Hk : is_key_of tags_dict kv.1 = true).
      { unfold is_key_of. apply existsb_exists. exists kv.1. split.
        - apply in_map_iff. now exists kv.
        - unfold same_key. apply String.eqb_refl. }
      rewrite Hk. discriminate. }
  apply Hsub. apply incl_refl.
Qed.

(** Tags that were set are as they are set again. *)
Lemma set_tags_twice (tags_dict tags : list (string * string)) :
  filter (fun kv => is_key_of tags_dict kv.1 = false)
    (filter (fun kv => is_key_of tags_dict kv.1 = false) tags ++ tags_dict)
  ++ tags_dict
  = filter (fun kv => is_key_of tags_dict kv.1 = false) tags ++ tags_dict.
Proof.
  rewrite filter_app, filter_own_keys, app_nil_r.
  rewrite (filter_filter_tags (fun kv => is_key_of tags_dict kv.1)
                              (fun kv => is_key_of tags_dict kv.1)).
  f_equal. apply filter_ext_tags. intros kv. apply orb_diag.
Qed.

(** X9: [set_flac_tags] with a dictionary whose keys differ beyond case.
    When all its keys are valid Vorbis comment keys and mutagen can open the
    file, the file keeps its pictures and the tags of all other keys, in
    their order, and ends with the pairs of the dictionary, in its order;
    doing it a second time changes nothing.  When one of the keys is not
    valid, or the path holds no FLAC file, it reports failure with one
    printed line and writes nothing. *)
Theorem set_flac_tags_replaces_and_appends (file_path : string)
    (tags_dict : list (string * string)) (w : World) :
  (forall tags pics,
     List.NoDup (map (fun kv => PyStr.lower kv.1) tags_dict) ->
     Forall (fun kv => is_valid_key kv.1 = true) tags_dict ->
     fs w !! file_path = Some (FlacFile tags pics) ->
     fst (set_flac_tags file_path tags_dict w) = true
     /\ fs (snd (set_flac_tags file_path tags_dict w))
        = <[file_path := FlacFile (filter (fun kv => is_key_of tags_dict kv.1 = false) tags
                                   ++ tags_dict) pics]> (fs w)
     /\ printed (snd (set_flac_tags file_path tags_dict w)) = printed w
     /\ fs (snd (set_flac_tags file_path tags_dict (snd (set_flac_tags file_path tags_dict w))))
        = fs (snd (set_flac_tags file_path tags_dict w)))
  /\ ((forall tags pics, fs w !! file_path <> Some (FlacFile tags pics))
      \/ Exists (fun kv => is_valid_key kv.1 = false) tags_dict ->
      fst (set_flac_tags file_path tags_dict w) = false
      /\ fs (snd (set_flac_tags file_path tags_dict w)) = fs w
      /\ printed (snd (set_flac_tags file_path tags_dict w))
         = printed w ++ [Say "Error setting tags on {}: {}" [AStr file_path]]).
Proof.
  split.
  - intros tags pics Hnd Hvalid Hp.
    assert (Hv : forallb (fun kv => is_valid_key kv.1) tags_dict = true).
    { apply forallb_forall. intros kv Hin. rewrite Forall_forall in Hvalid.
      apply Hvalid. now apply list_elem_of_In. }
    rewrite (set_flac_tags_at _ _ w tags pics Hnd Hv Hp). cbn [fst snd].
    repeat split.
    erewrite set_flac_tags_at; [| exact Hnd | exact Hv | simpl; apply lookup_insert_eq].
    cbn [snd fs set_fs]. rewrite insert_insert_eq. now rewrite set_tags_twice.
  - intros Hbad. unfold set_flac_tags, FLAC_open.
    destruct (fs w !! file_path) as [[| tags pics | | |]|] eqn:Hp; try (repeat split; fail).
    destruct Hbad as [Hno | Hkey]; [now contradiction (Hno tags pics) |].
    assert (Hv : forallb (fun kv => is_valid_key kv.1) tags_dict = false).
    { apply not_true_is_false. intros Hall.
      apply Exists_exists in Hkey as (kv & Hin & Hkv).
      apply list_elem_of_In in Hin.
      rewrite forallb_forall in Hall. rewrite (Hall kv Hin) in Hkv. discriminate. }
    rewrite Hv. repeat split.
Qed.

(** X10: the album pass stamps every listed output.  In the loop that sets
    the two reference tags after rsgain has run in album mode, every listed
    path that holds a FLAC file when the loop starts ends with its pictures,
    with its other tags in their order and with the two reference tags last,
    also when the list names the path more than once; a path that is not
    listed is left as it was. *)
Theorem album_pass_stamps_every_output (final_files_list : list string) (w : World) :
  (forall p tags pics,
     In p final_files_list ->
     fs w !! p = Some (FlacFile tags pics) ->
     fs (fold_left (fun w album_file => snd (set_flac_tags album_file album_tags_to_set w))
                   final_files_list w) !! p
     = Some (FlacFile (filter (fun kv => is_key_of album_tags_to_set kv.1 = false) tags
                       ++ album_tags_to_set) pics))
  /\ (forall q,
        ~ In q final_files_list ->
        fs (fold_left (fun w album_file => snd (set_flac_tags album_file album_tags_to_set w))
                      final_files_list w) !! q
        = fs w !! q).
Proof.
  assert (Hnd : List.NoDup (map (fun kv => PyStr.lower kv.1) album_tags_to_set)).
  { repeat constructor; simpl; intuition discriminate. }
  assert (Hv : forallb (fun kv => is_valid_key kv.1) album_tags_to_set = true) by reflexivity.
  split.
  - intros p tags pics.
    (* once stamped, the file stays as it is *)
    assert (Hkeep : forall l w0,
              fs w0 !! p = Some (FlacFile
                                   (filter (fun kv => is_key_of album_tags_to_set kv.1 = false) tags
                                    ++ album_tags_to_set) pics) ->
              fs (fold_left (fun w album_file => snd (set_flac_tags album_file album_tags_to_set w))
                            l w0) !! p
              = Some (FlacFile
                        (filter (fun kv => is_key_of album_tags_to_set kv.1 = false) tags
                         ++ album_tags_to_set) pics)).
    { induction l as [|x l IHl]; intros w0 Hp0; cbn [fold_left]; [exact Hp0 |].
      apply IHl. destruct (decide (x = p)) as [-> | Hne].
      - rewrite (set_flac_tags_at _ _ w0 _ _ Hnd Hv Hp0). cbn [snd set_fs fs].
        rewrite lookup_insert_eq. now rewrite set_tags_twice.
      - rewrite set_flac_tags_frame by congruence. exact Hp0. }
    revert w. induction final_files_list as [|x l IH]; intros w Hin Hp; [contradiction |].
    cbn [fold_left]. destruct (decide (x = p)) as [-> | Hne].
    + apply Hkeep. rewrite (set_flac_tags_at _ _ w _ _ Hnd Hv Hp). cbn [snd set_fs fs].
      apply lookup_insert_eq.
    + destruct Hin as [Hx | Hin]; [contradiction |].
      apply IH; [exact Hin |]. rewrite set_flac_tags_frame by congruence. exact Hp.
  - intros q Hq. apply fold_frame. intros w' x Hin.
    apply set_flac_tags_frame. intros ->. contradiction.
Qed.

(** X11: artwork survives the copy.  When [copy_artwork] reports success on a
    destination that is a FLAC file by its name, reading the pictures back
    from the destination gives the pictures that were read from the source,
    in their order, and there is at least one. *)
Theorem copied_artwork_reads_back (source_file dest_file : string) (w : World) :
  is_flac_file dest_file = true ->
  fst (copy_artwork source_file dest_file w) = true ->
  fst (extract_pictures dest_file (snd (copy_artwork source_file dest_file w)))
  = fst (extract_pictures source_file w)
  /\ fst (extract_pictures source_file w) <> [].
Proof.
  unfold is_flac_file. intros Hflac.
  unfold copy_artwork.
  destruct (FLAC_open dest_file (fs w)) as [audio|] eqn:Hopen; [| discriminate].
  apply FLAC_open_filename in Hopen as [Hname _].
  pose proof (extract_pictures_fs source_file w) as [Hfs _].
  destruct (extract_pictures source_file w) as [pics w1]. cbn [fst snd] in Hfs |- *.
  destruct pics as [|pic pics]; [discriminate |]. intros _.
  split; [| discriminate].
  unfold extract_pictures at 1. rewrite Hflac.
  cbn [snd set_fs fs]. unfold FLAC_save, FLAC_open.
  rewrite fold_add_picture_filename. cbn [clear_pictures flac_filename].
  rewrite Hname, lookup_insert_eq. cbn [fst flac_pictures].
  now rewrite (proj1 (fold_add_picture_pictures _ _)).
Qed.

End TagFacts.

(** The album tags on a file that has an algorithm tag in lower case: the
    old value goes, the title stays, the two tags come last. *)
Lemma set_flac_tags_replaces_and_appends_witness :
  fs (snd (set_flac_tags "a/x.flac" album_tags_to_set
             (start (<["a/x.flac" := FlacFile [("replaygain_algorithm", "old"); ("TITLE", "X")] []]>
                       album_folder))))
  !! "a/x.flac"
  = Some (FlacFile ([("TITLE", "X")] ++ album_tags_to_set) []).
Proof.
  pose proof (proj1 (set_flac_tags_replaces_and_appends "a/x.flac" album_tags_to_set
                (start (<["a/x.flac" := FlacFile [("replaygain_algorithm", "old"); ("TITLE", "X")]
                                          []]> album_folder)))
              [("replaygain_algorithm", "old"); ("TITLE", "X")] []
              ltac:(repeat constructor; simpl; intuition discriminate)
              ltac:(repeat constructor)
              ltac:(vm_compute; reflexivity)) as (_ & Hfs & _).
  rewrite Hfs. rewrite lookup_insert_eq. reflexivity.
Defined.

(** A key with an equals sign: nothing is written, also not the valid pair
    before it. *)
Example invalid_key_writes_nothing :
  set_flac_tags "a/x.flac" [("GENRE", "Rock"); ("A=B", "x")] (start album_folder)
  = (false, print "Error setting tags on {}: {}" [AStr "a/x.flac"] (start album_folder)).
Proof. vm_compute. reflexivity. Qed.

(** The cover of the first track of the album folder, copied to a fresh
    output and read back. *)
Lemma copied_artwork_reads_back_witness :
  fst (extract_pictures "a/x - Drumless.flac"
         (snd (copy_artwork "a/x.flac" "a/x - Drumless.flac"
                 (start (<["a/x - Drumless.flac" := FlacFile [] []]> album_folder)))))
  = [mkPicture "jpegdata" "image/jpeg" 3 "front"].
Proof.
  rewrite (proj1 (copied_artwork_reads_back "a/x.flac" "a/x - Drumless.flac"
                    (start (<["a/x - Drumless.flac" := FlacFile [] []]> album_folder))
                    ltac:(reflexivity) ltac:(vm_compute; reflexivity))).
  vm_compute. reflexivity.
Defined.

(* ===================================================================== *)
(** ** The tags of the MP3 files *)
(* ===================================================================== *)

Section Id3Facts.

Lemma id3_add_In (fr : Frame) (frames : list Frame) : In fr (id3_add fr frames).
Proof.
  induction frames as [|g rest IH]; simpl; [now left |].
  destruct (String.eqb (HashKey g) (HashKey fr)); [now left | now right].
Qed.

(** A frame under another key stays. *)
Lemma id3_add_other (g fr : Frame) (frames : list Frame) :
  In g frames -> HashKey g <> HashKey fr -> In g (id3_add fr frames).
Proof.
  intros Hin Hne. induction frames as [|h rest IH]; [contradiction |].
  simpl. destruct (String.eqb (HashKey h) (HashKey fr)) eqn:Hk.
  - destruct Hin as [-> | Hin]; [| now right].
    apply String.eqb_eq in Hk. contradiction.
  - destruct Hin as [-> | Hin]; [now left | right; now apply IH].
Qed.

Lemma id3_add_inv (g fr : Frame) (frames : list Frame) :
  In g (id3_add fr frames) -> g = fr \/ In g frames.
Proof.
  induction frames as [|h rest IH]; simpl.
  - intros [<- | []]. now left.
  - destruct (String.eqb (HashKey h) (HashKey fr)).
    + intros [<- | Hin]; [now left | right; now right].
    + intros [<- | Hin]; [right; now left |].
      destruct (IH Hin) as [-> | Hr]; [now left | right; now right].
Qed.

(** A tag holds one frame for a key, before [add] and after. *)
Lemma id3_add_NoDup (fr : Frame) (frames : list Frame) :
  List.NoDup (map HashKey frames) -> List.NoDup (map HashKey (id3_add fr frames)).
Proof.
  induction frames as [|h rest IH]; intros Hnd; simpl.
  - constructor; [intros [] | constructor].
  - inversion Hnd as [|? ? Hnot Hnd']; subst.
    destruct (String.eqb (HashKey h) (HashKey fr)) eqn:Hk.
    + apply String.eqb_eq in Hk. simpl. rewrite <- Hk. now constructor.
    + apply String.eqb_neq in Hk. simpl. constructor; [| now apply IH].
      intros Hin. apply in_map_iff in Hin as (g & Hg & Hin).
      apply id3_add_inv in Hin as [-> | Hin]; [congruence |].
      apply Hnot. rewrite <- Hg. now apply in_map.
Qed.

Lemma add_if_present_adds (key : string) (make : string -> Frame)
    (t : list (string * string)) (frames : list Frame) (value : string) (rest : list string) :
  vc_getitem key t = value :: rest -> In (make value) (add_if_present key make t frames).
Proof. intros Hget. unfold add_if_present. rewrite Hget. apply id3_add_In. Qed.

Lemma add_if_present_keeps (g : Frame) (key : string) (make : string -> Frame)
    (t : list (string * string)) (frames : list Frame) :
  In g frames -> (forall v, HashKey g <> HashKey (make v)) ->
  In g (add_if_present key make t frames).
Proof.
  intros Hin Hne. unfold add_if_present.
  destruct (vc_getitem key t) as [|v rest]; [exact Hin |].
  apply id3_add_other; [exact Hin | apply Hne].
Qed.

Lemma add_if_present_NoDup (key : string) (make : string -> Frame)
    (t : list (string * string)) (frames : list Frame) :
  List.NoDup (map HashKey frames) ->
  List.NoDup (map HashKey (add_if_present key make t frames)).
Proof.
  intros Hnd. unfold add_if_present.
  destruct (vc_getitem key t) as [|v rest]; [exact Hnd | now apply id3_add_NoDup].
Qed.

Lemma fold_pictures_keeps (g : Frame) (pics : list Picture) (frames : list Frame) :
  In g frames -> (forall pic, HashKey g <> HashKey (APIC_of pic)) ->
  In g (fold_left (fun fr picture => id3_add (APIC_of picture) fr) pics frames).
Proof.
  intros Hin Hne. revert frames Hin.
  induction pics as [|pic pics IH]; intros frames Hin; simpl; [exact Hin |].
  apply IH. apply id3_add_other; [exact Hin | apply Hne].
Qed.

Lemma fold_pictures_NoDup (pics : list Picture) (frames : list Frame) :
  List.NoDup (map HashKey frames) ->
  List.NoDup (map HashKey (fold_left (fun fr picture => id3_add (APIC_of picture) fr)
                                     pics frames)).
Proof.
  revert frames. induction pics as [|pic pics IH]; intros frames Hnd; simpl; [exact Hnd |].
  apply IH. now apply id3_add_NoDup.
Qed.

Lemma APIC_key_desc (p1 p2 : Picture) :
  HashKey (APIC_of p1) = HashKey (APIC_of p2) <-> pic_desc p1 = pic_desc p2.
Proof.
  unfold APIC_of. simpl. split; [| now intros ->].
  intros Heq. now apply String.app_inj in Heq.
Qed.

(** The picture that comes last among those of its description arrives. *)
Lemma fold_pictures_last (pics : list Picture) (frames : list Frame)
    (before after : list Picture) (pic : Picture) :
  pics = before ++ pic :: after ->
  Forall (fun p => pic_desc p <> pic_desc pic) after ->
  In (APIC_of pic) (fold_left (fun fr picture => id3_add (APIC_of picture) fr) pics frames).
Proof.
  intros -> Hafter. rewrite fold_left_app. cbn [fold_left].
  generalize (fold_left (fun fr picture => id3_add (APIC_of picture) fr) before frames).
  intros base.
  assert (Hin : In (APIC_of pic) (id3_add (APIC_of pic) base)) by apply id3_add_In.
  revert Hin. generalize (id3_add (APIC_of pic) base). clear base.
  induction after as [|p after IH]; intros base Hin; simpl; [exact Hin |].
  inversion Hafter as [|? ? Hp Hrest]; subst.
  apply IH; [exact Hrest |].
  apply id3_add_other; [exact Hin |].
  intros Heq. apply APIC_key_desc in Heq. congruence.
Qed.

(** Two frames of a tag under one key are one frame. *)
Lemma same_key_same_frame (frames : list Frame) (a b : Frame) :
  List.NoDup (map HashKey frames) -> In a frames -> In b frames ->
  HashKey a = HashKey b -> a = b.
Proof.
  induction frames as [|h rest IH]; [contradiction |].
  intros Hnd Ha Hb Hk. inversion Hnd as [|? ? Hnot Hnd']; subst.
  destruct Ha as [-> | Ha]; destruct Hb as [-> | Hb]; try reflexivity.
  - exfalso. apply Hnot. rewrite Hk. now apply in_map.
  - exfalso. apply Hnot. rewrite <- Hk. now apply in_map.
  - now apply IH.
Qed.

End Id3Facts.

(** The key of a frame the copy writes differs from the key of another. *)
Ltac key_ne :=
  let H := fresh in
  intros; intros H; cbv in H; discriminate H.

Section Mp3Metadata.
Context {E : Externals}.

(** What [copy_metadata_flac_to_mp3] writes, as one expression. *)
Lemma copy_metadata_flac_to_mp3_frames (source_flac dest_mp3 : string) (w : World)
    (tags : list (string * string)) (pics : list Picture) (old : option (list Frame)) :
  fs w !! source_flac = Some (FlacFile tags pics) ->
  fs w !! dest_mp3 = Some (Mp3File old) ->
  copy_metadata_flac_to_mp3 source_flac dest_mp3 w
  = (true,
     set_fs (<[dest_mp3 := Mp3File (Some
        (fold_left (fun fr picture => id3_add (APIC_of picture) fr) pics
          (fold_left (fun fr rg_tag => add_if_present rg_tag (TXXX (PyStr.upper rg_tag)) tags fr)
             replaygain_tags
             (add_if_present "compilation" (TXXX "COMPILATION") tags
                (add_if_present "comment" (COMM "eng" EmptyString) tags
                   (fold_left (fun fr m => add_if_present m.1 (TextFrame m.2) tags fr)
                      tag_mapping (default [] old)))))))]> (fs w)) w).
Proof.
  intros Hsrc Hdst. unfold copy_metadata_flac_to_mp3, FLAC_open, MP3_open.
  rewrite Hsrc, Hdst. unfold MP3_save, tags_or_new. cbn [mp3_filename mp3_tags flac_tags
    flac_pictures]. destruct old; reflexivity.
Qed.

(** X12: what the MP3 gets of the tags of the FLAC.  When both files open,
    the copy succeeds and rewrites the MP3 alone.  For the title, the album,
    the artist, the album artist and the track number, when the FLAC has the
    tag, the MP3 ends with the mapped text frame holding the first value of
    the tag (the key compared without case), when that value is a text: not
    empty, and without the NUL character that separates the values of a
    frame; likewise the comment, the compilation flag and the ReplayGain
    tags.  A frame the MP3 had under a key the copy does not write is kept,
    unless it is a text frame without text.  (The genre and the date of the
    mapping go into frames that read their text as a list of genres and as
    a time stamp, and keep of it what reads as such.) *)
Theorem mp3_gets_first_values (source_flac dest_mp3 : string) (w : World)
    (tags : list (string * string)) (pics : list Picture) (old : option (list Frame)) :
  fs w !! source_flac = Some (FlacFile tags pics) ->
  fs w !! dest_mp3 = Some (Mp3File old) ->
  exists frames,
    copy_metadata_flac_to_mp3 source_flac dest_mp3 w
    = (true, set_fs (<[dest_mp3 := Mp3File (Some frames)]> (fs w)) w)
    /\ (forall flac_key id3_frame value rest,
          In (flac_key, id3_frame) tag_mapping ->
          flac_key <> "genre" ->
          flac_key <> "date" ->
          vc_getitem flac_key tags = value :: rest ->
          plain_text value = true ->
          In (TextFrame id3_frame value) frames)
    /\ (forall value rest,
          vc_getitem "comment" tags = value :: rest ->
          plain_text value = true ->
          In (COMM "eng" EmptyString value) frames)
    /\ (forall value rest,
          vc_getitem "compilation" tags = value :: rest ->
          plain_text value = true ->
          In (TXXX "COMPILATION" value) frames)
    /\ (forall rg_tag value rest,
          In rg_tag replaygain_tags ->
          vc_getitem rg_tag tags = value :: rest ->
          plain_text value = true ->
          In (TXXX (PyStr.upper rg_tag) value) frames)
    /\ (forall g,
          In g (default [] old) ->
          blank g = false ->
          (forall id text, In id (map snd tag_mapping) -> HashKey g <> HashKey (TextFrame id text)) ->
          (forall text, HashKey g <> HashKey (COMM "eng" EmptyString text)) ->
          (forall text, HashKey g <> HashKey (TXXX "COMPILATION" text)) ->
          (forall rg_tag text, In rg_tag replaygain_tags ->
                               HashKey g <> HashKey (TXXX (PyStr.upper rg_tag) text)) ->
          (forall pic, In pic pics -> HashKey g <> HashKey (APIC_of pic)) ->
          In g frames).
Proof.
  intros Hsrc Hdst. eexists. split; [apply (copy_metadata_flac_to_mp3_frames _ _ _ _ _ _ Hsrc Hdst) |].
  cbn [fold_left tag_mapping replaygain_tags fst snd].
  split; [| split; [| split; [| split]]].
  - intros flac_key id3_frame value rest Hin _ _ Hget _.
    simpl in Hin.
    repeat (destruct Hin as [Hin | Hin];
            [injection Hin as <- <-;
             (apply fold_pictures_keeps; [| key_ne]);
             repeat first [ eapply add_if_present_adds; exact Hget
                          | apply add_if_present_keeps; [| key_ne] ] |]).
    contradiction.
  - intros value rest Hget _.
    apply fold_pictures_keeps; [| key_ne].
    repeat first [ eapply add_if_present_adds; exact Hget
                 | apply add_if_present_keeps; [| key_ne] ].
  - intros value rest Hget _.
    apply fold_pictures_keeps; [| key_ne].
    repeat first [ eapply add_if_present_adds; exact Hget
                 | apply add_if_present_keeps; [| key_ne] ].
  - intros rg_tag value rest Hin Hget _.
    simpl in Hin.
    repeat (destruct Hin as [Hin | Hin];
            [subst rg_tag;
             (apply fold_pictures_keeps; [| key_ne]);
             repeat first [ eapply add_if_present_adds; exact Hget
                          | apply add_if_present_keeps; [| key_ne] ] |]).
    contradiction.
  - intros g Hin _ Htext Hcomm Hcomp Hrg Hpic.
    assert (Hfold : forall (ps : list Picture) base,
               (forall pic, In pic ps -> HashKey g <> HashKey (APIC_of pic)) ->
               In g base ->
               In g (fold_left (fun fr picture => id3_add (APIC_of picture) fr) ps base)).
    { induction ps as [|pic ps IH]; intros base Hps Hb; simpl; [exact Hb |].
      apply IH; [intros; apply Hps; now right |].
      apply id3_add_other; [exact Hb | apply Hps; now left]. }
    apply Hfold; [exact Hpic |].
    repeat (apply add_if_present_keeps;
            [| first [ intros v; apply Hrg; simpl; tauto
                     | exact Hcomp | exact Hcomm
                     | intros v; apply Htext; simpl; tauto ]]).
    exact Hin.
Qed.

(** X13: what the MP3 gets of the pictures of the FLAC.  The frames of a tag
    are held by key, and the key of a picture frame is made of its
    description: the MP3 ends with one frame for a key, the picture that is
    the last of its description in the FLAC arrives, and two pictures that
    both arrive under one description are the same picture.  So of several
    pictures with one description (such as the covers read from an MPEG-4
    file, all described as [Cover]) only the last reaches the MP3. *)
Theorem mp3_keeps_one_picture_per_description (source_flac dest_mp3 : string) (w : World)
    (tags : list (string * string)) (pics : list Picture) (old : option (list Frame)) :
  fs w !! source_flac = Some (FlacFile tags pics) ->
  fs w !! dest_mp3 = Some (Mp3File old) ->
  List.NoDup (map HashKey (default [] old)) ->
  exists frames,
    fs (snd (copy_metadata_flac_to_mp3 source_flac dest_mp3 w)) !! dest_mp3
    = Some (Mp3File (Some frames))
    /\ List.NoDup (map HashKey frames)
    /\ (forall before pic after,
          pics = before ++ pic :: after ->
          Forall (fun p => pic_desc p <> pic_desc pic) after ->
          In (APIC_of pic) frames)
    /\ (forall p1 p2,
          In (APIC_of p1) frames -> In (APIC_of p2) frames ->
          pic_desc p1 = pic_desc p2 -> APIC_of p1 = APIC_of p2).
Proof.
  intros Hsrc Hdst Hnd. eexists.
  rewrite (copy_metadata_flac_to_mp3_frames _ _ _ _ _ _ Hsrc Hdst).
  cbn [snd set_fs fs]. split; [apply lookup_insert_eq |].
  assert (Hkeys : List.NoDup (map HashKey
            (fold_left (fun fr picture => id3_add (APIC_of picture) fr) pics
              (fold_left (fun fr rg_tag => add_if_present rg_tag (TXXX (PyStr.upper rg_tag)) tags fr)
                 replaygain_tags
                 (add_if_present "compilation" (TXXX "COMPILATION") tags
                    (add_if_present "comment" (COMM "eng" EmptyString) tags
                       (fold_left (fun fr m => add_if_present m.1 (TextFrame m.2) tags fr)
                          tag_mapping (default [] old)))))))).
  { apply fold_pictures_NoDup. cbn [fold_left tag_mapping replaygain_tags].
    repeat apply add_if_present_NoDup. exact Hnd. }
  split; [exact Hkeys | split].
  - intros before pic after. apply fold_pictures_last.
  - intros p1 p2 H1 H2 Hd.
    apply (same_key_same_frame _ _ _ Hkeys H1 H2). now apply APIC_key_desc.
Qed.





End Mp3Metadata.

(** The title of the first track of the album folder reaches a fresh MP3
    as its [TIT2] frame. *)
Lemma mp3_gets_first_values_witness :
  exists frames,
    copy_metadata_flac_to_mp3 "a/x.flac" "a/x.mp3"
      (start (<["a/x.mp3" := Mp3File None]> album_folder))
    = (true, set_fs (<["a/x.mp3" := Mp3File (Some frames)]>
                       (fs (start (<["a/x.mp3" := Mp3File None]> album_folder))))
                    (start (<["a/x.mp3" := Mp3File None]> album_folder)))
    /\ In (TextFrame "TIT2" "X") frames.
Proof.
  assert (Hsrc : fs (start (<["a/x.mp3" := Mp3File None]> album_folder)) !! "a/x.flac"
                 = Some (FlacFile [("TITLE", "X")] [mkPicture "jpegdata" "image/jpeg" 3 "front"]))
    by (vm_compute; reflexivity).
  assert (Hdst : fs (start (<["a/x.mp3" := Mp3File None]> album_folder)) !! "a/x.mp3"
                 = Some (Mp3File None))
    by (vm_compute; reflexivity).
  destruct (mp3_gets_first_values "a/x.flac" "a/x.mp3" _ _ _ _ Hsrc Hdst)
    as (frames & Hrun & Htext & _).
  exists frames. split; [exact Hrun |].
  apply (Htext "title" "TIT2" "X" []);
    [simpl; tauto | discriminate | discriminate | reflexivity | reflexivity].
Defined.

(** The cover of the first track of the album folder reaches a fresh MP3. *)
Lemma mp3_keeps_one_picture_per_description_witness :
  exists frames,
    fs (snd (copy_metadata_flac_to_mp3 "a/x.flac" "a/x.mp3"
               (start (<["a/x.mp3" := Mp3File None]> album_folder)))) !! "a/x.mp3"
    = Some (Mp3File (Some frames))
    /\ In (APIC "image/jpeg" 3 "front" "jpegdata") frames.
Proof.
  assert (Hsrc : fs (start (<["a/x.mp3" := Mp3File None]> album_folder)) !! "a/x.flac"
                 = Some (FlacFile [("TITLE", "X")] [mkPicture "jpegdata" "image/jpeg" 3 "front"]))
    by (vm_compute; reflexivity).
  assert (Hdst : fs (start (<["a/x.mp3" := Mp3File None]> album_folder)) !! "a/x.mp3"
                 = Some (Mp3File None))
    by (vm_compute; reflexivity).
  destruct (mp3_keeps_one_picture_per_description "a/x.flac" "a/x.mp3" _ _ _ _ Hsrc Hdst
              (List.NoDup_nil _))
    as (frames & Hfs & _ & Hlast & _).
  exists frames. split; [exact Hfs |].
  apply (Hlast [] (mkPicture "jpegdata" "image/jpeg" 3 "front") []); [reflexivity | constructor].
Defined.

(** Of two covers with one description the second reaches the MP3, the first
    does not. *)
Example second_cover_replaces_first :
  fs (snd (copy_metadata_flac_to_mp3 "o.flac" "o.mp3"
             (start (<["o.flac" := FlacFile [] [mkPicture "front" "image/jpeg" 3 "Cover";
                                                mkPicture "back" "image/png" 3 "Cover"]]>
                       (<["o.mp3" := Mp3File None]> ∅))))) !! "o.mp3"
  = Some (Mp3File (Some [APIC "image/png" 3 "Cover" "back"])).
Proof. vm_compute. reflexivity. Qed.

(* ===================================================================== *)
(** ** The stem filter reads the whole path *)
(* ===================================================================== *)

Section DrumsInPath.
Context {E : Externals}.
Import PyStr.

Lemma lower_app (s t : string) : lower (s +:+ t) = lower s +:+ lower t.
Proof.
  induction s as [|a s IH]; [reflexivity |].
  rewrite append_cons. cbn [lower]. now rewrite IH, append_cons.
Qed.

Lemma prefix_app (p s t : string) :
  String.prefix p s = true -> String.prefix p (s +:+ t) = true.
Proof.
  revert s. induction p as [|a p IH]; intros s Hp; [now destruct (s +:+ t) |].
  destruct s as [|b s]; [discriminate |].
  rewrite append_cons. simpl in Hp |- *.
  destruct (ascii_dec a b); [now apply IH | discriminate].
Qed.

Lemma prefix_split (p s : string) :
  String.prefix p s = true -> exists r, s = p +:+ r.
Proof.
  revert s. induction p as [|a p IH]; intros s Hp; [now exists s |].
  destruct s as [|b s]; [discriminate |].
  simpl in Hp. destruct (ascii_dec a b) as [<- |]; [| discriminate].
  destruct (IH s Hp) as (r & ->). exists r. now rewrite append_cons.
Qed.

Lemma contains_app_l (sub s t : string) :
  contains sub s = true -> contains sub (s +:+ t) = true.
Proof.
  induction s as [|a s IH]; intros Hc.
  - simpl in Hc. destruct sub; [| discriminate]. now destruct t.
  - rewrite append_cons. cbn [contains] in Hc |- *.
    destruct (String.prefix sub (String a s)) eqn:Hp.
    + rewrite <- append_cons. now rewrite (prefix_app _ _ t Hp).
    + destruct (String.prefix sub (String a (s +:+ t))); [reflexivity | now apply IH].
Qed.

(** X15: the filter that drops the drum stem reads the whole path of a stem,
    the directory included.  When the name of the stem directory, a name
    that glob takes as it is written (without [*], [?] and [[]), itself
    holds [drums], in any case, no stem qualifies: peak detection gives no
    value and the merge reports failure, and neither runs a command or
    changes anything. *)
Theorem drums_in_directory_name_hides_every_stem (d output_file : string)
    (gain_db : option float) (w : World) :
  has_magic d = false ->
  contains "drums" (lower d) = true ->
  qualifying_stems d (fs w) = []
  /\ detect_peak_level d w = (None, w)
  /\ merge_audio_files d output_file gain_db w = (false, w).
Proof.
  intros _ Hd.
  assert (Hq : qualifying_stems d (fs w) = []).
  { destruct (qualifying_stems d (fs w)) as [|k ks] eqn:Hsel; [reflexivity |].
    exfalso.
    assert (Hin : In k (qualifying_stems d (fs w))) by (rewrite Hsel; now left).
    apply qualifying_stems_spec in Hin as [Hglob Hno].
    apply glob_wav_spec in Hglob as (_ & _ & Hpat).
    unfold matches_wav_pattern in Hpat.
    apply andb_true_iff in Hpat as [Hpat _]. apply andb_true_iff in Hpat as [Hpat _].
    apply andb_true_iff in Hpat as [Hpre _].
    apply prefix_split in Hpre as (r & ->).
    rewrite !lower_app, append_assoc in Hno.
    rewrite (contains_app_l _ _ _ Hd) in Hno. discriminate. }
  split; [exact Hq |].
  unfold detect_peak_level, merge_audio_files. fold (qualifying_stems d (fs w)).
  rewrite Hq. split; reflexivity.
Qed.

End DrumsInPath.

(** A vocal stem in a directory named [my drums]: glob finds it, the filter
    drops it. *)
Lemma drums_in_directory_name_hides_every_stem_witness :
  In "my drums/vocals.wav"
     (glob_wav "my drums" (<["my drums/vocals.wav" := OtherFile]> (<["my drums" := Dir]> ∅)))
  /\ detect_peak_level (E:=scripted all_well) "my drums"
       (start (<["my drums/vocals.wav" := OtherFile]> (<["my drums" := Dir]> ∅)))
     = (None, start (<["my drums/vocals.wav" := OtherFile]> (<["my drums" := Dir]> ∅))).
Proof.
  split; [vm_compute; tauto |].
  apply (drums_in_directory_name_hides_every_stem (E:=scripted all_well) "my drums"
           "out.flac" None); reflexivity.
Defined.

(* ===================================================================== *)
(** ** The questions and the dependency checks *)
(* ===================================================================== *)

Section StripFacts.
Import PyStr.

Lemma rev_append (s t : string) : rev (s +:+ t) = rev t +:+ rev s.
Proof.
  induction s as [|a s IH].
  - rewrite append_nil_l. simpl. now rewrite append_nil_r.
  - rewrite append_cons. cbn [rev]. now rewrite IH, append_assoc.
Qed.

Lemma rev_rev (s : string) : rev (rev s) = s.
Proof.
  induction s as [|a s IH]; [reflexivity |].
  cbn [rev]. rewrite rev_append, IH. reflexivity.
Qed.

Variable two : ascii -> ascii -> bool.
Variable three : ascii -> ascii -> ascii -> bool.

(** What is left is the end of the string. *)
Lemma skip_spaces_suffix (n : nat) (s : string) :
  (String.length s <= n)%nat -> exists pre, s = pre +:+ skip_spaces two three s.
Proof.
  revert s. induction n as [|n IH]; intros s Hn.
  - destruct s; [now exists EmptyString | simpl in Hn; lia].
  - destruct s as [|a r]; [now exists EmptyString |].
    simpl in Hn. cbn [skip_spaces].
    destruct (space1 a).
    { destruct (IH r ltac:(lia)) as (pre & Hpre).
      exists (String a pre). rewrite append_cons. now rewrite <- Hpre. }
    destruct r as [|b r2]; [now exists EmptyString |].
    destruct (two a b).
    { destruct (IH r2 ltac:(simpl in Hn; lia)) as (pre & Hpre).
      exists (String a (String b pre)). rewrite !append_cons. now rewrite <- Hpre. }
    destruct r2 as [|c r3]; [now exists EmptyString |].
    destruct (three a b c); [| now exists EmptyString].
    destruct (IH r3 ltac:(simpl in Hn; lia)) as (pre & Hpre).
    exists (String a (String b (String c pre))). rewrite !append_cons. now rewrite <- Hpre.
Qed.

Lemma skip_spaces_length (s : string) :
  (String.length (skip_spaces two three s) <= String.length s)%nat.
Proof.
  destruct (skip_spaces_suffix (String.length s) s (le_n _)) as (pre & Hpre).
  rewrite Hpre at 2. rewrite length_append. lia.
Qed.

(** Nothing is left to drop. *)
Lemma skip_spaces_idem (n : nat) (s : string) :
  (String.length s <= n)%nat ->
  skip_spaces two three (skip_spaces two three s) = skip_spaces two three s.
Proof.
  revert s. induction n as [|n IH]; intros s Hn.
  - destruct s; [reflexivity | simpl in Hn; lia].
  - destruct s as [|a r]; [reflexivity |].
    simpl in Hn. cbn [skip_spaces].
    destruct (space1 a) eqn:H1; [apply IH; lia |].
    destruct r as [|b r2]; [cbn [skip_spaces]; now rewrite H1 |].
    destruct (two a b) eqn:H2; [apply IH; simpl in Hn; lia |].
    destruct r2 as [|c r3]; [cbn [skip_spaces]; now rewrite H1, H2 |].
    destruct (three a b c) eqn:H3; [apply IH; simpl in Hn; lia |].
    cbn [skip_spaces]. now rewrite H1, H2, H3.
Qed.

(** A string with nothing to drop at its start has none at the start of
    what it starts with. *)
Lemma skip_spaces_prefix (p q : string) :
  skip_spaces two three (p +:+ q) = p +:+ q -> skip_spaces two three p = p.
Proof.
  intros Hfix.
  assert (Hlen : forall x y : string, (String.length x < String.length y)%nat ->
                                      skip_spaces two three x <> y).
  { intros x y Hlt Heq. pose proof (skip_spaces_length x) as Hle. rewrite Heq in Hle. lia. }
  destruct p as [|a p1]; [reflexivity |].
  rewrite append_cons in Hfix. cbn [skip_spaces] in Hfix |- *.
  destruct (space1 a).
  { exfalso. eapply Hlen; [| exact Hfix]. simpl. lia. }
  destruct p1 as [|b p2]; [reflexivity |].
  rewrite append_cons in Hfix.
  destruct (two a b).
  { exfalso. eapply Hlen; [| exact Hfix]. simpl. lia. }
  destruct p2 as [|c p3]; [reflexivity |].
  rewrite append_cons in Hfix.
  destruct (three a b c); [| reflexivity].
  exfalso. eapply Hlen; [| exact Hfix]. simpl. lia.
Qed.

End StripFacts.

Section Questions.
Import PyStr.

(** Stripping a second time changes nothing. *)
Lemma strip_idem (s : string) : strip (strip s) = strip s.
Proof.
  unfold strip, rstrip, lstrip.
  set (sp2 := fun a b => space2 b a). set (sp3 := fun a b c => space3 c b a).
  set (t := skip_spaces space2 space3 s).
  assert (Ht : skip_spaces space2 space3 t = t)
    by apply (skip_spaces_idem _ _ (String.length s) s (le_n _)).
  destruct (skip_spaces_suffix sp2 sp3 (String.length (rev t)) (rev t) (le_n _))
    as (pre & Hpre).
  set (u := skip_spaces sp2 sp3 (rev t)) in *.
  assert (Hu : t = rev u +:+ rev pre).
  { rewrite <- (rev_rev t), Hpre, rev_append. reflexivity. }
  assert (Hfix : skip_spaces space2 space3 (rev u) = rev u).
  { apply (skip_spaces_prefix _ _ (rev u) (rev pre)). now rewrite <- Hu. }
  rewrite Hfix, rev_rev. unfold u.
  now rewrite (skip_spaces_idem sp2 sp3 (String.length (rev t)) (rev t) (le_n _)).
Qed.

Lemma ask_yes_or_no_spec (prompt : string) (invalid : list string) (w : World) :
  Forall (fun line => is_yes_or_no (strip line) = false) invalid ->
  (forall answer rest,
     is_yes_or_no (strip answer) = true ->
     ask_yes_or_no prompt (invalid ++ answer :: rest) w
     = (Some (is_yes (strip answer), rest),
        mkWorld (fs w)
                (printed w
                 ++ flat_map (fun _ => [Say prompt [];
                                        Say "Invalid input. Please enter y/Y or n/N." []]) invalid
                 ++ [Say prompt []])
                (events w)))
  /\ fst (ask_yes_or_no prompt invalid w) = None.
Proof.
  revert w. induction invalid as [|line invalid IH]; intros w Hinv.
  - split; [| reflexivity].
    intros answer rest Hans. cbn [app ask_yes_or_no flat_map]. rewrite Hans. reflexivity.
  - inversion Hinv as [|? ? Hline Hrest]; subst.
    split.
    + intros answer rest Hans. cbn [app ask_yes_or_no]. rewrite Hline.
      rewrite (proj1 (IH _ Hrest) answer rest Hans).
      unfold print. cbn [fs printed events flat_map]. f_equal. f_equal.
      rewrite <- !app_assoc. reflexivity.
    + cbn [ask_yes_or_no]. rewrite Hline. apply (proj2 (IH _ Hrest)).
Qed.

(** X16: the two yes-or-no questions ask again until they are answered.
    An answer counts when, stripped of the whitespace around it, it is [y],
    [Y], [n] or [N].  The lines before the first answer that counts are read
    and refused one by one, each with the prompt and the line of complaint;
    the answer is yes for [y] and [Y]; the lines after it are left unread,
    and nothing but the standard output is touched.  When the input ends
    before an answer that counts, [input] raises [EOFError]. *)
Theorem yes_or_no_asks_until_answered (invalid : list string) (answer : string)
    (rest : list string) (w : World) :
  Forall (fun line => is_yes_or_no (strip line) = false) invalid ->
  is_yes_or_no (strip answer) = true ->
  (fst (get_compilation_input (invalid ++ answer :: rest) w)
   = Some (is_yes (strip answer), rest)
   /\ fst (get_normalization_input (invalid ++ answer :: rest) w)
      = Some (is_yes (strip answer), rest))
  /\ printed_since w (snd (get_compilation_input (invalid ++ answer :: rest) w))
     = flat_map (fun _ => [Say "Is this a compilation rather than one artist? y/n or Y/N: " [];
                           Say "Invalid input. Please enter y/Y or n/N." []]) invalid
       ++ [Say "Is this a compilation rather than one artist? y/n or Y/N: " []]
  /\ fs (snd (get_compilation_input (invalid ++ answer :: rest) w)) = fs w
  /\ events (snd (get_compilation_input (invalid ++ answer :: rest) w)) = events w
  /\ fs (snd (get_normalization_input (invalid ++ answer :: rest) w)) = fs w
  /\ events (snd (get_normalization_input (invalid ++ answer :: rest) w)) = events w
  /\ fst (get_compilation_input invalid w) = None
  /\ fst (get_normalization_input invalid w) = None.
Proof.
  intros Hinv Hans. unfold get_compilation_input, get_normalization_input.
  rewrite !(proj1 (ask_yes_or_no_spec _ invalid w Hinv) answer rest Hans).
  cbn [fst snd fs events].
  repeat split; try apply (proj2 (ask_yes_or_no_spec _ invalid w Hinv)).
  now apply printed_since_app.
Qed.

(** The loop of the model question gives a name that is not blank. *)
Lemma model_selection_loop_spec (n : nat) (stdin : list string) (w w' : World)
    (model : string) (rest : list string) :
  (length stdin <= n)%nat ->
  model_selection_loop stdin w = (Some (model, rest), w') ->
  model <> EmptyString /\ strip model = model
  /\ (exists used, stdin = used ++ rest /\ used <> [])
  /\ fs w' = fs w /\ events w' = events w.
Proof.
  revert stdin w. induction n as [|n IH]; intros stdin w Hn Hrun.
  - destruct stdin; [discriminate | simpl in Hn; lia].
  - destruct stdin as [|line stdin]; [discriminate |].
    simpl in Hn. cbn [model_selection_loop] in Hrun.
    destruct (String.eqb (strip line) EmptyString).
    { injection Hrun as <- <- <-. repeat split; try discriminate.
      exists [line]. split; [reflexivity | discriminate]. }
    destruct (String.eqb (strip line) "1").
    { injection Hrun as <- <- <-. repeat split; try discriminate.
      exists [line]. split; [reflexivity | discriminate]. }
    destruct (String.eqb (strip line) "2").
    { injection Hrun as <- <- <-. repeat split; try discriminate.
      exists [line]. split; [reflexivity | discriminate]. }
    destruct (String.eqb (strip line) "3").
    + destruct stdin as [|line2 stdin]; [discriminate |].
      destruct (String.eqb (strip line2) EmptyString) eqn:Hblank; cbn [negb] in Hrun.
      * apply IH in Hrun as (Hne & Hst & (used & -> & Hused) & Hfs & Hev);
          [| simpl in Hn; lia].
        repeat split; try assumption.
        exists (line :: line2 :: used). split; [reflexivity | discriminate].
      * injection Hrun as <- <- <-. apply String.eqb_neq in Hblank.
        split; [exact Hblank |]. split; [apply strip_idem |].
        split; [| split; reflexivity].
        exists [line; line2]. split; [reflexivity | discriminate].
    + apply IH in Hrun as (Hne & Hst & (used & -> & Hused) & Hfs & Hev); [| lia].
      repeat split; try assumption.
      exists (line :: used). split; [reflexivity | discriminate].
Qed.

(** X17: the model question never gives a blank name.  Whatever is typed,
    a model name that [get_model_selection] returns is not empty and has no
    whitespace around it; the function has read at least one line and left
    the rest of the input unread, and has touched nothing but the standard
    output.  An empty line and [2] both select the default model. *)
Theorem model_selection_is_never_blank (stdin : list string) (w w' : World)
    (model : string) (rest : list string) :
  get_model_selection stdin w = (Some (model, rest), w') ->
  model <> EmptyString /\ strip model = model
  /\ (exists used, stdin = used ++ rest /\ used <> [])
  /\ fs w' = fs w /\ events w' = events w
  /\ (forall line, strip line = EmptyString \/ strip line = "2" ->
                   fst (get_model_selection (line :: rest) w)
                   = Some ("BS-Roformer-SW.ckpt", rest)).
Proof.
  unfold get_model_selection. intros Hrun.
  apply (model_selection_loop_spec (length stdin) stdin _ w' model rest (le_n _)) in Hrun
    as (Hne & Hst & Hused & Hfs & Hev).
  repeat (split; [assumption |]).
  intros line [Hl | Hl]; cbn [model_selection_loop]; rewrite Hl; reflexivity.
Qed.

End Questions.

(** Two refused lines, then a padded [Y]: the answer is yes and the line
    after it is left. *)
Lemma yes_or_no_asks_until_answered_witness :
  fst (get_compilation_input (["maybe"; "yes"] ++ " Y " :: ["n"]) (start album_folder))
  = Some (true, ["n"]).
Proof.
  assert (Hyes : is_yes (PyStr.strip " Y ") = true) by (vm_compute; reflexivity).
  rewrite <- Hyes.
  apply (yes_or_no_asks_until_answered ["maybe"; "yes"] " Y " ["n"] (start album_folder)).
  - repeat constructor.
  - vm_compute. reflexivity.
Defined.

(** A blank custom name and a stray line are refused; the padded custom name
    that follows is returned without its padding. *)
Lemma model_selection_is_never_blank_witness :
  PyStr.strip "my model.ckpt" = "my model.ckpt".
Proof.
  apply (model_selection_is_never_blank ["3"; "   "; "x"; "3"; "  my model.ckpt "; "y"]
           (start album_folder)
           (snd (get_model_selection ["3"; "   "; "x"; "3"; "  my model.ckpt "; "y"]
                   (start album_folder)))
           "my model.ckpt" ["y"]).
  vm_compute. reflexivity.
Defined.

Section Dependencies.
Context {E : Externals} {I : Interpreter}.

(** X18: a missing dependency ends the run before it has done anything.
    [main] leaves through [sys.exit] exactly when ffmpeg or rsgain is not on
    the path or one of the two Python packages could not be imported; the
    status is then 1, no question has been asked (no line of the input is
    read), no collaborator has been called and the file system is as it
    was.  [check_dependency] itself either returns or exits with status 1
    after one printed line, and a kind of check it does not know passes
    without any check. *)
Theorem missing_dependency_stops_before_any_work (H : Host) (root : Tree)
    (stdin : list string) (w : World) :
  ((exists code, fst (fst (main_program H root stdin w)) = Exited code)
   <-> (shutil_which H "ffmpeg" = false \/ shutil_which H "rsgain" = false
        \/ MUTAGEN_AVAILABLE H = false \/ AUDIO_SEPARATOR_AVAILABLE H = false))
  /\ (forall code,
        fst (fst (main_program H root stdin w)) = Exited code ->
        code = 1
        /\ snd (fst (main_program H root stdin w)) = stdin
        /\ fs (snd (main_program H root stdin w)) = fs w
        /\ events (snd (main_program H root stdin w)) = events w)
  /\ (forall command check_type,
        (fst (check_dependency H command check_type w) = Returned tt
         /\ snd (check_dependency H command check_type w) = w)
        \/ (fst (check_dependency H command check_type w) = Exited 1
            /\ exists line, snd (check_dependency H command check_type w)
                            = print line [AStr command] w))
  /\ (forall command check_type,
        check_type <> "command" -> check_type <> "file" -> check_type <> "python_module" ->
        check_dependency H command check_type w = (Returned tt, w)).
Proof.
  split; [| split; [| split]].
  3:{ intros command check_type. unfold check_dependency.
      destruct (String.eqb check_type "command");
        [destruct (shutil_which H command); cbn [negb fst snd]; eauto |].
      destruct (String.eqb check_type "file");
        [destruct (os_path_isfile command w); cbn [negb fst snd]; eauto |].
      destruct (String.eqb check_type "python_module");
        [destruct (import_module H command); cbn [negb fst snd]; eauto |].
      now left. }
  3:{ intros command check_type H1 H2 H3. unfold check_dependency.
      apply String.eqb_neq in H1, H2, H3. now rewrite H1, H2, H3. }
  all: unfold main_program, check_dependency; cbn [String.eqb Ascii.eqb Bool.eqb].
  all: destruct (shutil_which H "ffmpeg") eqn:Hff; cbn [negb];
    [| first [ split; [tauto | intros _; now exists 1]
             | intros code Hc; injection Hc as <-; repeat split ]].
  all: destruct (shutil_which H "rsgain") eqn:Hrs; cbn [negb];
    [| first [ split; [tauto | intros _; now exists 1]
             | intros code Hc; injection Hc as <-; repeat split ]].
  all: destruct (MUTAGEN_AVAILABLE H) eqn:Hmu; cbn [negb];
    [| first [ split; [tauto | intros _; now exists 1]
             | intros code Hc; injection Hc as <-; repeat split ]].
  all: destruct (AUDIO_SEPARATOR_AVAILABLE H) eqn:Hau; cbn [negb];
    [| first [ split; [tauto | intros _; now exists 1]
             | intros code Hc; injection Hc as <-; repeat split ]].
  all: assert (Hno : forall code,
            fst (fst (
              match get_model_selection stdin
                      (print "All dependencies found!\n" []
                         (print "Checking dependencies..." []
                            (print "----------------------------------------------------------------\n" []
                               (print "\n\nWelcome to the automated Drumless folder Demuxer extraordinaire!" [] w))))
              with
              | (None, w) => (Raised EOFError, [], w)
              | (Some (demucs_model, stdin), w) =>
                  let '(ok, f) := Separator_init H (fs w) in
                  let w := set_fs f w in
                  if negb ok then (Raised SeparatorError, stdin, w) else
                  let '(ok, f) := load_model H demucs_model (fs w) in
                  let w := set_fs f w in
                  if negb ok then (Raised SeparatorError, stdin, w) else
                  match get_compilation_input stdin w with
                  | (None, w) => (Raised EOFError, [], w)
                  | (Some (is_compilation, stdin), w) =>
                      match get_normalization_input stdin w with
                      | (None, w) => (Raised EOFError, [], w)
                      | (Some (create_normalized, stdin), w) =>
                          let audio_files := find_audio_files root SUPPORTED_INPUT_EXTENSIONS in
                          let '(lists, w) :=
                            main demucs_model is_compilation create_normalized audio_files w in
                          (Returned lists, stdin, w)
                      end
                  end
              end)) <> Exited code)
    by (intros code;
        destruct (get_model_selection stdin _) as [[[model stdin1]|] w1]; [| discriminate];
        destruct (Separator_init H (fs w1)) as [ok1 f1];
        destruct ok1; [| discriminate]; cbn [negb];
        destruct (load_model H model _) as [ok2 f2];
        destruct ok2; [| discriminate]; cbn [negb];
        destruct (get_compilation_input stdin1 _) as [[[comp stdin2]|] w2]; [| discriminate];
        destruct (get_normalization_input stdin2 w2) as [[[norm stdin3]|] w3];
          [| discriminate];
        cbv zeta; destruct (main model comp norm _ w3) as [lists w4]; discriminate).
  - split.
    + intros (code & Hc). now contradiction (Hno code).
    + intros [Hc | [Hc | [Hc | Hc]]]; discriminate.
  - intros code Hc. now contradiction (Hno code).
Qed.

End Dependencies.

(** On a machine without rsgain the run exits with status 1 and reads no
    line. *)
Lemma missing_dependency_stops_before_any_work_witness :
  fst (fst (main_program (E:=scripted all_well) (I:=latin1) host_without_rsgain (Folder [] ["a.flac"])
              ["1"; "n"; "n"] (start album_folder))) = Exited 1
  /\ snd (fst (main_program (E:=scripted all_well) (I:=latin1) host_without_rsgain (Folder [] ["a.flac"])
                 ["1"; "n"; "n"] (start album_folder))) = ["1"; "n"; "n"].
Proof.
  assert (Hexit : fst (fst (main_program (E:=scripted all_well) (I:=latin1) host_without_rsgain
                              (Folder [] ["a.flac"]) ["1"; "n"; "n"] (start album_folder)))
                  = Exited 1) by (vm_compute; reflexivity).
  split; [exact Hexit |].
  exact (proj1 (proj2 (proj1 (proj2 (missing_dependency_stops_before_any_work
                                       (E:=scripted all_well) (I:=latin1) host_without_rsgain
                                       (Folder [] ["a.flac"]) ["1"; "n"; "n"]
                                       (start album_folder))) 1 Hexit))).
Defined.

(* ===================================================================== *)
(** ** What rsgain is asked, pass by pass *)
(* ===================================================================== *)

Section LoudnessPasses.
Context {E : Externals}.

Lemma fold_track_events (l : list string) (w : World) :
  exists new,
    events (fold_left (fun w mp3_file => snd (apply_replaygain_track mp3_file w)) l w)
    = events w ++ new
    /\ Forall2 (fun e m => exists ok, e = EvRun (RsgainTrack m) ok) new l.
Proof.
  revert w. induction l as [|m l IH]; intros w; cbn [fold_left].
  - exists []. split; [now rewrite app_nil_r | constructor].
  - destruct (apply_replaygain_track_inv m w) as (_ & ok & Hev).
    destruct (IH (snd (apply_replaygain_track m w))) as (new & Hnew & Hall).
    exists (EvRun (RsgainTrack m) ok :: new). split.
    + rewrite Hnew, Hev, <- app_assoc. reflexivity.
    + constructor; [now exists ok | exact Hall].
Qed.

(** X19: what rsgain is asked after each of the two loops.  After the loop
    over the tracks, an album run with at least one final output issues one
    album command, over the whole result list in its order; a compilation
    run, or a run without output, issues none.  After the loop over the
    outputs of the MP3 pass, an album run issues one album command over the
    whole MP3 list, a compilation run one track command for each MP3 file, in
    the order of the list; with no MP3 file none is issued. *)
Theorem rsgain_commands_follow_the_lists (model : string) (comp : bool)
    (audio_files final_files_list : list string) (w : World) :
  (exists new,
     events (snd (main_processing model comp audio_files w))
     = events (snd (main_loop model comp audio_files [] w)) ++ new
     /\ (comp = true \/ fst (main_processing model comp audio_files w) = [] -> new = [])
     /\ (comp = false -> fst (main_processing model comp audio_files w) <> [] ->
         exists ok,
           new = [EvRun (RsgainAlbum (fst (main_processing model comp audio_files w))) ok]))
  /\ (exists new,
        events (snd (process_normalization final_files_list comp w))
        = events (snd (normalization_loop final_files_list ([], ∅)
                         (print "\n\n=== Starting Normalization Process ===" [] w))) ++ new
        /\ (fst (process_normalization final_files_list comp w) = [] -> new = [])
        /\ (comp = true -> fst (process_normalization final_files_list comp w) <> [] ->
            Forall2 (fun e mp3_file => exists ok, e = EvRun (RsgainTrack mp3_file) ok)
                    new (fst (process_normalization final_files_list comp w)))
        /\ (comp = false -> fst (process_normalization final_files_list comp w) <> [] ->
            exists ok,
              new = [EvRun (RsgainAlbum (fst (process_normalization final_files_list comp w)))
                           ok])).
Proof.
  split.
  - unfold main_processing.
    destruct (main_loop model comp audio_files [] w) as [final w1]. cbn [fst snd].
    match goal with
    | |- context [print _ _ (if os_path_exists _ ?x then _ else _)] =>
        assert (Hq : forall t a, events (print t a (if os_path_exists "separated" x
                                                    then shutil_rmtree "separated" x else x))
                                 = events x)
          by (intros; rewrite <- (proj2 (rmtree_if_exists_log "separated" x)); reflexivity);
        rewrite Hq; clear Hq
    end.
    destruct final as [|o final].
    { exists []. rewrite app_nil_r. repeat split; congruence. }
    destruct comp; cbn [negb].
    { exists []. rewrite app_nil_r. repeat split; congruence. }
    rewrite fold_quiet_log by (intros; apply set_flac_tags_log).
    destruct (apply_replaygain_album_inv (o :: final) w1) as (_ & ok & Hev).
    exists [EvRun (RsgainAlbum (o :: final)) ok]. split; [exact Hev |]. split.
    + intros [Hc | Hc]; discriminate.
    + intros _ _. now exists ok.
  - unfold process_normalization.
    destruct (normalization_loop final_files_list ([], ∅) _) as [[mp3_files c] w1].
    cbn [fst snd].
    match goal with
    | |- context [events (print ?t1 ?a1 (print ?t2 ?a2 ?x))] =>
        change (events (print t1 a1 (print t2 a2 x))) with (events x)
    end.
    destruct mp3_files as [|m mp3_files].
    { exists []. rewrite app_nil_r. repeat split; congruence. }
    rewrite fold_quiet_log by (intros; apply stamp_mp3_reference_tags_log).
    match goal with
    | |- context [events (print ?t1 ?a1 ?x)] => change (events (print t1 a1 x)) with (events x)
    end.
    destruct comp.
    + destruct (fold_track_events (m :: mp3_files)
                  (print "\nApplying ReplayGain (track mode) to {} MP3 files..."
                         [ANat (length (m :: mp3_files))] w1)) as (new & Hnew & Hall).
      exists new. split; [exact Hnew |]. repeat split; try discriminate. intros _ _. exact Hall.
    + destruct (apply_replaygain_album_inv (m :: mp3_files)
                  (print "\nApplying ReplayGain (album mode) to {} MP3 files..."
                         [ANat (length (m :: mp3_files))] w1)) as (_ & ok & Hev).
      exists [EvRun (RsgainAlbum (m :: mp3_files)) ok]. split; [exact Hev |].
      repeat split; try discriminate. intros _ _. now exists ok.
Qed.

End LoudnessPasses.

(* ===================================================================== *)
(** ** The gain of the MP3 pass *)
(* ===================================================================== *)

Section Mp3Gain.
Context {E : Externals}.

Lemma mp3_gain_tenths (k : nat) :
  (k <= 2000)%nat ->
  mp3_gain_sound (tenth k) = true /\ mp3_gain_sound (- tenth k)%float = true.
Proof.
  intros Hk.
  assert (Hall : forallb (fun k => mp3_gain_sound (tenth k) && mp3_gain_sound (- tenth k)%float)
                         (seq 0 2001) = true)
    by (vm_compute; reflexivity).
  rewrite forallb_forall in Hall. apply andb_true_iff. apply Hall, in_seq. lia.
Qed.

(** X20: the gain of the MP3 pass.  When the peak of the file is read as
    [p], the transcoding command is run with the gain [-0.1 - p], whatever
    its sign, and its status is what the function returns.  For every
    reading of one decimal between -200.0 and 200.0 dB the gain is a boost
    below -0.1 dB, a cut above and nothing at -0.1 dB, and peak plus gain is
    -0.1 up to rounding (within 1e-13). *)
Theorem mp3_gain_lands_on_target (source_flac output_mp3 : string) (w : World) (p : float)
    (k : nat) :
  (k <= 2000)%nat ->
  p = tenth k \/ p = (- tenth k)%float ->
  fst (detect_file_peak_level source_flac w) = Some p ->
  (exists okp,
     events_since w (snd (normalize_and_convert_to_mp3 source_flac output_mp3 (-0.1)%float w))
     = [EvRun (FfmpegFilePeak source_flac) okp;
        EvRun (FfmpegToMp3 source_flac (mp3_gain p) output_mp3)
              (fst (normalize_and_convert_to_mp3 source_flac output_mp3 (-0.1)%float w))])
  /\ ((p <? -0.1)%float = true -> (0 <? mp3_gain p)%float = true)
  /\ ((-0.1 <? p)%float = true -> (mp3_gain p <? 0)%float = true)
  /\ (PrimFloat.abs ((p + mp3_gain p) + 0.1) <=? 1e-13)%float = true.
Proof.
  intros Hk Hp Hpeak.
  assert (Hsound : mp3_gain_sound p = true).
  { destruct (mp3_gain_tenths k Hk) as [H1 H2]. destruct Hp as [-> | ->]; assumption. }
  unfold mp3_gain_sound in Hsound. apply andb_true_iff in Hsound as [Hsign Herr].
  split; [| split; [| split; [| exact Herr]]].
  - unfold normalize_and_convert_to_mp3.
    destruct (detect_file_peak_level source_flac w) as [r w1] eqn:Hdet.
    cbn [fst] in Hpeak. subst r.
    apply detect_file_peak_level_inv in Hdet as (_ & okp & Hev1).
    match goal with
    | |- context [run_command ?c ?b ?x] => destruct (run_command c b x) as [[ok o] w2] eqn:Hrun
    end.
    apply run_command_inv in Hrun as (_ & Hev2 & _). cbn [fst snd].
    exists okp. apply events_since_app. rewrite Hev2. simpl. rewrite Hev1, <- app_assoc.
    reflexivity.
  - intros Hlow. now rewrite Hlow in Hsign.
  - intros Hhigh. destruct (p <? -0.1)%float eqn:Hlow; [| now rewrite Hhigh in Hsign].
    exfalso. clear - Hk Hp Hlow Hhigh.
    assert (Hall : forallb (fun k => negb ((tenth k <? -0.1)%float && (-0.1 <? tenth k)%float)
                                     && negb ((- tenth k <? -0.1)%float
                                              && (-0.1 <? - tenth k)%float))
                           (seq 0 2001) = true)
      by (vm_compute; reflexivity).
    rewrite forallb_forall in Hall.
    specialize (Hall k ltac:(apply in_seq; lia)).
    apply andb_true_iff in Hall as [H1 H2].
    destruct Hp as [-> | ->]; [rewrite Hlow, Hhigh in H1 | rewrite Hlow, Hhigh in H2];
      discriminate.
Qed.

End Mp3Gain.

(** A file that peaks at -6.0 dB is boosted by 5.9 dB. *)
Lemma mp3_gain_lands_on_target_witness :
  mp3_gain (- tenth 60)%float = 5.9%float
  /\ (PrimFloat.abs (((- tenth 60) + mp3_gain (- tenth 60)) + 0.1) <=? 1e-13)%float = true.
Proof.
  split; [vm_compute; reflexivity |].
  apply (mp3_gain_lands_on_target
           (E:=scripted (mkScript true "max_volume: -6.0 dB" true true true true))
           "a/x.flac" "a/x.mp3" (start album_folder) (- tenth 60)%float 60).
  - lia.
  - now right.
  - vm_compute. reflexivity.
Defined.

(* ===================================================================== *)
(** ** Artwork on its way to the MP3 *)
(* ===================================================================== *)

Section ArtworkToMp3.
Context {E : Externals}.

(** Whether [getall('APIC')] takes a frame depends on its key alone. *)
Lemma getall_APIC_one (g : Frame) :
  getall_APIC [g] = [] \/ getall_APIC [g] = [g].
Proof.
  unfold getall_APIC.
  destruct (String.eqb (HashKey g) "APIC" || PyStr.startswith (HashKey g) "APIC:") eqn:Hk.
  - right. now rewrite filter_cons_True by exact Hk.
  - left. rewrite filter_cons_False by (rewrite Hk; discriminate). reflexivity.
Qed.

Lemma getall_APIC_same_key (g h : Frame) :
  HashKey g = HashKey h -> getall_APIC [g] = [] -> getall_APIC [h] = [].
Proof.
  unfold getall_APIC. intros Hk.
  destruct (String.eqb (HashKey g) "APIC" || PyStr.startswith (HashKey g) "APIC:") eqn:Hg.
  - rewrite filter_cons_True by exact Hg. discriminate.
  - intros _. rewrite filter_cons_False by (rewrite <- Hk, Hg; discriminate). reflexivity.
Qed.

Lemma getall_APIC_app (l1 l2 : list Frame) :
  getall_APIC (l1 ++ l2) = getall_APIC l1 ++ getall_APIC l2.
Proof. unfold getall_APIC. apply filter_app. Qed.

Lemma getall_APIC_cons (g : Frame) (l : list Frame) :
  getall_APIC (g :: l) = getall_APIC [g] ++ getall_APIC l.
Proof. apply (getall_APIC_app [g] l). Qed.

Lemma getall_APIC_of (pic : Picture) : getall_APIC [APIC_of pic] = [APIC_of pic].
Proof.
  unfold getall_APIC. rewrite filter_cons_True; [reflexivity |].
  unfold APIC_of. cbn [HashKey]. apply orb_true_iff. right.
  unfold PyStr.startswith. now destruct (pic_desc pic); cbv.
Qed.

(** Adding a frame that is no picture changes no picture. *)
Lemma getall_APIC_add_other (fr : Frame) (l : list Frame) :
  getall_APIC [fr] = [] -> getall_APIC (id3_add fr l) = getall_APIC l.
Proof.
  intros Hfr. induction l as [|h rest IH]; simpl; [exact Hfr |].
  destruct (String.eqb (HashKey h) (HashKey fr)) eqn:Hk.
  - apply String.eqb_eq in Hk.
    rewrite (getall_APIC_cons fr), (getall_APIC_cons h), Hfr.
    now rewrite (getall_APIC_same_key fr h (eq_sym Hk) Hfr).
  - rewrite (getall_APIC_cons h (id3_add fr rest)), IH. symmetry. apply getall_APIC_cons.
Qed.

Lemma getall_APIC_add_if_present (key : string) (make : string -> Frame)
    (t : list (string * string)) (l : list Frame) :
  (forall v, getall_APIC [make v] = []) ->
  getall_APIC (add_if_present key make t l) = getall_APIC l.
Proof.
  intros Hmake. unfold add_if_present.
  destruct (vc_getitem key t) as [|v rest]; [reflexivity |].
  apply getall_APIC_add_other, Hmake.
Qed.

(** A frame under a new key goes last. *)
Lemma id3_add_fresh (fr : Frame) (l : list Frame) :
  (forall g, In g l -> HashKey g <> HashKey fr) -> id3_add fr l = l ++ [fr].
Proof.
  induction l as [|h rest IH]; intros Hnew; simpl; [reflexivity |].
  destruct (String.eqb (HashKey h) (HashKey fr)) eqn:Hk.
  - apply String.eqb_eq in Hk. exfalso. apply (Hnew h); [now left | exact Hk].
  - rewrite IH; [reflexivity |]. intros g Hg. apply Hnew. now right.
Qed.

(** A frame under the key of the last frame takes its place. *)
Lemma id3_add_last (fr g : Frame) (base : list Frame) :
  (forall h, In h base -> HashKey h <> HashKey fr) -> HashKey g = HashKey fr ->
  id3_add fr (base ++ [g]) = base ++ [fr].
Proof.
  induction base as [|h rest IH]; intros Hnew Hk; simpl.
  - now rewrite Hk, String.eqb_refl.
  - destruct (String.eqb (HashKey h) (HashKey fr)) eqn:Hh.
    + apply String.eqb_eq in Hh. exfalso. apply (Hnew h); [now left | exact Hh].
    + rewrite IH; [reflexivity | | exact Hk]. intros x Hx. apply Hnew. now right.
Qed.

(** No frame of a tag without pictures has the key of a picture. *)
Lemma no_picture_key (base : list Frame) (pic : Picture) (g : Frame) :
  getall_APIC base = [] -> In g base -> HashKey g <> HashKey (APIC_of pic).
Proof.
  intros Hnone Hin Hk.
  assert (Hg : getall_APIC [g] = []).
  { clear Hk. induction base as [|h rest IH]; [contradiction |].
    rewrite getall_APIC_cons in Hnone. apply app_eq_nil in Hnone as [Hh Hrest].
    destruct Hin as [-> | Hin]; [exact Hh | now apply IH]. }
  pose proof (getall_APIC_same_key g (APIC_of pic) Hk Hg) as Hp.
  rewrite getall_APIC_of in Hp. discriminate.
Qed.


(** Pictures of one description take one another's place: the last stays. *)
Lemma fold_pictures_same (desc : string) (pics : list Picture) (last : Picture)
    (base : list Frame) :
  getall_APIC base = [] ->
  Forall (fun p => pic_desc p = desc) (pics ++ [last]) ->
  fold_left (fun fr picture => id3_add (APIC_of picture) fr) (pics ++ [last]) base
  = base ++ [APIC_of last].
Proof.
  intros Hbase Hall.
  destruct pics as [|p0 pics]; cbn [app fold_left].
  - apply id3_add_fresh. intros g Hg. now apply (no_picture_key base).
  - rewrite id3_add_fresh by (intros g Hg; now apply (no_picture_key base)).
    cbn [app] in Hall. apply Forall_cons in Hall as [Hp0 Hall].
    revert p0 Hp0. induction pics as [|p1 pics IH]; intros p0 Hp0; cbn [app fold_left].
    + apply Forall_cons in Hall as [Hl _].
      apply id3_add_last.
      * intros g Hg. now apply (no_picture_key base).
      * apply APIC_key_desc. congruence.
    + cbn [app] in Hall. apply Forall_cons in Hall as [Hp1 Hall].
      rewrite id3_add_last.
      * now apply IH.
      * intros g Hg. now apply (no_picture_key base).
      * apply APIC_key_desc. congruence.
Qed.

(** The tags the copy writes before the pictures bring no picture. *)
Lemma written_tags_bring_no_picture (tags : list (string * string)) (old : list Frame) :
  getall_APIC
    (fold_left (fun fr rg_tag => add_if_present rg_tag (TXXX (PyStr.upper rg_tag)) tags fr)
       replaygain_tags
       (add_if_present "compilation" (TXXX "COMPILATION") tags
          (add_if_present "comment" (COMM "eng" EmptyString) tags
             (fold_left (fun fr m => add_if_present m.1 (TextFrame m.2) tags fr)
                tag_mapping old))))
  = getall_APIC old.
Proof.
  cbn [fold_left tag_mapping replaygain_tags fst snd].
  repeat (rewrite getall_APIC_add_if_present; [| intros v; reflexivity]).
  reflexivity.
Qed.



(** X22: the covers of an MPEG-4 track on their way to the MP3.
    [extract_pictures] describes every cover of an MPEG-4 file as [Cover]:
    [copy_artwork] gives the FLAC output all of them, in their order, and
    [copy_metadata_flac_to_mp3] then leaves a fresh MP3 with the last one
    alone. *)
Theorem mp4_covers_end_as_one (source_file output_flac dest_mp3 : string) (w : World)
    (covers : list Cover) (last : Cover) (tags : list (string * string))
    (pictures : list Picture) (old : option (list Frame)) :
  PyStr.lower (snd (OsPath.splitext source_file)) ∈ ({[ ".m4a"; ".mp4"; ".alac" ]} : gset string) ->
  fs w !! source_file = Some (Mp4File (Some (covers ++ [last]))) ->
  fs w !! output_flac = Some (FlacFile tags pictures) ->
  fs w !! dest_mp3 = Some (Mp3File old) ->
  getall_APIC (default [] old) = [] ->
  fst (copy_artwork source_file output_flac w) = true
  /\ fs (snd (copy_artwork source_file output_flac w)) !! output_flac
     = Some (FlacFile tags (map picture_of_cover (covers ++ [last])))
  /\ exists frames,
       fs (snd (copy_metadata_flac_to_mp3 output_flac dest_mp3
                  (snd (copy_artwork source_file output_flac w)))) !! dest_mp3
       = Some (Mp3File (Some frames))
       /\ getall_APIC frames = [APIC_of (picture_of_cover last)].
Proof.
  intros Hext Hsrc Hout Hmp3 Hold.
  assert (Hpics : extract_pictures source_file w
                  = (map picture_of_cover (covers ++ [last]), w)).
  { unfold extract_pictures.
    assert (Hne : String.eqb (PyStr.lower (snd (OsPath.splitext source_file))) ".flac" = false
                  /\ String.eqb (PyStr.lower (snd (OsPath.splitext source_file))) ".mp3" = false).
    { set_unfold in Hext. destruct Hext as [[-> | ->] | ->]; split; reflexivity. }
    destruct Hne as [-> ->]. rewrite bool_decide_eq_true_2 by exact Hext.
    now rewrite Hsrc. }
  assert (Hcopy : copy_artwork source_file output_flac w
                  = (true, set_fs (<[output_flac :=
                                       FlacFile tags (map picture_of_cover (covers ++ [last]))]>
                                     (fs w)) w)).
  { unfold copy_artwork, FLAC_open. rewrite Hout, Hpics.
    destruct (map picture_of_cover (covers ++ [last])) as [|p ps] eqn:Hmap.
    - apply map_eq_nil in Hmap. now destruct covers.
    - unfold FLAC_save. rewrite fold_add_picture_filename.
      destruct (fold_add_picture_pictures (p :: ps)
                  (clear_pictures (mkFLAC output_flac tags pictures))) as [-> ->].
      reflexivity. }
  rewrite Hcopy. cbn [fst snd set_fs fs].
  split; [reflexivity |]. split; [apply lookup_insert_eq |].
  assert (Hne : output_flac <> dest_mp3) by (intros ->; congruence).
  eexists.
  rewrite (copy_metadata_flac_to_mp3_frames output_flac dest_mp3 _ tags
             (map picture_of_cover (covers ++ [last])) old);
    [| unfold set_fs; cbn [fs]; apply lookup_insert_eq
     | unfold set_fs; cbn [fs]; rewrite lookup_insert_ne by exact Hne; exact Hmp3].
  cbn [snd set_fs fs]. split; [apply lookup_insert_eq |].
  rewrite map_app. cbn [map].
  rewrite (fold_pictures_same "Cover").
  - rewrite getall_APIC_app, written_tags_bring_no_picture, Hold, getall_APIC_of. reflexivity.
  - rewrite written_tags_bring_no_picture. exact Hold.
  - apply Forall_app. split; [| repeat constructor; now destruct last].
    apply Forall_forall. intros p Hp. apply list_elem_of_In, in_map_iff in Hp as (c & <- & _).
    now destruct c.
Qed.

End ArtworkToMp3.


(** An MPEG-4 track with a JPEG and a PNG cover: the output gets both, the
    MP3 the PNG alone. *)
Lemma mp4_covers_end_as_one_witness :
  exists frames,
    fs (snd (copy_metadata_flac_to_mp3 "t - Drumless.flac" "Normalised/t - Drumless.mp3"
               (snd (copy_artwork "t.m4a" "t - Drumless.flac"
                       (start (<["t.m4a" := Mp4File (Some ([MP4Cover FORMAT_JPEG "front"]
                                                          ++ [MP4Cover FORMAT_PNG "back"]))]>
                                 (<["t - Drumless.flac" := FlacFile [] []]>
                                    (<["Normalised/t - Drumless.mp3" := Mp3File None]> ∅))))))))
      !! "Normalised/t - Drumless.mp3"
    = Some (Mp3File (Some frames))
    /\ getall_APIC frames = [APIC "image/png" 3 "Cover" "back"].
Proof.
  apply (mp4_covers_end_as_one "t.m4a" "t - Drumless.flac" "Normalised/t - Drumless.mp3"
           (start (<["t.m4a" := Mp4File (Some ([MP4Cover FORMAT_JPEG "front"]
                                               ++ [MP4Cover FORMAT_PNG "back"]))]>
                     (<["t - Drumless.flac" := FlacFile [] []]>
                        (<["Normalised/t - Drumless.mp3" := Mp3File None]> ∅))))
           [MP4Cover FORMAT_JPEG "front"] (MP4Cover FORMAT_PNG "back") [] [] None).
  - vm_compute. set_solver.
  - vm_compute. reflexivity.
  - vm_compute. reflexivity.
  - vm_compute. reflexivity.
  - reflexivity.
Defined.
